(** * RVVM memory-mapping unit ([src/riscv_mmu.c]): shallow embedding and
      verification of the translation core.

    The development follows the C file top to bottom: RAM window, software
    TLB, the Sv32 and RV64 page-table walkers, the effective
    privilege/access resolver, the MMIO size normaliser and the
    [riscv_mmu_op] dispatcher.  Unsigned C integers are values of [Z] with
    their wrap-around written out; the hart is a record that is passed
    explicitly; calls that leave the unit ([riscv_trap], [rvvm_error]) and
    the loads of page-table entries are recorded in an event list, device
    callbacks in the list of calls an MMIO read returns. *)

From Stdlib Require Import ZArith Lia Bool List.
From stdpp Require Import base option list gmap.

Local Open Scope Z_scope.

(** ** Build parameters

    The widths of the integer typedefs and the TLB size come from headers
    ([rvvm_types.h], [bit_ops.h], [riscv_mmu.h]) that are not part of the
    unit; they are taken as parameters of the whole development. *)
Class rvvm_build := {
  (** width of [maxlen_t], [vaddr_t], [paddr_t]: 32, or 64 under [USE_RV64] *)
  XLEN : Z;
  (** width of [bitcnt_t] *)
  BITCNT_BITS : Z;
  (** [TLB_SIZE] is [2 ^ TLB_BITS], so that [TLB_MASK = TLB_SIZE - 1] *)
  TLB_BITS : Z
}.

(** ** Machine integers *)

(** Conversion to an unsigned [w]-bit integer. *)
Definition wrap (w x : Z) : Z := x mod 2 ^ w.

(** Reinterpretation of an unsigned [w]-bit integer as a signed one. *)
Definition to_signed (w x : Z) : Z := if x <? 2 ^ (w - 1) then x else x - 2 ^ w.

(** Modelled from the spec: [bit_mask] of [bit_ops.h] is missing; the spec
    uses [bit_mask(n)] as the mask of the [n] low bits. *)
Definition bit_mask (count : Z) : Z := Z.shiftl 1 count - 1.

(** Modelled from the spec: [bit_cut] of [bit_ops.h] is missing;
    [CSR_STATUS_MPP] is described as "bits 11-12" of [status], that is
    [bit_cut(x, 11, 2)] takes [bits] bits starting at [pos]. *)
Definition bit_cut (val pos bits : Z) : Z := Z.land (Z.shiftr val pos) (bit_mask bits).

(** Modelled from the spec: [sign_extend] of [bit_ops.h] is missing; the spec
    describes it as the sign extension of [val] from its low [bits] bits,
    computed on [maxlen_t] by a left shift and an arithmetic right shift. *)
Definition sign_extend `{rvvm_build} (val bits : Z) : Z :=
  Z.shiftr (to_signed XLEN (wrap XLEN (Z.shiftl val (XLEN - bits)))) (XLEN - bits).

(** ** Constants of the missing headers

    Modelled from the spec: 4 KiB pages, [PAGE_SHIFT = 12],
    [PAGE_MASK = 0xFFF]; PTE bits V(0) R(1) W(2) X(3) A(6) D(7); access
    masks [R = 0b0010], [W = 0b0100], [X = 0b1000]; a leaf has R or X set;
    privilege modes U=0, S=1, M=3; standard trap causes. *)
Definition PAGE_SHIFT : Z := 12.
Definition PAGE_SIZE : Z := 4096.
Definition PAGE_MASK : Z := 0xFFF.
Definition PAGE_PNMASK `{rvvm_build} : Z := wrap XLEN (Z.lnot 0xFFF).

Definition MMU_VALID_PTE : Z := 0x1.
Definition MMU_READ : Z := 0x2.
Definition MMU_WRITE : Z := 0x4.
Definition MMU_EXEC : Z := 0x8.
Definition MMU_LEAF_PTE : Z := 0xA.
Definition MMU_PAGE_ACCESSED : Z := 0x40.
Definition MMU_PAGE_DIRTY : Z := 0x80.

Definition PRIVILEGE_USER : Z := 0.
Definition PRIVILEGE_SUPERVISOR : Z := 1.
Definition PRIVILEGE_MACHINE : Z := 3.

Definition TRAP_INSTR_FETCH : Z := 1.
Definition TRAP_LOAD_FAULT : Z := 5.
Definition TRAP_STORE_FAULT : Z := 7.
Definition TRAP_INSTR_PAGEFAULT : Z := 12.
Definition TRAP_LOAD_PAGEFAULT : Z := 13.
Definition TRAP_STORE_PAGEFAULT : Z := 15.

Definition TLB_SIZE `{rvvm_build} : Z := 2 ^ TLB_BITS.
Definition TLB_MASK `{rvvm_build} : Z := TLB_SIZE - 1.

(** ** Constants defined in [riscv_mmu.c] *)
Definition SV32_VPN_BITS : Z := 10.
Definition SV32_VPN_MASK : Z := 0x3FF.
Definition SV32_PHYS_BITS : Z := 34.
Definition SV32_LEVELS : Z := 2.

Definition SV64_VPN_BITS : Z := 9.
Definition SV64_VPN_MASK : Z := 0x1FF.
Definition SV64_PHYS_BITS : Z := 56.
Definition SV64_PHYS_MASK : Z := bit_mask SV64_PHYS_BITS.
Definition SV39_LEVELS : Z := 3.
Definition SV48_LEVELS : Z := 4.
Definition SV57_LEVELS : Z := 5.

Definition CSR_STATUS_MPRV_BIT : Z := 17.
Definition CSR_STATUS_MPRV_MASK : Z := Z.shiftl 1 CSR_STATUS_MPRV_BIT.
Definition CSR_STATUS_MXR_BIT : Z := 19.
Definition CSR_STATUS_MXR_MASK : Z := Z.shiftl 1 CSR_STATUS_MXR_BIT.
Definition CSR_STATUS_MPP (x : Z) : Z := bit_cut x 11 2.

Definition CSR_SATP_MODE_PHYS : Z := 0.
Definition CSR_SATP_MODE_SV32 : Z := 1.
Definition CSR_SATP_MODE_SV39 : Z := 8.
Definition CSR_SATP_MODE_SV48 : Z := 9.
Definition CSR_SATP_MODE_SV57 : Z := 10.

(** ** Data model *)

(** [rvvm_ram_t]: the physical window [ram_begin, ram_begin + ram_size) and
    the host buffer.  The buffer is a finite map from byte offset to byte
    value; an absent offset reads as 0, as after [calloc].  A host pointer
    into the buffer is modelled by its offset, [NULL] by [None]. *)
Record rvvm_ram_t := mk_ram {
  ram_begin : Z;
  ram_size : Z;
  ram_data : gmap Z Z
}.

(** [rvvm_tlb_entry_t]: three tags and the biased host pointer. *)
Record rvvm_tlb_entry_t := mk_tlb_entry {
  tlb_r : Z;
  tlb_w : Z;
  tlb_e : Z;
  tlb_ptr : Z
}.

(** The fields of [rvvm_hart_t] the unit reads or writes. *)
Record rvvm_hart_t := mk_hart {
  priv_mode : Z;
  csr_status : Z;
  mmu_mode : Z;
  root_page_table : Z;
  tlb : list rvvm_tlb_entry_t;
  mem : rvvm_ram_t
}.

(** Calls that leave the unit, in the order they are made. *)
Inductive event :=
| EvPteLoad (paddr : Z)
| EvError
| EvTrap (cause tval : Z).

(** The hart together with the calls made so far. *)
Record world := mk_world {
  hart : rvvm_hart_t;
  events : list event
}.

(** State passing: every function of the unit that takes [rvvm_hart_t* vm]
    and has an effect is a computation over [world]. *)
Definition M (A : Type) : Type := world -> A * world.

Definition ret {A} (a : A) : M A := fun w => (a, w).
Definition bind {A B} (m : M A) (k : A -> M B) : M B :=
  fun w => let (a, w') := m w in k a w'.

Declare Scope mmu_scope.
Delimit Scope mmu_scope with mmu.
Notation "x <- m ;; k" := (bind m (fun x => k))
  (at level 100, m at next level, right associativity) : mmu_scope.
Notation "m ;;; k" := (bind m (fun _ => k))
  (at level 100, right associativity) : mmu_scope.
Local Open Scope mmu_scope.

Definition get_hart : M rvvm_hart_t := fun w => (hart w, w).
Definition put_hart (vm : rvvm_hart_t) : M unit :=
  fun w => (tt, mk_world vm (events w)).
Definition emit (e : event) : M unit :=
  fun w => (tt, mk_world (hart w) (events w ++ [e])).

Definition set_tlb (t : list rvvm_tlb_entry_t) (vm : rvvm_hart_t) : rvvm_hart_t :=
  mk_hart (priv_mode vm) (csr_status vm) (mmu_mode vm) (root_page_table vm) t (mem vm).
Definition set_ram_data (d : gmap Z Z) (vm : rvvm_hart_t) : rvvm_hart_t :=
  mk_hart (priv_mode vm) (csr_status vm) (mmu_mode vm) (root_page_table vm) (tlb vm)
          (mk_ram (ram_begin (mem vm)) (ram_size (mem vm)) d).

(** [rvvm_error]: logging only. *)
Definition rvvm_error : M unit := emit EvError.

(** Modelled from the spec: [riscv_trap] belongs to the hart core; the unit
    only calls [trap(cause, tval)]. *)
Definition riscv_trap (cause tval : Z) : M unit := emit (EvTrap cause tval).

(** ** RAM *)

(** [riscv_init_ram]: [alloc] is the outcome of [calloc], the fresh zeroed
    buffer or failure. *)
Definition riscv_init_ram (alloc : bool) (begin size : Z) : option rvvm_ram_t :=
  if negb (Z.land begin PAGE_MASK =? 0) || negb (Z.land size PAGE_MASK =? 0) then None
  else if negb alloc then None
  else Some (mk_ram begin size ∅).

(** [riscv_free_ram]: the descriptor is zeroed. *)
Definition riscv_free_ram (m : rvvm_ram_t) : rvvm_ram_t := mk_ram 0 0 ∅.

(** Modelled from the spec: [riscv_phys_translate] is an inline function of
    the missing [riscv_mmu.h]; it "returns a host pointer if
    [pa ∈ [begin, begin+size)], else null". *)
Definition riscv_phys_translate (vm : rvvm_hart_t) (paddr : Z) : option Z :=
  if (ram_begin (mem vm) <=? paddr) && (paddr <? ram_begin (mem vm) + ram_size (mem vm))
  then Some (paddr - ram_begin (mem vm))
  else None.

(** One byte of the host buffer, read as [uint8_t]. *)
Definition ram_byte (d : gmap Z Z) (off : Z) : Z := wrap 8 (default 0 (d !! off)).

(** Little-endian load of [n] bytes. *)
Fixpoint read_le (d : gmap Z Z) (off : Z) (n : nat) : Z :=
  match n with
  | O => 0
  | S n' => ram_byte d off + 256 * read_le d (off + 1) n'
  end.

(** Little-endian store of the [n] low bytes of [v]. *)
Fixpoint write_le (d : gmap Z Z) (off : Z) (n : nat) (v : Z) : gmap Z Z :=
  match n with
  | O => d
  | S n' => write_le (<[off := v mod 256]> d) (off + 1) n' (v / 256)
  end.

(** Modelled from the spec: [read_uint32_le] and [read_uint64_le] of the
    missing [mem_ops.h]; PTEs are 4-byte (Sv32) or 8-byte little-endian
    words of guest memory.  The load is recorded with the physical address
    it serves. *)
Definition read_pte (bytes : nat) (paddr ptr : Z) : M Z :=
  emit (EvPteLoad paddr) ;;;
  vm <- get_hart ;;
  ret (read_le (ram_data (mem vm)) ptr bytes).

(** Modelled from the spec: [atomic_cas_uint32_le] and [atomic_cas_uint64_le]
    of the missing [atomics.h]: "a single atomic CAS against the original
    value (no retry loop)".  On one hart the word is replaced when it still
    holds [expected]. *)
Definition atomic_cas_le (bytes : nat) (ptr expected desired : Z) : M bool :=
  vm <- get_hart ;;
  if read_le (ram_data (mem vm)) ptr bytes =? expected then
    put_hart (set_ram_data (write_le (ram_data (mem vm)) ptr bytes desired) vm) ;;;
    ret true
  else ret false.

(** ** Software TLB *)

Definition tlb_zero : rvvm_tlb_entry_t := mk_tlb_entry 0 0 0 0.

(** [vm->tlb[i]] *)
Definition tlb_at (vm : rvvm_hart_t) (i : Z) : rvvm_tlb_entry_t :=
  default tlb_zero (tlb vm !! Z.to_nat i).

(** [vm->tlb[i] = e] *)
Definition tlb_store (i : Z) (e : rvvm_tlb_entry_t) (vm : rvvm_hart_t) : rvvm_hart_t :=
  set_tlb (<[Z.to_nat i := e]> (tlb vm)) vm.

Definition riscv_tlb_flush `{rvvm_build} (vm : rvvm_hart_t) : rvvm_hart_t :=
  (* memset(vm->tlb, 0, sizeof(vm->tlb)) *)
  let vm := set_tlb (replicate (Z.to_nat TLB_SIZE) tlb_zero) vm in
  (* tlb[0].r = tlb[0].w = tlb[0].e = -1 *)
  let e := tlb_at vm 0 in
  let vm := tlb_store 0 (mk_tlb_entry (wrap XLEN (-1)) (tlb_w e) (tlb_e e) (tlb_ptr e)) vm in
  let e := tlb_at vm 0 in
  let vm := tlb_store 0 (mk_tlb_entry (tlb_r e) (wrap XLEN (-1)) (tlb_e e) (tlb_ptr e)) vm in
  let e := tlb_at vm 0 in
  tlb_store 0 (mk_tlb_entry (tlb_r e) (tlb_w e) (wrap XLEN (-1)) (tlb_ptr e)) vm.

Definition riscv_tlb_flush_page `{rvvm_build} (vm : rvvm_hart_t) (addr : Z) : rvvm_hart_t :=
  let vpn := Z.shiftr addr PAGE_SHIFT in
  let i := Z.land vpn TLB_MASK in
  let e := tlb_at vm i in
  let vm := tlb_store i (mk_tlb_entry (wrap XLEN (vpn - 1)) (tlb_w e) (tlb_e e) (tlb_ptr e)) vm in
  let e := tlb_at vm i in
  let vm := tlb_store i (mk_tlb_entry (tlb_r e) (wrap XLEN (vpn - 1)) (tlb_e e) (tlb_ptr e)) vm in
  let e := tlb_at vm i in
  tlb_store i (mk_tlb_entry (tlb_r e) (tlb_w e) (wrap XLEN (vpn - 1)) (tlb_ptr e)) vm.

(** The [switch (op)] of [riscv_tlb_put] on the entry; the boolean tells
    whether the [default:] arm complained. *)
Definition tlb_put_tags `{rvvm_build} (entry : rvvm_tlb_entry_t) (vpn op : Z)
  : rvvm_tlb_entry_t * bool :=
  if op =? MMU_READ then
    let r := vpn in
    let w := if tlb_w entry =? vpn then tlb_w entry else wrap XLEN (vpn - 1) in
    let e := if tlb_e entry =? vpn then tlb_e entry else wrap XLEN (vpn - 1) in
    (mk_tlb_entry r w e (tlb_ptr entry), false)
  else if op =? MMU_WRITE then
    let r := vpn in
    let w := vpn in
    let e := if tlb_e entry =? vpn then tlb_e entry else wrap XLEN (vpn - 1) in
    (mk_tlb_entry r w e (tlb_ptr entry), false)
  else if op =? MMU_EXEC then
    let r := if tlb_r entry =? vpn then tlb_r entry else wrap XLEN (vpn - 1) in
    let w := if tlb_w entry =? vpn then tlb_w entry else wrap XLEN (vpn - 1) in
    let e := vpn in
    (mk_tlb_entry r w e (tlb_ptr entry), false)
  else
    (mk_tlb_entry (wrap XLEN (vpn - 1)) (wrap XLEN (vpn - 1)) (wrap XLEN (vpn - 1))
                  (tlb_ptr entry), true).

(** [riscv_tlb_put].  [TLB_VADDR] is the address as a host-pointer offset;
    the biased pointer is kept as an exact difference of offsets. *)
Definition riscv_tlb_put `{rvvm_build} (vaddr paddr op : Z) : M unit :=
  let vpn := Z.shiftr vaddr PAGE_SHIFT in
  let vaddr := Z.land vaddr PAGE_PNMASK in
  let paddr := Z.land paddr PAGE_PNMASK in
  vm <- get_hart ;;
  match riscv_phys_translate vm paddr with
  | Some ptr =>
      let i := Z.land vpn TLB_MASK in
      let (entry, complained) := tlb_put_tags (tlb_at vm i) vpn op in
      (if complained then rvvm_error else ret tt) ;;;
      put_hart (tlb_store i (mk_tlb_entry (tlb_r entry) (tlb_w entry) (tlb_e entry)
                                          (ptr - vaddr)) vm)
  | None => ret tt
  end.

(** Modelled from the spec: the TLB lookup is an inline function of the
    missing [riscv_mmu.h]: "if the tag field for [op] at [slot(VPN)] equals
    VPN, return [ptr + vaddr]. Else miss." *)
Definition riscv_tlb_lookup `{rvvm_build} (vm : rvvm_hart_t) (vaddr op : Z) : option Z :=
  let vpn := Z.shiftr vaddr PAGE_SHIFT in
  let entry := tlb_at vm (Z.land vpn TLB_MASK) in
  let tag :=
    if op =? MMU_READ then Some (tlb_r entry)
    else if op =? MMU_WRITE then Some (tlb_w entry)
    else if op =? MMU_EXEC then Some (tlb_e entry)
    else None in
  match tag with
  | Some t => if t =? vpn then Some (tlb_ptr entry + vaddr) else None
  | None => None
  end.

(** ** Page-table walkers *)

(** The [for] loop of [riscv_mmu_translate_sv32]; [iters] counts the
    iterations that remain.  [None] is [return false]; [Some pa] is
    [*paddr = pa; return true]. *)
Fixpoint sv32_walk `{rvvm_build} (iters : nat) (pagetable bit_off vaddr access : Z)
  : M (option Z) :=
  match iters with
  | O => ret None
  | S iters' =>
    let pgt_off :=
      wrap XLEN (Z.shiftl (Z.land (Z.shiftr vaddr bit_off) SV32_VPN_MASK) 2) in
    let pte_pa := wrap XLEN (pagetable + pgt_off) in
    vm <- get_hart ;;
    match riscv_phys_translate vm pte_pa with
    | Some pte_addr =>
      pte <- read_pte 4 pte_pa pte_addr ;;
      if negb (Z.land pte MMU_VALID_PTE =? 0) then
        if negb (Z.land pte MMU_LEAF_PTE =? 0) then
          if negb (Z.land pte access =? 0) then
            let vmask := wrap XLEN (bit_mask bit_off) in
            let pmask :=
              wrap XLEN (Z.shiftl (bit_mask (SV32_PHYS_BITS - bit_off)) bit_off) in
            let pte_flags :=
              Z.lor (Z.lor pte MMU_PAGE_ACCESSED) (Z.shiftl (Z.land access MMU_WRITE) 5) in
            let pte_shift := wrap XLEN (Z.shiftl pte 2) in
            if negb (Z.land pte_shift (Z.land vmask pmask) =? 0) then ret None
            else
              (if negb (pte =? pte_flags)
               then (atomic_cas_le 4 pte_addr pte pte_flags ;;; ret tt)
               else ret tt) ;;;
              ret (Some (Z.lor (Z.land pte_shift pmask) (Z.land vaddr vmask)))
          else ret None
        else if Z.land pte MMU_WRITE =? 0 then
          sv32_walk iters' (wrap XLEN (Z.shiftl (Z.shiftr pte 10) PAGE_SHIFT))
                    (wrap BITCNT_BITS (bit_off - SV32_VPN_BITS)) vaddr access
        else ret None
      else ret None
    | None => ret None
    end
  end.

Definition riscv_mmu_translate_sv32 `{rvvm_build} (vaddr access : Z) : M (option Z) :=
  vm <- get_hart ;;
  let pagetable := root_page_table vm in
  let bit_off := wrap BITCNT_BITS (SV32_VPN_BITS + PAGE_SHIFT) in
  sv32_walk (Z.to_nat SV32_LEVELS) pagetable bit_off vaddr access.

(** The [for] loop of [riscv_mmu_translate_rv64]. *)
Fixpoint rv64_walk `{rvvm_build} (iters : nat) (pagetable bit_off vaddr access : Z)
  : M (option Z) :=
  match iters with
  | O => ret None
  | S iters' =>
    let pgt_off :=
      wrap XLEN (Z.shiftl (Z.land (Z.shiftr vaddr bit_off) SV64_VPN_MASK) 3) in
    let pte_pa := wrap XLEN (pagetable + pgt_off) in
    vm <- get_hart ;;
    match riscv_phys_translate vm pte_pa with
    | Some pte_addr =>
      pte <- read_pte 8 pte_pa pte_addr ;;
      if negb (Z.land pte MMU_VALID_PTE =? 0) then
        if negb (Z.land pte MMU_LEAF_PTE =? 0) then
          if negb (Z.land pte access =? 0) then
            let vmask := wrap XLEN (bit_mask bit_off) in
            let pmask :=
              wrap XLEN (Z.shiftl (bit_mask (SV64_PHYS_BITS - bit_off)) bit_off) in
            let pte_flags :=
              Z.lor (Z.lor pte MMU_PAGE_ACCESSED) (Z.shiftl (Z.land access MMU_WRITE) 5) in
            let pte_shift := wrap XLEN (Z.shiftl pte 2) in
            if negb (Z.land pte_shift (Z.land vmask pmask) =? 0) then ret None
            else
              atomic_cas_le 8 pte_addr pte pte_flags ;;;
              ret (Some (Z.lor (Z.land pte_shift pmask) (Z.land vaddr vmask)))
          else ret None
        else if Z.land pte MMU_WRITE =? 0 then
          rv64_walk iters'
                    (Z.land (wrap XLEN (Z.shiftl (Z.shiftr pte 10) PAGE_SHIFT)) SV64_PHYS_MASK)
                    (wrap BITCNT_BITS (bit_off - SV64_VPN_BITS)) vaddr access
        else ret None
      else ret None
    | None => ret None
    end
  end.

(** The initial [bit_off] of [riscv_mmu_translate_rv64], as the source
    computes it: the [int] expression
    [(sv_levels * SV64_VPN_BITS) + PAGE_SIZE - SV64_VPN_BITS] converted to
    [bitcnt_t]. *)
Definition rv64_bit_off `{rvvm_build} (sv_levels : Z) : Z :=
  wrap BITCNT_BITS (sv_levels * SV64_VPN_BITS + PAGE_SIZE - SV64_VPN_BITS).

(** [riscv_mmu_translate_rv64] (compiled under [USE_RV64]).  The shifts of
    the C code are defined only for counts below [XLEN]; the model is
    meaningful for the builds where [bit_off] stays below it. *)
Definition riscv_mmu_translate_rv64 `{rvvm_build} (vaddr access sv_levels : Z)
  : M (option Z) :=
  vm <- get_hart ;;
  let pagetable := root_page_table vm in
  let bit_off := rv64_bit_off sv_levels in
  if negb (vaddr =? wrap XLEN (sign_extend vaddr (bit_off + SV64_VPN_BITS))) then ret None
  else rv64_walk (Z.to_nat sv_levels) pagetable bit_off vaddr access.

(** ** Effective privilege and access *)

(** The [switch (vm->mmu_mode)] of [riscv_mmu_translate]; the Sv39/48/57
    arms exist under [USE_RV64] only. *)
Definition translate_by_mode `{rvvm_build} (vaddr access : Z) : M (option Z) :=
  vm <- get_hart ;;
  if mmu_mode vm =? CSR_SATP_MODE_PHYS then ret (Some vaddr)
  else if mmu_mode vm =? CSR_SATP_MODE_SV32 then riscv_mmu_translate_sv32 vaddr access
  else if (XLEN =? 64) && (mmu_mode vm =? CSR_SATP_MODE_SV39) then
    riscv_mmu_translate_rv64 vaddr access SV39_LEVELS
  else if (XLEN =? 64) && (mmu_mode vm =? CSR_SATP_MODE_SV48) then
    riscv_mmu_translate_rv64 vaddr access SV48_LEVELS
  else if (XLEN =? 64) && (mmu_mode vm =? CSR_SATP_MODE_SV57) then
    riscv_mmu_translate_rv64 vaddr access SV57_LEVELS
  else rvvm_error ;;; ret None.

Definition riscv_mmu_translate `{rvvm_build} (vaddr access : Z) : M (option Z) :=
  vm <- get_hart ;;
  let priv := priv_mode vm in
  let priv :=
    if negb (Z.land (csr_status vm) CSR_STATUS_MPRV_MASK =? 0) && negb (access =? MMU_EXEC)
    then wrap 8 (CSR_STATUS_MPP (csr_status vm)) else priv in
  let access :=
    if negb (Z.land (csr_status vm) CSR_STATUS_MXR_MASK =? 0) && (access =? MMU_READ)
    then MMU_EXEC else access in
  if priv <=? PRIVILEGE_SUPERVISOR then translate_by_mode vaddr access
  else ret (Some vaddr).

(** ** MMIO size normalisation *)

(** A byte of a host buffer: written, or indeterminate (an automatic array
    that has not been written yet). *)
Inductive mbyte :=
| Byte (b : Z)
| Undef.

(** [rvvm_mmio_dev_t]: the operation window and the [read] callback.  The
    callback receives the device state behind [mmio->data], the size and
    the offset; it yields the bytes it stores to [dest] and the new device
    state. *)
Record rvvm_mmio_dev_t (D : Type) := mk_mmio_dev {
  min_op_size : Z;
  max_op_size : Z;
  mmio_read : D -> Z -> Z -> list Z * D
}.
Arguments mk_mmio_dev {D} _ _ _.
Arguments min_op_size {D} _.
Arguments max_op_size {D} _.
Arguments mmio_read {D} _ _ _ _.

(** A callback invocation: size and offset. *)
Record mmio_call := mk_mmio_call {
  call_size : Z;
  call_offset : Z
}.

(** [new] stored at the start of the buffer [old]. *)
Definition overwrite {A} (new old : list A) : list A := new ++ drop (length new) old.

(** The buffer at [p + k], updated by [f]. *)
Definition at_offset {A} (k : Z) (f : list A -> list A) (p : list A) : list A :=
  take (Z.to_nat k) p ++ f (drop (Z.to_nat k) p).

(** [n] bytes of the array [buf] from index [off] on; bytes beyond the array
    are indeterminate. *)
Definition slice (buf : list mbyte) (off n : Z) : list mbyte :=
  map (fun i => default Undef (buf !! (Z.to_nat off + i)%nat)) (seq 0 (Z.to_nat n)).

(** [while (new_size < size + offset_diff) new_size <<= 1] on [uint8_t];
    after eight doublings the value is 0 for good, so nine rounds decide
    whether the loop leaves ([Some]) or spins ([None]). *)
Fixpoint grow_size (rounds : nat) (new_size target : Z) : option Z :=
  if new_size <? target then
    match rounds with
    | O => None
    | S rounds' => grow_size rounds' (wrap 8 (Z.shiftl new_size 1)) target
    end
  else Some new_size.

(** [riscv_mmio_read_unaligned]; [dest] is the buffer the pointer [dest]
    designates.  The result is the updated buffer, the device state and the
    callback invocations made; [None] when the assertion fails, the loop
    spins or [fuel] is used up. *)
Fixpoint riscv_mmio_read_unaligned `{rvvm_build} {D} (fuel : nat) (mmio : rvvm_mmio_dev_t D)
    (data : D) (dest : list mbyte) (size offset : Z)
  : option (list mbyte * D * list mmio_call) :=
  match fuel with
  | O => None
  | S fuel' =>
    if negb (min_op_size mmio <=? max_op_size mmio) then None
    else if (size <? min_op_size mmio)
         || negb (Z.land offset (wrap XLEN (min_op_size mmio - 1)) =? 0) then
      let aligned_offset :=
        Z.land offset (wrap XLEN (Z.lnot (wrap XLEN (min_op_size mmio - 1)))) in
      let offset_diff := wrap 8 (offset - aligned_offset) in
      let tmp := replicate 16 Undef in
      match grow_size 9 (min_op_size mmio) (size + offset_diff) with
      | None => None
      | Some new_size =>
        match riscv_mmio_read_unaligned fuel' mmio data tmp (min_op_size mmio)
                                        aligned_offset with
        | None => None
        | Some (tmp, data, calls) =>
          Some (overwrite (slice tmp offset_diff size) dest, data, calls)
        end
      end
    else if max_op_size mmio <? size then
      let size_half := Z.shiftr size 1 in
      match riscv_mmio_read_unaligned fuel' mmio data dest size_half offset with
      | None => None
      | Some (dest, data, calls1) =>
        match riscv_mmio_read_unaligned fuel' mmio data (drop (Z.to_nat size_half) dest)
                                        size_half (wrap XLEN (offset + size_half)) with
        | None => None
        | Some (dest2, data, calls2) =>
          Some (take (Z.to_nat size_half) dest ++ dest2, data, calls1 ++ calls2)
        end
      end
    else
      let (bytes, data) := mmio_read mmio data size offset in
      Some (overwrite (map Byte bytes) dest, data, [mk_mmio_call size offset])
  end.

(** [riscv_mmio_read] *)
Definition riscv_mmio_read `{rvvm_build} {D} (fuel : nat) (mmio : rvvm_mmio_dev_t D)
    (data : D) (dest : list mbyte) (size offset : Z)
  : option (list mbyte * D * list mmio_call) :=
  if (max_op_size mmio <? size) || (size <? min_op_size mmio)
     || negb (Z.land offset (wrap XLEN (min_op_size mmio - 1)) =? 0)
  then riscv_mmio_read_unaligned fuel mmio data dest size offset
  else
    let (bytes, data) := mmio_read mmio data size offset in
    Some (overwrite (map Byte bytes) dest, data, [mk_mmio_call size offset]).

(** ** Dispatcher *)

(** [riscv_mmio_op]: the body is commented out in the source; every call
    returns [false]. *)
Definition riscv_mmio_op (addr : Z) (buf : list Z) (dest size access : Z) : M bool :=
  ret false.

(** [riscv_jit_flush]: a stub. *)
Definition riscv_jit_flush (vaddr paddr size : Z) : M unit := ret tt.

(** Modelled from the spec: [riscv_block_in_page] is an inline function of
    the missing [riscv_mmu.h]; it holds when [[vaddr, vaddr+size)] does not
    cross a 4 KiB boundary. *)
Definition riscv_block_in_page (addr size : Z) : bool :=
  Z.land addr PAGE_MASK + size <=? PAGE_SIZE.

(** [memcpy(ptr, src, n)] into the host buffer of the RAM. *)
Fixpoint memcpy_to_ram (d : gmap Z Z) (ptr : Z) (src : list Z) : gmap Z Z :=
  match src with
  | [] => d
  | b :: src' => memcpy_to_ram (<[ptr := b]> d) (ptr + 1) src'
  end.

(** The [n] bytes of the host buffer from [ptr] on. *)
Definition ram_bytes (d : gmap Z Z) (ptr : Z) (n : Z) : list Z :=
  map (fun i => ram_byte d (ptr + Z.of_nat i)) (seq 0 (Z.to_nat n)).

(** The caller's buffer [buf] is addressed by [dest], an index into it:
    the [n] bytes at [dest], and [memcpy(dest, src, n)]. *)
Definition buf_bytes (buf : list Z) (dest n : Z) : list Z :=
  map (fun i => default 0 (buf !! (Z.to_nat dest + i)%nat)) (seq 0 (Z.to_nat n)).
Definition buf_store (buf : list Z) (dest : Z) (src : list Z) : list Z :=
  at_offset dest (overwrite src) buf.

(** The two [switch (access)] statements that choose [trap_cause]. *)
Definition access_fault_cause (access : Z) : M Z :=
  if access =? MMU_WRITE then ret TRAP_STORE_FAULT
  else if access =? MMU_READ then ret TRAP_LOAD_FAULT
  else if access =? MMU_EXEC then ret TRAP_INSTR_FETCH
  else rvvm_error ;;; ret 0.

Definition page_fault_cause (access : Z) : M Z :=
  if access =? MMU_WRITE then ret TRAP_STORE_PAGEFAULT
  else if access =? MMU_READ then ret TRAP_LOAD_PAGEFAULT
  else if access =? MMU_EXEC then ret TRAP_INSTR_PAGEFAULT
  else rvvm_error ;;; ret 0.

(** [riscv_mmu_op]: the result is the returned flag and the caller's buffer
    after the call; [None] when [fuel] does not cover the recursion. *)
Fixpoint riscv_mmu_op_fuel `{rvvm_build} (fuel : nat) (addr : Z) (buf : list Z)
    (dest size access : Z) : M (option (bool * list Z)) :=
  match fuel with
  | O => ret None
  | S fuel' =>
    if negb (riscv_block_in_page addr size) then
      let part_size := PAGE_SIZE - Z.land addr PAGE_MASK in
      r1 <- riscv_mmu_op_fuel fuel' addr buf dest part_size access ;;
      match r1 with
      | Some (true, buf) =>
        riscv_mmu_op_fuel fuel' (wrap XLEN (addr + part_size)) buf (dest + part_size)
                          (size - part_size) access
      | Some (false, buf) => ret (Some (false, buf))
      | None => ret None
      end
    else
      r <- riscv_mmu_translate addr access ;;
      match r with
      | Some paddr =>
        vm <- get_hart ;;
        match riscv_phys_translate vm paddr with
        | Some ptr =>
          riscv_tlb_put addr paddr access ;;;
          if access =? MMU_WRITE then
            riscv_jit_flush addr paddr size ;;;
            vm <- get_hart ;;
            put_hart (set_ram_data
                        (memcpy_to_ram (ram_data (mem vm)) ptr (buf_bytes buf dest size))
                        vm) ;;;
            ret (Some (true, buf))
          else
            vm <- get_hart ;;
            ret (Some (true, buf_store buf dest (ram_bytes (ram_data (mem vm)) ptr size)))
        | None =>
          ok <- riscv_mmio_op paddr buf dest size access ;;
          if ok then ret (Some (true, buf))
          else
            trap_cause <- access_fault_cause access ;;
            riscv_trap trap_cause addr ;;;
            ret (Some (false, buf))
        end
      | None =>
        trap_cause <- page_fault_cause access ;;
        riscv_trap trap_cause addr ;;;
        ret (Some (false, buf))
      end
  end.

(** The recursion splits off at least one byte each time, so [size + 1]
    rounds cover it. *)
Definition riscv_mmu_op `{rvvm_build} (addr : Z) (buf : list Z) (dest size access : Z)
  : M (option (bool * list Z)) :=
  riscv_mmu_op_fuel (S (Z.to_nat size)) addr buf dest size access.

(** * Specification vocabulary

    Definitions that state the properties: reference builds, the reading
    of the spec's words, and the concrete machines used in examples. *)

(** A 32-bit and a 64-bit ([USE_RV64]) build, both with byte-wide
    [bitcnt_t] and 256 TLB entries. *)
Definition rv32_build : rvvm_build := {| XLEN := 32; BITCNT_BITS := 8; TLB_BITS := 8 |}.
Definition rv64_build : rvvm_build := {| XLEN := 64; BITCNT_BITS := 8; TLB_BITS := 8 |}.

(** The three access classes. *)
Definition is_access (op : Z) : Prop := op = MMU_READ \/ op = MMU_WRITE \/ op = MMU_EXEC.

(** The classes a put for [op] grants, in the words of the spec:
    implied(R)={R}, implied(W)={R,W}, implied(X)={X}. *)
Definition implied (op : Z) : list Z :=
  if op =? MMU_READ then [MMU_READ]
  else if op =? MMU_WRITE then [MMU_READ; MMU_WRITE]
  else if op =? MMU_EXEC then [MMU_EXEC]
  else [].

(** A lookup hits. *)
Definition tlb_hits `{rvvm_build} (vm : rvvm_hart_t) (vaddr op : Z) : bool :=
  match riscv_tlb_lookup vm vaddr op with
  | Some _ => true
  | None => false
  end.

(** The round trip as the spec words it: after the put, a lookup of the
    same address hits exactly for the implied classes. *)
Definition put_lookup_roundtrip `{rvvm_build} (w : world) (vaddr paddr op op' : Z) : Prop :=
  tlb_hits (hart (snd (riscv_tlb_put vaddr paddr op w))) vaddr op' = true
  <-> In op' (implied op).

(** The hart after a flush and a cached store translation of page 0. *)
Definition tlb_store_cached_world : world :=
  snd (@riscv_tlb_put rv64_build 0 0x80000000 MMU_WRITE
         (mk_world (@riscv_tlb_flush rv64_build
                      (mk_hart 1 0 0 0 [] (mk_ram 0x80000000 0x1000 ∅))) [])).

(** ** Page walks as paths

    A walk is described without effects by the chain of page-table entries
    it loads and the entry it stops at; the two walkers of the unit differ
    only in the format of their tables. *)
Record pt_format := mk_pt_format {
  pf_vpn_bits : Z;
  pf_vpn_mask : Z;
  pf_pte_log : Z;
  pf_pte_bytes : nat;
  pf_phys_bits : Z;
  pf_next : Z -> Z;
  pf_cas_always : bool
}.

Definition sv32_format `{rvvm_build} : pt_format :=
  mk_pt_format SV32_VPN_BITS SV32_VPN_MASK 2 4 SV32_PHYS_BITS
    (fun pte => wrap XLEN (Z.shiftl (Z.shiftr pte 10) PAGE_SHIFT)) false.

Definition rv64_format `{rvvm_build} : pt_format :=
  mk_pt_format SV64_VPN_BITS SV64_VPN_MASK 3 8 SV64_PHYS_BITS
    (fun pte => Z.land (wrap XLEN (Z.shiftl (Z.shiftr pte 10) PAGE_SHIFT)) SV64_PHYS_MASK)
    true.

(** Where a walk stops: at a valid leaf entry (host offset, value, and the
    shift of its level), or nowhere. *)
Inductive pt_outcome :=
| PtLeaf (ptr pte bit_off : Z)
| PtFault.

(** The physical address of the entry a level selects. *)
Definition pte_address `{rvvm_build} (fmt : pt_format) (pagetable bit_off vaddr : Z) : Z :=
  wrap XLEN (pagetable +
             wrap XLEN (Z.shiftl (Z.land (Z.shiftr vaddr bit_off) (pf_vpn_mask fmt))
                                 (pf_pte_log fmt))).

(** The physical addresses of the entries loaded, in order, and the outcome. *)
Fixpoint pt_path `{rvvm_build} (fmt : pt_format) (vm : rvvm_hart_t) (iters : nat)
    (pagetable bit_off vaddr : Z) : list Z * pt_outcome :=
  match iters with
  | O => ([], PtFault)
  | S iters' =>
    let pte_pa := pte_address fmt pagetable bit_off vaddr in
    match riscv_phys_translate vm pte_pa with
    | None => ([], PtFault)
    | Some ptr =>
      let pte := read_le (ram_data (mem vm)) ptr (pf_pte_bytes fmt) in
      if Z.land pte MMU_VALID_PTE =? 0 then ([pte_pa], PtFault)
      else if negb (Z.land pte MMU_LEAF_PTE =? 0) then ([pte_pa], PtLeaf ptr pte bit_off)
      else if Z.land pte MMU_WRITE =? 0 then
        let (loads, o) :=
          pt_path fmt vm iters' (pf_next fmt pte)
                  (wrap BITCNT_BITS (bit_off - pf_vpn_bits fmt)) vaddr in
        (pte_pa :: loads, o)
      else ([pte_pa], PtFault)
    end
  end.

(** The entry with A set, and D set for a store. *)
Definition pte_with_flags (access pte : Z) : Z :=
  Z.lor (Z.lor pte MMU_PAGE_ACCESSED) (Z.shiftl (Z.land access MMU_WRITE) 5).

(** The leaf is aligned for its level: the PPN bits below the level are 0. *)
Definition leaf_aligned `{rvvm_build} (fmt : pt_format) (pte bit_off : Z) : bool :=
  Z.land (wrap XLEN (Z.shiftl pte 2))
         (Z.land (wrap XLEN (bit_mask bit_off))
                 (wrap XLEN (Z.shiftl (bit_mask (pf_phys_bits fmt - bit_off)) bit_off)))
  =? 0.

(** The leaf grants the access and is aligned. *)
Definition leaf_ok `{rvvm_build} (fmt : pt_format) (access pte bit_off : Z) : bool :=
  negb (Z.land pte access =? 0) && leaf_aligned fmt pte bit_off.

(** The physical address a leaf yields. *)
Definition leaf_paddr `{rvvm_build} (fmt : pt_format) (vaddr pte bit_off : Z) : Z :=
  Z.lor (Z.land (wrap XLEN (Z.shiftl pte 2))
                (wrap XLEN (Z.shiftl (bit_mask (pf_phys_bits fmt - bit_off)) bit_off)))
        (Z.land vaddr (wrap XLEN (bit_mask bit_off))).

(** The walk as a state transformer: log the loads; at a leaf that grants
    the access, store the flagged entry and yield the address. *)
Definition pt_run `{rvvm_build} (fmt : pt_format) (iters : nat)
    (pagetable bit_off vaddr access : Z) : M (option Z) :=
  fun w =>
    let (loads, o) := pt_path fmt (hart w) iters pagetable bit_off vaddr in
    let evs := events w ++ map EvPteLoad loads in
    match o with
    | PtLeaf ptr pte bit_off' =>
      if leaf_ok fmt access pte bit_off' then
        let vm' :=
          if pf_cas_always fmt || negb (pte =? pte_with_flags access pte)
          then set_ram_data (write_le (ram_data (mem (hart w))) ptr (pf_pte_bytes fmt)
                                      (pte_with_flags access pte)) (hart w)
          else hart w in
        (Some (leaf_paddr fmt vaddr pte bit_off'), mk_world vm' evs)
      else (None, mk_world (hart w) evs)
    | PtFault => (None, mk_world (hart w) evs)
    end.

(** ** What a walk may change *)

(** Two harts that agree on everything but the contents of the RAM. *)
Definition same_but_ram (vm vm' : rvvm_hart_t) : Prop :=
  priv_mode vm' = priv_mode vm /\ csr_status vm' = csr_status vm /\
  mmu_mode vm' = mmu_mode vm /\ root_page_table vm' = root_page_table vm /\
  tlb vm' = tlb vm /\
  ram_begin (mem vm') = ram_begin (mem vm) /\ ram_size (mem vm') = ram_size (mem vm).

(** The RAM reads the same at every offset. *)
Definition same_ram (d d' : gmap Z Z) : Prop :=
  forall off, ram_byte d' off = ram_byte d off.

(** The [n]-byte word at [ptr] holds a valid leaf entry. *)
Definition leaf_at (d : gmap Z Z) (ptr : Z) (n : nat) : Prop :=
  Z.land (read_le d ptr n) MMU_VALID_PTE <> 0 /\ Z.land (read_le d ptr n) MMU_LEAF_PTE <> 0.

(** [d'] is [d] but for the flags of the [n]-byte entry at [ptr]: A is set,
    D is set when bit 2 of [access] (the write bit) is, every other bit of
    the entry and every byte outside it is as before. *)
Definition pte_ad_update (access : Z) (d d' : gmap Z Z) (ptr : Z) (n : nat) : Prop :=
  (forall off, ~ (ptr <= off < ptr + Z.of_nat n) -> ram_byte d' off = ram_byte d off) /\
  (forall i, i <> 6 -> i <> 7 ->
             Z.testbit (read_le d' ptr n) i = Z.testbit (read_le d ptr n) i) /\
  Z.testbit (read_le d' ptr n) 6 = true /\
  Z.testbit (read_le d' ptr n) 7 = Z.testbit (read_le d ptr n) 7 || Z.testbit access 2.

(** The trap calls among the events. *)
Fixpoint traps (evs : list event) : list (Z * Z) :=
  match evs with
  | [] => []
  | EvTrap cause tval :: evs' => (cause, tval) :: traps evs'
  | _ :: evs' => traps evs'
  end.

(** The page-table loads among the events. *)
Fixpoint pte_loads (evs : list event) : list Z :=
  match evs with
  | [] => []
  | EvPteLoad pa :: evs' => pa :: pte_loads evs'
  | _ :: evs' => pte_loads evs'
  end.

(** ** Canonical addresses *)

(** The bits of a 64-bit [vaddr] from [bit] upwards all repeat bit [bit]:
    the address is the sign extension of its bits [bit..0]. *)
Definition sign_extended_from (vaddr bit : Z) : Prop :=
  forall i, bit <= i < 64 -> Z.testbit vaddr i = Z.testbit vaddr bit.

(** The Sv39 hart used to observe the first page-table load: a one-page RAM
    at 0x80000000 that holds the root table. *)
Definition sv39_world : world :=
  mk_world (mk_hart PRIVILEGE_SUPERVISOR 0 CSR_SATP_MODE_SV39 0x80000000 []
                    (mk_ram 0x80000000 0x1000 ∅)) [].

(** ** The Sv32 two-level scenario *)

(** The 32-bit word of guest memory at a physical address. *)
Definition phys_word32 (vm : rvvm_hart_t) (pa : Z) : option Z :=
  match riscv_phys_translate vm pa with
  | Some ptr => Some (read_le (ram_data (mem vm)) ptr 4)
  | None => None
  end.

(** The setting: root table at 0x80100000 with the entry 0x00080401 at index
    1, and the entry 0x0020044F at index 3 of the table at [table2]. *)
Definition sv32_scenario_setup (table2 : Z) (w : world) : Prop :=
  root_page_table (hart w) = 0x80100000
  /\ phys_word32 (hart w) (0x80100000 + 1 * 4) = Some 0x00080401
  /\ phys_word32 (hart w) (table2 + 3 * 4) = Some 0x0020044F.

(** The outcome: the store translation of 0x00403ABC yields 0x00801ABC and
    the leaf entry becomes 0x002004CF. *)
Definition sv32_scenario_outcome `{rvvm_build} (table2 : Z) (w : world) : Prop :=
  exists w', riscv_mmu_translate_sv32 0x00403ABC MMU_WRITE w = (Some 0x00801ABC, w')
             /\ phys_word32 (hart w') (table2 + 3 * 4) = Some 0x002004CF.

(** A machine for the scenario as the spec words it: RAM from 0x80000000,
    second-level table at 0x80200000. *)
Definition sv32_spec_world : world :=
  mk_world (mk_hart PRIVILEGE_SUPERVISOR 0 CSR_SATP_MODE_SV32 0x80100000 []
              (mk_ram 0x80000000 0x400000
                 (write_le (write_le ∅ 0x100004 4 0x00080401) 0x20000C 4 0x0020044F))) [].

(** A machine whose RAM starts at 0 and holds the second-level table where
    the entry 0x00080401 points, at 0x00201000. *)
Definition sv32_code_world : world :=
  mk_world (mk_hart PRIVILEGE_SUPERVISOR 0 CSR_SATP_MODE_SV32 0x80100000 []
              (mk_ram 0 0x80200000
                 (write_le (write_le ∅ 0x80100004 4 0x00080401) 0x20100C 4 0x0020044F))) [].

(** ** Effective privilege and access, in the words of the spec *)

(** [status.MPRV] (bit 17), [status.MXR] (bit 19), [status.MPP] (bits 11-12). *)
Definition status_mprv (vm : rvvm_hart_t) : bool := Z.testbit (csr_status vm) 17.
Definition status_mxr (vm : rvvm_hart_t) : bool := Z.testbit (csr_status vm) 19.
Definition status_mpp (vm : rvvm_hart_t) : Z := (csr_status vm / 2 ^ 11) mod 4.

(** The privilege at which an access is translated. *)
Definition effective_priv (vm : rvvm_hart_t) (access : Z) : Z :=
  if status_mprv vm && negb (access =? MMU_EXEC) then status_mpp vm else priv_mode vm.

(** The permission that is checked on the leaf. *)
Definition effective_access (vm : rvvm_hart_t) (access : Z) : Z :=
  if status_mxr vm && (access =? MMU_READ) then MMU_EXEC else access.

(** The level count of the RV64 modes. *)
Definition rv64_levels `{rvvm_build} (mode : Z) : option Z :=
  if negb (XLEN =? 64) then None
  else if mode =? CSR_SATP_MODE_SV39 then Some SV39_LEVELS
  else if mode =? CSR_SATP_MODE_SV48 then Some SV48_LEVELS
  else if mode =? CSR_SATP_MODE_SV57 then Some SV57_LEVELS
  else None.

(** The leaf of a path. *)
Definition path_leaf (p : list Z * pt_outcome) : option (Z * Z * Z) :=
  match snd p with
  | PtLeaf ptr pte bit_off => Some (ptr, pte, bit_off)
  | PtFault => None
  end.

(** The table format of the paging mode of the hart. *)
Definition page_format `{rvvm_build} (vm : rvvm_hart_t) : pt_format :=
  if mmu_mode vm =? CSR_SATP_MODE_SV32 then sv32_format else rv64_format.

(** The page that maps [vaddr] under the paging mode of the hart: the host
    offset, the value and the level shift of its leaf entry. *)
Definition page_leaf `{rvvm_build} (vm : rvvm_hart_t) (vaddr : Z) : option (Z * Z * Z) :=
  if mmu_mode vm =? CSR_SATP_MODE_PHYS then None
  else if mmu_mode vm =? CSR_SATP_MODE_SV32 then
    path_leaf
      (pt_path sv32_format vm (Z.to_nat SV32_LEVELS) (root_page_table vm)
               (wrap BITCNT_BITS (SV32_VPN_BITS + PAGE_SHIFT)) vaddr)
  else
    match rv64_levels (mmu_mode vm) with
    | Some sv_levels =>
      if vaddr =? wrap XLEN (sign_extend vaddr (rv64_bit_off sv_levels + SV64_VPN_BITS))
      then path_leaf
             (pt_path rv64_format vm (Z.to_nat sv_levels) (root_page_table vm)
                      (rv64_bit_off sv_levels) vaddr)
      else None
    | None => None
    end.

(** An Sv32 hart whose only page is a 4 MiB execute-only page at virtual
    address 0, with and without [status.MXR]. *)
Definition xonly_world (status : Z) : world :=
  mk_world (mk_hart PRIVILEGE_SUPERVISOR status CSR_SATP_MODE_SV32 0x80400000 []
              (mk_ram 0x80000000 0x401000 (write_le ∅ 0x400000 4 0x20000009))) [].

(** ** The dispatcher on one page *)

(** The branch of [riscv_mmu_op] for a range within one page. *)
Definition mmu_op_in_page `{rvvm_build} (addr : Z) (buf : list Z) (dest size access : Z)
  : M (option (bool * list Z)) :=
  fun w =>
    let (r, w1) := riscv_mmu_translate addr access w in
    match r with
    | Some paddr =>
      match riscv_phys_translate (hart w1) paddr with
      | Some ptr =>
        let w2 := snd (riscv_tlb_put addr paddr access w1) in
        if access =? MMU_WRITE then
          (Some (true, buf),
           mk_world (set_ram_data (memcpy_to_ram (ram_data (mem (hart w2))) ptr
                                                 (buf_bytes buf dest size)) (hart w2))
                    (events w2))
        else
          (Some (true, buf_store buf dest (ram_bytes (ram_data (mem (hart w2))) ptr size)), w2)
      | None =>
        let (cause, w2) := access_fault_cause access w1 in
        (Some (false, buf), mk_world (hart w2) (events w2 ++ [EvTrap cause addr]))
      end
    | None =>
      let (cause, w2) := page_fault_cause access w1 in
      (Some (false, buf), mk_world (hart w2) (events w2 ++ [EvTrap cause addr]))
    end.

(** ** What a refused operation may change *)

(** [d'] differs from [d] at most in the A and D bits of the [n]-byte entry
    at [ptr]. *)
Definition ad_bits_only (d d' : gmap Z Z) (ptr : Z) (n : nat) : Prop :=
  (forall off, ~ (ptr <= off < ptr + Z.of_nat n) -> ram_byte d' off = ram_byte d off)
  /\ (forall i, i <> 6 -> i <> 7 ->
                Z.testbit (read_le d' ptr n) i = Z.testbit (read_le d ptr n) i).

(** An Sv32 hart whose RAM is one 4 MiB page mapped at virtual address 0,
    followed by the root table; the next virtual page is not mapped. *)
Definition split_world : world :=
  mk_world (@riscv_tlb_flush rv32_build
              (mk_hart PRIVILEGE_SUPERVISOR 0 CSR_SATP_MODE_SV32 0x80400000 []
                 (mk_ram 0x80000000 0x401000 (write_le ∅ 0x400000 4 0x2000000F)))) [].

(** The claim on the split store as the spec words it, on that hart: an
    8-byte store at 0x003FFFFC is refused and the trap carries the address
    that was passed in. *)
Definition split_store_tval_claim : Prop :=
  exists buf w',
    @riscv_mmu_op rv32_build 0x003FFFFC [1; 2; 3; 4; 5; 6; 7; 8] 0 8 MMU_WRITE split_world
    = (Some (false, buf), w')
    /\ traps (events w') = [(TRAP_STORE_PAGEFAULT, 0x003FFFFC)].

(** The split store on that hart: eight bytes at 0x003FFFFC, four on each
    side of the boundary. *)
Definition split_addr : Z := 0x003FFFFC.
Definition split_buf : list Z := [1; 2; 3; 4; 5; 6; 7; 8].

(** The world after the first half of the split store. *)
Definition split_world_1 : world :=
  snd (@riscv_mmu_op rv32_build split_addr split_buf 0
         (PAGE_SIZE - Z.land split_addr PAGE_MASK) MMU_WRITE split_world).

(** ** MMIO reads *)

(** A device with a 4-byte operation window whose register file reads
    0xA0, 0xA1, ... from offset 0 on. *)
Definition word_dev : rvvm_mmio_dev_t unit :=
  mk_mmio_dev 4 4
    (fun _ size offset =>
       (map (fun i => 0xA0 + offset + Z.of_nat i) (seq 0 (Z.to_nat size)), tt)).

(** ** Scenarios of the spec *)

(** Bare mode in S-mode: RAM at 0x80000000 with the byte 0xAB at offset
    0x100. *)
Definition bare_world : world :=
  mk_world (@riscv_tlb_flush rv32_build
              (mk_hart PRIVILEGE_SUPERVISOR 0 CSR_SATP_MODE_PHYS 0 []
                 (mk_ram 0x80000000 0x1000 (<[0x100 := 0xAB]> ∅)))) [].

(** ** Further vocabulary *)

(** The slot of the TLB an address is cached in. *)
Definition tlb_slot `{rvvm_build} (vaddr : Z) : Z :=
  Z.land (Z.shiftr vaddr PAGE_SHIFT) TLB_MASK.

(** A 64-bit hart in bare mode after a full flush, with one page of RAM at
    0x80000000. *)
Definition flushed_world : world :=
  mk_world (@riscv_tlb_flush rv64_build
              (mk_hart PRIVILEGE_SUPERVISOR 0 CSR_SATP_MODE_PHYS 0 []
                 (mk_ram 0x80000000 0x1000 ∅))) [].

(** A hart with two pages of RAM, as [riscv_init_ram] makes them. *)
Definition two_page_hart : rvvm_hart_t :=
  mk_hart PRIVILEGE_SUPERVISOR 0 CSR_SATP_MODE_PHYS 0 [] (mk_ram 0x80000000 0x2000 ∅).

(** M-mode with paging configured and [status.MPRV] set. *)
Definition machine_world : world :=
  mk_world (mk_hart PRIVILEGE_MACHINE (Z.shiftl 1 17) CSR_SATP_MODE_SV32 0x80400000 []
              (mk_ram 0x80000000 0x401000 (write_le ∅ 0x400000 4 0x2000000F))) [].

(** A hart whose RAM has been released. *)
Definition freed_world : world :=
  mk_world (mk_hart PRIVILEGE_SUPERVISOR 0 CSR_SATP_MODE_PHYS 0 []
              (riscv_free_ram (mk_ram 0x80000000 0x1000 ∅))) [].

(** An Sv32 hart whose root entry 0 is a 4 MiB leaf with PPN[0] = 1. *)
Definition misaligned_world : world :=
  mk_world (mk_hart PRIVILEGE_SUPERVISOR 0 CSR_SATP_MODE_SV32 0x80400000 []
              (mk_ram 0x80000000 0x401000 (write_le ∅ 0x400000 4 0x2000040F))) [].

(** Two harts that agree on everything but the TLB. *)
Definition same_but_tlb (vm vm' : rvvm_hart_t) : Prop :=
  priv_mode vm' = priv_mode vm /\ csr_status vm' = csr_status vm /\
  mmu_mode vm' = mmu_mode vm /\ root_page_table vm' = root_page_table vm /\
  mem vm' = mem vm.

(** Two worlds that agree on everything but the TLB. *)
Definition tlb_related (w w' : world) : Prop :=
  same_but_tlb (hart w) (hart w') /\ events w' = events w.

(** * Verification *)

(** ** Machine-integer facts *)

Lemma wrap_range w x : 0 <= w -> 0 <= wrap w x < 2 ^ w.
Proof. intros Hw. unfold wrap. apply Z.mod_pos_bound. apply Z.pow_pos_nonneg; lia. Qed.

Lemma wrap_small w x : 0 <= x < 2 ^ w -> wrap w x = x.
Proof. intros Hx. unfold wrap. apply Z.mod_small. exact Hx. Qed.

Lemma wrap_pred_ne w x : 0 < w -> 0 <= x < 2 ^ w -> wrap w (x - 1) <> x.
Proof.
  intros Hw Hx. unfold wrap.
  assert (H2 : 2 <= 2 ^ w).
  { change 2 with (2 ^ 1) at 1. apply Z.pow_le_mono_r; lia. }
  destruct (Z.eq_dec x 0) as [-> | Hne].
  - replace (0 - 1) with (-1 + 1 * 2 ^ w - 2 ^ w + 0) by lia.
    replace (-1 + 1 * 2 ^ w - 2 ^ w + 0) with (2 ^ w - 1 + (-1) * 2 ^ w) by lia.
    rewrite Z.mod_add by lia. rewrite Z.mod_small by lia. lia.
  - rewrite Z.mod_small by lia. lia.
Qed.

Lemma land_tlb_mask `{rvvm_build} x :
  0 <= TLB_BITS -> Z.land x TLB_MASK = x mod TLB_SIZE.
Proof.
  intros Hb. unfold TLB_MASK, TLB_SIZE.
  replace (2 ^ TLB_BITS - 1) with (Z.ones TLB_BITS).
  - apply Z.land_ones. exact Hb.
  - rewrite Z.ones_equiv. lia.
Qed.

Lemma tlb_slot_range `{rvvm_build} x :
  0 <= TLB_BITS -> (Z.to_nat (Z.land x TLB_MASK) < Z.to_nat TLB_SIZE)%nat.
Proof.
  intros Hb. rewrite land_tlb_mask by exact Hb.
  assert (Hs : 0 < TLB_SIZE) by (unfold TLB_SIZE; apply Z.pow_pos_nonneg; lia).
  pose proof (Z.mod_pos_bound x TLB_SIZE Hs) as Hm.
  apply Z2Nat.inj_lt; lia.
Qed.

Lemma vpn_range w vaddr : 12 <= w -> 0 <= vaddr < 2 ^ w ->
  0 <= Z.shiftr vaddr PAGE_SHIFT < 2 ^ (w - 12).
Proof.
  intros Hw Hv. unfold PAGE_SHIFT. rewrite Z.shiftr_div_pow2 by lia.
  split.
  - apply Z.div_pos; lia.
  - apply Z.div_lt_upper_bound; [lia |].
    rewrite <- Z.pow_add_r by lia. replace (12 + (w - 12)) with w by lia. lia.
Qed.

(** ** TLB *)


Section Tlb.
Context `{rvvm_build}.

Lemma tlb_at_store_eq vm i e :
  (Z.to_nat i < length (tlb vm))%nat -> tlb_at (tlb_store i e vm) i = e.
Proof.
  intros Hi. unfold tlb_at, tlb_store, set_tlb. simpl.
  rewrite list_lookup_insert_eq by exact Hi. reflexivity.
Qed.

Lemma tlb_store_store vm i e1 e2 :
  tlb_store i e2 (tlb_store i e1 vm) = tlb_store i e2 vm.
Proof.
  unfold tlb_store, set_tlb. simpl. f_equal. apply list_insert_insert_eq.
Qed.

(** The TLB after a full flush: zeroed entries, slot 0 carrying [-1] tags. *)
Lemma riscv_tlb_flush_tlb vm :
  0 <= TLB_BITS ->
  tlb (riscv_tlb_flush vm) =
  <[0%nat := mk_tlb_entry (wrap XLEN (-1)) (wrap XLEN (-1)) (wrap XLEN (-1)) 0]>
    (replicate (Z.to_nat TLB_SIZE) tlb_zero).
Proof.
  intros Hb. unfold riscv_tlb_flush.
  assert (Hn : (0 < Z.to_nat TLB_SIZE)%nat).
  { assert (0 < TLB_SIZE) by (unfold TLB_SIZE; apply Z.pow_pos_nonneg; lia). lia. }
  set (vm0 := set_tlb (replicate (Z.to_nat TLB_SIZE) tlb_zero) vm).
  assert (Hlen : forall e, (Z.to_nat 0 < length (tlb (tlb_store 0 e vm0)))%nat).
  { intros e. unfold tlb_store, set_tlb, vm0. simpl.
    rewrite length_insert, length_replicate. exact Hn. }
  assert (Hlen0 : (Z.to_nat 0 < length (tlb vm0))%nat).
  { unfold vm0, set_tlb. simpl. rewrite length_replicate. exact Hn. }
  rewrite !tlb_at_store_eq by (try apply Hlen; exact Hlen0).
  rewrite !tlb_store_store. simpl.
  unfold tlb_at. simpl.
  destruct (Z.to_nat TLB_SIZE) as [| n]; [lia |]. reflexivity.
Qed.

Lemma riscv_tlb_flush_length vm :
  0 <= TLB_BITS -> length (tlb (riscv_tlb_flush vm)) = Z.to_nat TLB_SIZE.
Proof.
  intros Hb. rewrite riscv_tlb_flush_tlb by exact Hb.
  rewrite length_insert, length_replicate. reflexivity.
Qed.

(** C8.  After [riscv_tlb_flush] every lookup misses, whatever the address
    and the access class: slots other than 0 carry the tag 0, which no VPN
    mapped to them equals, and slot 0 carries the tag [-1], which no VPN
    equals. *)
Theorem riscv_tlb_flush_all_miss vm vaddr op :
  0 <= TLB_BITS -> 12 < XLEN -> 0 <= vaddr < 2 ^ XLEN ->
  riscv_tlb_lookup (riscv_tlb_flush vm) vaddr op = None.
Proof.
  intros Hb Hx Hv.
  assert (Hx' : 12 <= XLEN) by lia.
  pose proof (vpn_range XLEN vaddr Hx' Hv) as Hvpn.
  assert (Hpow : 2 * 2 ^ (XLEN - 12) <= 2 ^ XLEN).
  { replace (2 * 2 ^ (XLEN - 12)) with (2 ^ (1 + (XLEN - 12))).
    - apply Z.pow_le_mono_r; lia.
    - rewrite Z.pow_add_r by lia. reflexivity. }
  assert (Hpos : 0 < 2 ^ (XLEN - 12)) by (apply Z.pow_pos_nonneg; lia).
  assert (Hm1 : wrap XLEN (-1) = 2 ^ XLEN - 1).
  { unfold wrap. replace (-1) with (2 ^ XLEN - 1 + (-1) * 2 ^ XLEN) by lia.
    rewrite Z.mod_add by lia. apply Z.mod_small. lia. }
  unfold riscv_tlb_lookup, tlb_at.
  rewrite riscv_tlb_flush_tlb by exact Hb.
  set (vpn := Z.shiftr vaddr PAGE_SHIFT) in *.
  pose proof (tlb_slot_range vpn Hb) as Hslot.
  destruct (Z.to_nat (Z.land vpn TLB_MASK)) as [| k] eqn:Hk.
  - rewrite list_lookup_insert_eq by (rewrite length_replicate; exact Hslot).
    simpl. rewrite Hm1.
    assert (Hne : (2 ^ XLEN - 1 =? vpn) = false) by (apply Z.eqb_neq; lia).
    repeat (destruct (op =? _)); rewrite ?Hne; reflexivity.
  - rewrite list_lookup_insert_ne by lia.
    rewrite lookup_replicate_2 by exact Hslot. simpl.
    assert (Hne : (0 =? vpn) = false).
    { apply Z.eqb_neq. intros <-. rewrite Z.land_0_l in Hk. discriminate. }
    repeat (destruct (op =? _)); rewrite ?Hne; reflexivity.
Qed.

(** The hart after [riscv_tlb_put] into a slot whose page is backed by RAM. *)
Lemma riscv_tlb_put_hart w vaddr paddr op ptr :
  riscv_phys_translate (hart w) (Z.land paddr PAGE_PNMASK) = Some ptr ->
  let vpn := Z.shiftr vaddr PAGE_SHIFT in
  let i := Z.land vpn TLB_MASK in
  let entry := fst (tlb_put_tags (tlb_at (hart w) i) vpn op) in
  hart (snd (riscv_tlb_put vaddr paddr op w)) =
  tlb_store i (mk_tlb_entry (tlb_r entry) (tlb_w entry) (tlb_e entry)
                            (ptr - Z.land vaddr PAGE_PNMASK)) (hart w).
Proof.
  intros Hptr. unfold riscv_tlb_put, bind, get_hart. cbv zeta. rewrite Hptr.
  destruct (tlb_put_tags _ _ op) as [entry complained]. simpl.
  destruct complained; reflexivity.
Qed.

(** C7 (amended).  After [riscv_tlb_put] of [op] into a slot whose page is
    backed by RAM, a lookup of the same address for [op'] hits exactly when
    [op'] is implied by [op] or the slot already cached this page for
    [op'] before the put: the put never withdraws a class the page was
    cached for. *)
Theorem riscv_tlb_put_lookup w vaddr paddr op op' :
  0 <= TLB_BITS -> 0 < XLEN -> 0 <= vaddr < 2 ^ XLEN ->
  length (tlb (hart w)) = Z.to_nat TLB_SIZE ->
  is_access op -> is_access op' ->
  is_Some (riscv_phys_translate (hart w) (Z.land paddr PAGE_PNMASK)) ->
  tlb_hits (hart (snd (riscv_tlb_put vaddr paddr op w))) vaddr op' = true
  <-> (In op' (implied op) \/ tlb_hits (hart w) vaddr op' = true).
Proof.
  intros Hb Hx Hv Hlen Hop Hop' [ptr Hptr].
  rewrite (riscv_tlb_put_hart _ _ _ _ _ Hptr). cbv zeta.
  unfold tlb_hits, riscv_tlb_lookup.
  set (vpn := Z.shiftr vaddr PAGE_SHIFT).
  assert (Hvpn : 0 <= vpn < 2 ^ XLEN).
  { unfold vpn, PAGE_SHIFT. rewrite Z.shiftr_div_pow2 by lia. split.
    - apply Z.div_pos; lia.
    - apply Z.div_lt_upper_bound; [lia |].
      assert (0 < 2 ^ XLEN) by (apply Z.pow_pos_nonneg; lia). nia. }
  pose proof (wrap_pred_ne XLEN vpn Hx Hvpn) as Hpred.
  rewrite tlb_at_store_eq by (rewrite Hlen; apply tlb_slot_range; exact Hb).
  set (old := tlb_at (hart w) (Z.land vpn TLB_MASK)).
  assert (Hself : (vpn =? vpn) = true) by apply Z.eqb_refl.
  assert (Hmiss : (wrap XLEN (vpn - 1) =? vpn) = false) by (apply Z.eqb_neq; exact Hpred).
  destruct Hop as [-> | [-> | ->]]; destruct Hop' as [-> | [-> | ->]];
    unfold tlb_put_tags, implied; simpl;
    repeat match goal with
           | |- context [tlb_r old =? vpn] => destruct (tlb_r old =? vpn) eqn:?
           | |- context [tlb_w old =? vpn] => destruct (tlb_w old =? vpn) eqn:?
           | |- context [tlb_e old =? vpn] => destruct (tlb_e old =? vpn) eqn:?
           end; simpl;
    rewrite ?Hself, ?Hmiss;
    repeat match goal with
           | Heq : (?t =? vpn) = _ |- _ => rewrite ?Heq; clear Heq
           end;
    unfold MMU_READ, MMU_WRITE, MMU_EXEC;
    split; intros Hh; try (left; simpl; lia); try (now right); try reflexivity;
    try discriminate;
    try (destruct Hh as [Hin | Hh]; [simpl in Hin; lia | discriminate]).
Qed.

End Tlb.


(** C7 as stated fails: once the page is cached for stores, a put for a load
    of the same page leaves the store tag in place, and the lookup for a
    store hits although W is not implied by R. *)
Lemma riscv_tlb_put_lookup_not_iff :
  is_Some (riscv_phys_translate (hart tlb_store_cached_world) (Z.land 0x80000000 (@PAGE_PNMASK rv64_build)))
  /\ ~ @put_lookup_roundtrip rv64_build tlb_store_cached_world 0 0x80000000 MMU_READ MMU_WRITE.
Proof.
  split.
  - vm_compute. eexists. reflexivity.
  - unfold put_lookup_roundtrip. intros [Hhit _].
    assert (Hin : In MMU_WRITE (implied MMU_READ)) by (apply Hhit; vm_compute; reflexivity).
    vm_compute in Hin. destruct Hin as [Hin | []]. discriminate.
Qed.

Lemma riscv_tlb_put_lookup_witness :
  @tlb_hits rv64_build (hart (snd (@riscv_tlb_put rv64_build 0 0x80000000 MMU_READ tlb_store_cached_world)))
           0 MMU_WRITE = true
  <-> (In MMU_WRITE (implied MMU_READ) \/ @tlb_hits rv64_build (hart tlb_store_cached_world) 0 MMU_WRITE = true).
Proof.
  apply (@riscv_tlb_put_lookup rv64_build).
  - simpl; lia.
  - simpl; lia.
  - simpl; lia.
  - vm_compute; reflexivity.
  - left; reflexivity.
  - right; left; reflexivity.
  - vm_compute. eexists. reflexivity.
Defined.

Lemma riscv_tlb_flush_all_miss_witness :
  @riscv_tlb_lookup rv64_build
     (@riscv_tlb_flush rv64_build (mk_hart 1 0 8 0x80000000 [] (mk_ram 0x80000000 0x1000 ∅)))
     0 MMU_READ = None.
Proof.
  apply (@riscv_tlb_flush_all_miss rv64_build); simpl; lia.
Defined.

(** ** Little-endian words in the host buffer *)

Arguments read_le : simpl never.
Arguments write_le : simpl never.

Lemma ram_byte_range d off : 0 <= ram_byte d off < 256.
Proof. unfold ram_byte. apply (wrap_range 8). lia. Qed.

Lemma ram_byte_insert_eq d off v : ram_byte (<[off := v]> d) off = wrap 8 v.
Proof. unfold ram_byte. rewrite lookup_insert_eq. reflexivity. Qed.

Lemma ram_byte_insert_ne d off off' v :
  off <> off' -> ram_byte (<[off := v]> d) off' = ram_byte d off'.
Proof. intros Hne. unfold ram_byte. rewrite lookup_insert_ne by exact Hne. reflexivity. Qed.

Lemma read_le_range d off n : 0 <= read_le d off n < 256 ^ Z.of_nat n.
Proof.
  revert off. induction n as [| n IH]; intros off.
  - change (read_le d off 0) with 0. simpl. lia.
  - change (read_le d off (S n)) with (ram_byte d off + 256 * read_le d (off + 1) n).
    rewrite Nat2Z.inj_succ, Z.pow_succ_r by lia.
    pose proof (ram_byte_range d off). pose proof (IH (off + 1)). lia.
Qed.

Lemma write_le_other d off n v off' :
  ~ (off <= off' < off + Z.of_nat n) ->
  ram_byte (write_le d off n v) off' = ram_byte d off'.
Proof.
  revert d off v. induction n as [| n IH]; intros d off v Hout.
  - reflexivity.
  - change (write_le d off (S n) v) with (write_le (<[off := v mod 256]> d) (off + 1) n (v / 256)).
    rewrite IH by lia. apply ram_byte_insert_ne. lia.
Qed.

Lemma read_write_le d off n v :
  read_le (write_le d off n v) off n = v mod 256 ^ Z.of_nat n.
Proof.
  revert d off v. induction n as [| n IH]; intros d off v.
  - change (read_le (write_le d off 0 v) off 0) with 0. simpl. rewrite Z.mod_1_r. reflexivity.
  - change (read_le (write_le d off (S n) v) off (S n))
      with (ram_byte (write_le (<[off := v mod 256]> d) (off + 1) n (v / 256)) off
            + 256 * read_le (write_le (<[off := v mod 256]> d) (off + 1) n (v / 256))
                            (off + 1) n).
    rewrite IH, write_le_other by lia.
    rewrite ram_byte_insert_eq. unfold wrap. change (2 ^ 8) with 256.
    rewrite Z.mod_mod by lia.
    rewrite Nat2Z.inj_succ, Z.pow_succ_r by lia.
    symmetry. apply Z.rem_mul_r; [lia |]. apply Z.pow_pos_nonneg; lia.
Qed.

Lemma read_le_ext d1 d2 off n :
  (forall o, off <= o < off + Z.of_nat n -> ram_byte d1 o = ram_byte d2 o) ->
  read_le d1 off n = read_le d2 off n.
Proof.
  revert off. induction n as [| n IH]; intros off Hsame.
  - reflexivity.
  - change (read_le d1 off (S n)) with (ram_byte d1 off + 256 * read_le d1 (off + 1) n).
    change (read_le d2 off (S n)) with (ram_byte d2 off + 256 * read_le d2 (off + 1) n).
    rewrite (Hsame off) by lia. rewrite (IH (off + 1)); [reflexivity |].
    intros o Ho. apply Hsame. lia.
Qed.

(** [memcpy] into the RAM and back. *)
Lemma memcpy_to_ram_other d ptr src off :
  ~ (ptr <= off < ptr + Z.of_nat (length src)) ->
  ram_byte (memcpy_to_ram d ptr src) off = ram_byte d off.
Proof.
  revert d ptr. induction src as [| b src IH]; intros d ptr Hout.
  - reflexivity.
  - simpl in *. rewrite IH by lia. apply ram_byte_insert_ne. lia.
Qed.

Lemma memcpy_to_ram_byte d ptr src i :
  (i < length src)%nat ->
  ram_byte (memcpy_to_ram d ptr src) (ptr + Z.of_nat i) = wrap 8 (nth i src 0).
Proof.
  revert d ptr i. induction src as [| b src IH]; intros d ptr i Hi.
  - simpl in Hi. lia.
  - destruct i as [| i].
    + simpl memcpy_to_ram. simpl nth.
      replace (ptr + Z.of_nat 0) with ptr by lia.
      rewrite memcpy_to_ram_other by lia. apply ram_byte_insert_eq.
    + simpl memcpy_to_ram. simpl nth.
      replace (ptr + Z.of_nat (S i)) with (ptr + 1 + Z.of_nat i) by lia.
      apply IH. simpl in Hi. lia.
Qed.

(** ** The walkers follow the path *)

Section Walk.
Context `{rvvm_build}.

Lemma world_eta w : mk_world (hart w) (events w) = w.
Proof. destruct w. reflexivity. Qed.

Lemma sv32_walk_run iters pagetable bit_off vaddr access w :
  sv32_walk iters pagetable bit_off vaddr access w
  = pt_run sv32_format iters pagetable bit_off vaddr access w.
Proof.
  revert pagetable bit_off w. induction iters as [| iters IH]; intros pagetable bit_off w.
  - unfold pt_run. simpl. unfold ret. rewrite app_nil_r, world_eta. reflexivity.
  - unfold pt_run. simpl pt_path. unfold pte_address. simpl sv32_walk.
    unfold bind at 1. unfold get_hart at 1.
    destruct (riscv_phys_translate (hart w) _) as [ptr |] eqn:Hptr.
    2:{ unfold ret. simpl. rewrite app_nil_r, world_eta. reflexivity. }
    unfold bind at 1. unfold read_pte, bind, emit, get_hart, ret. simpl.
    set (pte := read_le (ram_data (mem (hart w))) ptr 4).
    destruct (Z.land pte MMU_VALID_PTE =? 0) eqn:Hv; simpl; [reflexivity |].
    destruct (Z.land pte MMU_LEAF_PTE =? 0) eqn:Hl; simpl.
    + destruct (Z.land pte MMU_WRITE =? 0) eqn:Hw; [| reflexivity].
      rewrite IH. unfold pt_run. simpl hart. simpl events.
      destruct (pt_path sv32_format (hart w) iters _ _ vaddr) as [loads o].
      rewrite <- app_assoc. reflexivity.
    + unfold leaf_ok, leaf_aligned, leaf_paddr, pte_with_flags. simpl.
      destruct (Z.land pte access =? 0) eqn:Ha; simpl; [reflexivity |].
      destruct (Z.land _ (Z.land _ _) =? 0) eqn:Hal; simpl; [| reflexivity].
      destruct (pte =? _) eqn:Hsame; simpl; [reflexivity |].
      unfold atomic_cas_le, bind, get_hart, put_hart, ret. simpl.
      fold pte. rewrite Z.eqb_refl. reflexivity.
Qed.

Lemma rv64_walk_run iters pagetable bit_off vaddr access w :
  rv64_walk iters pagetable bit_off vaddr access w
  = pt_run rv64_format iters pagetable bit_off vaddr access w.
Proof.
  revert pagetable bit_off w. induction iters as [| iters IH]; intros pagetable bit_off w.
  - unfold pt_run. simpl. unfold ret. rewrite app_nil_r, world_eta. reflexivity.
  - unfold pt_run. simpl pt_path. unfold pte_address. simpl rv64_walk.
    unfold bind at 1. unfold get_hart at 1.
    destruct (riscv_phys_translate (hart w) _) as [ptr |] eqn:Hptr.
    2:{ unfold ret. simpl. rewrite app_nil_r, world_eta. reflexivity. }
    unfold bind at 1. unfold read_pte, bind, emit, get_hart, ret. simpl.
    set (pte := read_le (ram_data (mem (hart w))) ptr 8).
    destruct (Z.land pte MMU_VALID_PTE =? 0) eqn:Hv; simpl; [reflexivity |].
    destruct (Z.land pte MMU_LEAF_PTE =? 0) eqn:Hl; simpl.
    + destruct (Z.land pte MMU_WRITE =? 0) eqn:Hw; [| reflexivity].
      rewrite IH. unfold pt_run. simpl hart. simpl events.
      destruct (pt_path rv64_format (hart w) iters _ _ vaddr) as [loads o].
      rewrite <- app_assoc. reflexivity.
    + unfold leaf_ok, leaf_aligned, leaf_paddr, pte_with_flags. simpl.
      destruct (Z.land pte access =? 0) eqn:Ha; simpl; [reflexivity |].
      destruct (Z.land _ (Z.land _ _) =? 0) eqn:Hal; simpl; [| reflexivity].
      unfold atomic_cas_le, bind, get_hart, put_hart, ret. simpl.
      fold pte. rewrite Z.eqb_refl. reflexivity.
Qed.

End Walk.

(** ** Effects of a walk *)

Lemma pte_with_flags_bits access pte i :
  Z.testbit (pte_with_flags access pte) i
  = Z.testbit pte i || (i =? 6) || ((i =? 7) && Z.testbit access 2).
Proof.
  unfold pte_with_flags, MMU_PAGE_ACCESSED, MMU_WRITE.
  destruct (Z.ltb_spec i 0) as [Hneg | Hpos].
  - rewrite !Z.testbit_neg_r by exact Hneg.
    replace (i =? 6) with false by (symmetry; apply Z.eqb_neq; lia).
    replace (i =? 7) with false by (symmetry; apply Z.eqb_neq; lia).
    reflexivity.
  - rewrite !Z.lor_spec, Z.shiftl_spec, Z.land_spec by exact Hpos.
    change 64 with (2 ^ 6). change 4 with (2 ^ 2).
    rewrite !Z.pow2_bits_eqb by lia.
    rewrite (Z.eqb_sym 6 i).
    destruct (Z.eqb_spec i 7) as [-> | Hne].
    + simpl. rewrite andb_true_r. reflexivity.
    + replace (2 =? i - 5) with false by (symmetry; apply Z.eqb_neq; lia).
      rewrite andb_false_r. reflexivity.
Qed.

Lemma read_le_high_bits d ptr n i :
  8 * Z.of_nat n <= i -> Z.testbit (read_le d ptr n) i = false.
Proof.
  intros Hi. pose proof (read_le_range d ptr n) as Hr.
  replace (256 ^ Z.of_nat n) with (2 ^ (8 * Z.of_nat n)) in Hr
    by (rewrite Z.pow_mul_r by lia; reflexivity).
  rewrite <- (Z.mod_small _ _ Hr). apply Z.mod_pow2_bits_high. lia.
Qed.

(** Storing the flagged entry changes the flags and nothing else. *)
Lemma leaf_store_ad access d ptr n (c : bool) :
  (1 <= n)%nat ->
  (c = false -> read_le d ptr n = pte_with_flags access (read_le d ptr n)) ->
  pte_ad_update access d
    (if c then write_le d ptr n (pte_with_flags access (read_le d ptr n)) else d) ptr n.
Proof.
  intros Hn Hc. set (pte := read_le d ptr n) in *.
  assert (Hnew : forall i,
    Z.testbit (read_le (if c then write_le d ptr n (pte_with_flags access pte) else d) ptr n) i
    = Z.testbit pte i || (i =? 6) || ((i =? 7) && Z.testbit access 2)).
  { intros i. destruct c.
    - rewrite read_write_le.
      replace (256 ^ Z.of_nat n) with (2 ^ (8 * Z.of_nat n))
        by (rewrite Z.pow_mul_r by lia; reflexivity).
      destruct (Z.ltb_spec i (8 * Z.of_nat n)) as [Hlo | Hhi].
      + destruct (Z.ltb_spec i 0) as [Hneg | Hpos].
        * rewrite !Z.testbit_neg_r by exact Hneg.
          replace (i =? 6) with false by (symmetry; apply Z.eqb_neq; lia).
          replace (i =? 7) with false by (symmetry; apply Z.eqb_neq; lia).
          reflexivity.
        * rewrite Z.mod_pow2_bits_low by lia. apply pte_with_flags_bits.
      + rewrite Z.mod_pow2_bits_high by lia.
        unfold pte. rewrite read_le_high_bits by exact Hhi.
        replace (i =? 6) with false by (symmetry; apply Z.eqb_neq; lia).
        replace (i =? 7) with false by (symmetry; apply Z.eqb_neq; lia).
        reflexivity.
    - fold pte. rewrite (Hc eq_refl) at 1. apply pte_with_flags_bits. }
  unfold pte_ad_update. repeat split.
  - intros off Hout. destruct c; [| reflexivity]. apply write_le_other. exact Hout.
  - intros i H6 H7. rewrite Hnew.
    replace (i =? 6) with false by (symmetry; apply Z.eqb_neq; lia).
    replace (i =? 7) with false by (symmetry; apply Z.eqb_neq; lia).
    rewrite !orb_false_r. reflexivity.
  - rewrite Hnew. change (6 =? 6) with true. rewrite orb_true_r. reflexivity.
  - rewrite Hnew. change (7 =? 6) with false. change (7 =? 7) with true.
    rewrite orb_false_r. reflexivity.
Qed.

Section WalkEffects.
Context `{rvvm_build}.

(** A path that ends at a leaf ends at a valid leaf entry of the RAM, the
    last one loaded. *)
Lemma pt_path_leaf fmt vm iters pagetable bit_off vaddr loads ptr pte bit_off' :
  pt_path fmt vm iters pagetable bit_off vaddr = (loads, PtLeaf ptr pte bit_off') ->
  pte = read_le (ram_data (mem vm)) ptr (pf_pte_bytes fmt)
  /\ leaf_at (ram_data (mem vm)) ptr (pf_pte_bytes fmt)
  /\ exists pa, last loads = Some pa /\ riscv_phys_translate vm pa = Some ptr.
Proof.
  revert pagetable bit_off loads.
  induction iters as [| iters IH]; intros pagetable bit_off loads Hpath.
  - simpl in Hpath. discriminate.
  - simpl in Hpath.
    destruct (riscv_phys_translate vm _) as [p |] eqn:Hp; [| discriminate].
    destruct (Z.land _ MMU_VALID_PTE =? 0) eqn:Hv; [discriminate |].
    destruct (Z.land _ MMU_LEAF_PTE =? 0) eqn:Hl; simpl in Hpath.
    + destruct (Z.land _ MMU_WRITE =? 0) eqn:Hw; [| discriminate].
      destruct (pt_path fmt vm iters _ _ vaddr) as [loads' o] eqn:Hrec.
      injection Hpath as <- ->.
      destruct (IH _ _ _ Hrec) as (Hpte & Hleaf & pa & Hlast & Hpa).
      split; [exact Hpte |]. split; [exact Hleaf |].
      exists pa. split; [| exact Hpa].
      destruct loads' as [| x loads']; [discriminate |]. exact Hlast.
    + injection Hpath as <- <- <- <-.
      split; [reflexivity |]. split.
      * split; apply Z.eqb_neq; assumption.
      * eexists. split; [reflexivity | exact Hp].
Qed.

(** What a walk does to the world. *)
Lemma pt_run_effect fmt iters pagetable bit_off vaddr access w r w' :
  (1 <= pf_pte_bytes fmt)%nat ->
  pt_run fmt iters pagetable bit_off vaddr access w = (r, w') ->
  same_but_ram (hart w) (hart w')
  /\ (exists loads, events w' = events w ++ map EvPteLoad loads)
  /\ match r with
     | None => hart w' = hart w
     | Some pa =>
       exists pte_pa ptr,
         riscv_phys_translate (hart w) pte_pa = Some ptr
         /\ leaf_at (ram_data (mem (hart w))) ptr (pf_pte_bytes fmt)
         /\ pte_ad_update access (ram_data (mem (hart w)))
                          (ram_data (mem (hart w'))) ptr (pf_pte_bytes fmt)
     end.
Proof.
  intros Hn. unfold pt_run.
  destruct (pt_path fmt (hart w) iters pagetable bit_off vaddr) as [loads o] eqn:Hpath.
  assert (Hrefl : same_but_ram (hart w) (hart w)) by (repeat split).
  destruct o as [ptr pte bo |].
  - destruct (pt_path_leaf _ _ _ _ _ _ _ _ _ _ Hpath)
      as (Hpte & Hleaf & pte_pa & _ & Hpa).
    destruct (leaf_ok fmt access pte bo).
    + intros Hrun. injection Hrun as <- <-. simpl.
      split; [| split; [eexists; reflexivity |]].
      * destruct (pf_cas_always fmt || _); [repeat split | exact Hrefl].
      * exists pte_pa, ptr. split; [exact Hpa |]. split; [exact Hleaf |]. subst pte.
        set (c := pf_cas_always fmt || _).
        replace (ram_data (mem (if c then _ else hart w)))
          with (if c then write_le (ram_data (mem (hart w))) ptr (pf_pte_bytes fmt)
                            (pte_with_flags access
                               (read_le (ram_data (mem (hart w))) ptr (pf_pte_bytes fmt)))
                else ram_data (mem (hart w)))
          by (destruct c; reflexivity).
        apply leaf_store_ad; [exact Hn |].
        intros Hc. unfold c in Hc. apply orb_false_iff in Hc as [_ Hc].
        apply negb_false_iff, Z.eqb_eq in Hc. exact Hc.
    + intros Hrun. injection Hrun as <- <-. simpl.
      split; [exact Hrefl |]. split; [eexists; reflexivity | reflexivity].
  - intros Hrun. injection Hrun as <- <-. simpl.
    split; [exact Hrefl |]. split; [eexists; reflexivity | reflexivity].
Qed.

End WalkEffects.

(** ** The two entry points *)

Section Entry.
Context `{rvvm_build}.

Lemma riscv_mmu_translate_sv32_run vaddr access w :
  riscv_mmu_translate_sv32 vaddr access w
  = pt_run sv32_format (Z.to_nat SV32_LEVELS) (root_page_table (hart w))
           (wrap BITCNT_BITS (SV32_VPN_BITS + PAGE_SHIFT)) vaddr access w.
Proof.
  unfold riscv_mmu_translate_sv32, bind, get_hart. apply sv32_walk_run.
Qed.

Lemma riscv_mmu_translate_rv64_run vaddr access sv_levels w :
  riscv_mmu_translate_rv64 vaddr access sv_levels w
  = if vaddr =? wrap XLEN (sign_extend vaddr (rv64_bit_off sv_levels + SV64_VPN_BITS))
    then pt_run rv64_format (Z.to_nat sv_levels) (root_page_table (hart w))
                (rv64_bit_off sv_levels) vaddr access w
    else (None, w).
Proof.
  unfold riscv_mmu_translate_rv64, bind, get_hart.
  destruct (vaddr =? _); simpl; [apply rv64_walk_run | reflexivity].
Qed.

(** C5.  A successful walk, by either walker, leaves the hart as it was but
    for one page-table entry of the RAM, a valid leaf: its A bit is set, its
    D bit is set by a store and kept by a load or a fetch, its other bits
    (V, R, W, X, U, G, PPN) and every byte outside the entry are unchanged. *)
Theorem walk_updates_only_ad w vaddr access pa w' :
  is_access access ->
  (riscv_mmu_translate_sv32 vaddr access w = (Some pa, w')
   \/ exists sv_levels, riscv_mmu_translate_rv64 vaddr access sv_levels w = (Some pa, w')) ->
  same_but_ram (hart w) (hart w')
  /\ exists pte_pa ptr n,
       let d := ram_data (mem (hart w)) in
       let d' := ram_data (mem (hart w')) in
       (n = 4%nat \/ n = 8%nat)
       /\ riscv_phys_translate (hart w) pte_pa = Some ptr
       /\ leaf_at d ptr n
       /\ (forall off, ~ (ptr <= off < ptr + Z.of_nat n) -> ram_byte d' off = ram_byte d off)
       /\ (forall i, i <> 6 -> i <> 7 ->
                     Z.testbit (read_le d' ptr n) i = Z.testbit (read_le d ptr n) i)
       /\ Z.testbit (read_le d' ptr n) 6 = true
       /\ (access = MMU_WRITE -> Z.testbit (read_le d' ptr n) 7 = true)
       /\ (access = MMU_READ \/ access = MMU_EXEC ->
           Z.testbit (read_le d' ptr n) 7 = Z.testbit (read_le d ptr n) 7).
Proof.
  intros Hacc Hwalk.
  assert (Hrun : exists fmt iters pagetable bit_off,
             (pf_pte_bytes fmt = 4%nat \/ pf_pte_bytes fmt = 8%nat)
             /\ pt_run fmt iters pagetable bit_off vaddr access w = (Some pa, w')).
  { destruct Hwalk as [H32 | [sv_levels H64]].
    - rewrite riscv_mmu_translate_sv32_run in H32.
      exists sv32_format. do 3 eexists. split; [| exact H32]. left; reflexivity.
    - rewrite riscv_mmu_translate_rv64_run in H64.
      destruct (vaddr =? _); [| discriminate].
      exists rv64_format. do 3 eexists. split; [| exact H64]. right; reflexivity. }
  destruct Hrun as (fmt & iters & pagetable & bit_off & Hn & Hrun).
  assert (Hn' : (1 <= pf_pte_bytes fmt)%nat) by lia.
  destruct (pt_run_effect _ _ _ _ _ _ _ _ _ Hn' Hrun)
    as (Hsame & _ & pte_pa & ptr & Hpa & Hleaf & Hupd).
  split; [exact Hsame |].
  exists pte_pa, ptr, (pf_pte_bytes fmt). cbv zeta.
  destruct Hupd as (Hout & Hbits & H6 & H7).
  split; [exact Hn |]. split; [exact Hpa |]. split; [exact Hleaf |]. split; [exact Hout |]. split; [exact Hbits |].
  split; [exact H6 |]. split.
  - intros ->. rewrite H7. apply orb_true_r.
  - intros [-> | ->]; rewrite H7; apply orb_false_r.
Qed.

End Entry.

(** ** The RV64 walker: initial shift and canonical addresses *)

(** Bits of an address below [2 ^ bit], and of one in the top [2 ^ bit]. *)
Lemma low_address_sign_extended vaddr bit :
  0 <= bit -> 0 <= vaddr < 2 ^ bit -> sign_extended_from vaddr bit.
Proof.
  intros Hb Hv i Hi.
  rewrite <- (Z.mod_small vaddr (2 ^ bit)) by exact Hv.
  rewrite !Z.mod_pow2_bits_high by lia. reflexivity.
Qed.

Lemma high_address_sign_extended vaddr bit :
  0 <= bit < 64 -> 2 ^ 64 - 2 ^ bit <= vaddr < 2 ^ 64 -> sign_extended_from vaddr bit.
Proof.
  intros Hb Hv.
  assert (Hpow : 0 < 2 ^ bit) by (apply Z.pow_pos_nonneg; lia).
  assert (Hle : 2 ^ bit <= 2 ^ 64) by (apply Z.pow_le_mono_r; lia).
  set (v' := 2 ^ 64 - 1 - vaddr).
  assert (Hv' : 0 <= v' < 2 ^ bit) by (unfold v'; lia).
  assert (Hone : forall i, bit <= i < 64 -> Z.testbit vaddr i = true).
  { intros i Hi.
    assert (Heq : vaddr = Z.lnot v' mod 2 ^ 64).
    { unfold Z.lnot, Z.pred. replace (- v' + -1) with (vaddr + (-1) * 2 ^ 64) by (unfold v'; lia).
      rewrite Z.mod_add by lia. symmetry. apply Z.mod_small. lia. }
    rewrite Heq, Z.mod_pow2_bits_low, Z.lnot_spec by lia.
    rewrite <- (Z.mod_small v' (2 ^ bit)) by exact Hv'.
    rewrite Z.mod_pow2_bits_high by lia. reflexivity. }
  intros i Hi. rewrite (Hone i Hi), (Hone bit) by lia. reflexivity.
Qed.

Lemma not_sign_extended_range vaddr bit :
  0 <= bit < 64 -> 0 <= vaddr < 2 ^ 64 -> ~ sign_extended_from vaddr bit ->
  2 ^ bit <= vaddr < 2 ^ 64 - 2 ^ bit.
Proof.
  intros Hb Hv Hnot.
  destruct (Z_lt_dec vaddr (2 ^ bit)) as [Hlo | Hlo].
  - exfalso. apply Hnot. apply low_address_sign_extended; lia.
  - destruct (Z_le_dec (2 ^ 64 - 2 ^ bit) vaddr) as [Hhi | Hhi].
    + exfalso. apply Hnot. apply high_address_sign_extended; lia.
    + lia.
Qed.

(** With a [bitcnt_t] of 8 to 12 bits the [PAGE_SIZE] summand of the initial
    shift wraps away. *)
Lemma rv64_bit_off_narrow `{rvvm_build} sv_levels :
  8 <= BITCNT_BITS <= 12 -> 3 <= sv_levels <= 5 ->
  rv64_bit_off sv_levels = sv_levels * 9 - 9.
Proof.
  intros Hw HL. unfold rv64_bit_off, wrap, SV64_VPN_BITS, PAGE_SIZE.
  assert (Hcases : BITCNT_BITS = 8 \/ BITCNT_BITS = 9 \/ BITCNT_BITS = 10
                   \/ BITCNT_BITS = 11 \/ BITCNT_BITS = 12) by lia.
  assert (HLs : sv_levels = 3 \/ sv_levels = 4 \/ sv_levels = 5) by lia.
  destruct Hcases as [-> | [-> | [-> | [-> | ->]]]];
    destruct HLs as [-> | [-> | ->]]; reflexivity.
Qed.

(** The check of [riscv_mmu_translate_rv64] on an address that lies outside
    both canonical halves for [bits] translated bits. *)
Lemma sign_extend_check_fails `{rvvm_build} vaddr bits :
  XLEN = 64 -> bits = 27 \/ bits = 36 \/ bits = 45 ->
  2 ^ (bits - 1) <= vaddr < 2 ^ 64 - 2 ^ (bits - 1) ->
  (vaddr =? wrap XLEN (sign_extend vaddr bits)) = false.
Proof.
  intros Hx Hbits Hv. apply Z.eqb_neq. unfold sign_extend, to_signed, wrap.
  rewrite Hx.
  destruct Hbits as [-> | [-> | ->]];
    rewrite Z.shiftl_mul_pow2, Z.shiftr_div_pow2 by lia;
    repeat match goal with
           | |- context [2 ^ ?e] =>
             let v := eval vm_compute in (2 ^ e) in change (2 ^ e) with v
           | Hr : context [2 ^ ?e] |- _ =>
             let v := eval vm_compute in (2 ^ e) in change (2 ^ e) with v in Hr
           end;
    match goal with
    | |- context [?x <? ?y] => destruct (Z.ltb_spec x y)
    end;
    Z.div_mod_to_equations; lia.
Qed.

(** C2.  In Sv39, Sv48 and Sv57 an address whose high bits are not the sign
    extension of bit 38, 47 and 56 is refused, and the world (the RAM and
    the record of page-table loads with it) is untouched: no entry has been
    read.  [bitcnt_t] is at most 12 bits wide, the widths at which the
    shift counts of the walker are below 64. *)
Theorem rv64_noncanonical_faults `{rvvm_build} sv_levels vaddr access w :
  XLEN = 64 -> 8 <= BITCNT_BITS <= 12 ->
  sv_levels = SV39_LEVELS \/ sv_levels = SV48_LEVELS \/ sv_levels = SV57_LEVELS ->
  0 <= vaddr < 2 ^ 64 ->
  ~ sign_extended_from vaddr (sv_levels * SV64_VPN_BITS + PAGE_SHIFT - 1) ->
  riscv_mmu_translate_rv64 vaddr access sv_levels w = (None, w).
Proof.
  intros Hx Hw HL Hv Hnot.
  assert (HL' : 3 <= sv_levels <= 5)
    by (unfold SV39_LEVELS, SV48_LEVELS, SV57_LEVELS in HL; lia).
  apply not_sign_extended_range in Hnot;
    [| unfold SV64_VPN_BITS, PAGE_SHIFT; lia | exact Hv].
  rewrite riscv_mmu_translate_rv64_run.
  rewrite rv64_bit_off_narrow by assumption.
  rewrite sign_extend_check_fails; [reflexivity | exact Hx | |].
  - unfold SV39_LEVELS, SV48_LEVELS, SV57_LEVELS, SV64_VPN_BITS in *. lia.
  - unfold SV39_LEVELS, SV48_LEVELS, SV57_LEVELS, SV64_VPN_BITS, PAGE_SHIFT in *.
    destruct HL as [-> | [-> | ->]]; simpl Z.sub in *; simpl Z.add in *; lia.
Qed.

Lemma rv64_noncanonical_faults_witness :
  @riscv_mmu_translate_rv64 rv64_build 0x8000000000 MMU_READ SV39_LEVELS sv39_world
  = (None, sv39_world).
Proof.
  apply (@rv64_noncanonical_faults rv64_build).
  - reflexivity.
  - simpl; lia.
  - left; reflexivity.
  - lia.
  - intros Hext. specialize (Hext 39 ltac:(unfold SV39_LEVELS, SV64_VPN_BITS, PAGE_SHIFT; lia)).
    vm_compute in Hext. discriminate.
Defined.

(** Whatever the width of [bitcnt_t], the initial shift is not the one of
    the privileged architecture: it differs from it by a multiple of
    [2 ^ BITCNT_BITS] that would have to be 4084. *)
Lemma rv64_bit_off_never_spec `{rvvm_build} sv_levels :
  0 <= BITCNT_BITS -> 3 <= sv_levels <= 5 ->
  rv64_bit_off sv_levels <> sv_levels * SV64_VPN_BITS + PAGE_SHIFT - SV64_VPN_BITS.
Proof.
  intros Hw HL. unfold rv64_bit_off, wrap, SV64_VPN_BITS, PAGE_SIZE, PAGE_SHIFT.
  set (x := sv_levels * 9 + 4096 - 9).
  assert (Hpos : 0 < 2 ^ BITCNT_BITS) by (apply Z.pow_pos_nonneg; lia).
  assert (Hnz : 2 ^ BITCNT_BITS <> 0) by lia.
  pose proof (Z.div_mod x (2 ^ BITCNT_BITS) Hnz) as Hdm.
  pose proof (Z.mod_pos_bound x (2 ^ BITCNT_BITS) Hpos) as Hb.
  intros Heq.
  destruct (Z_lt_dec BITCNT_BITS 3) as [Hsmall | Hbig].
  - assert (Hle : 2 ^ BITCNT_BITS <= 2 ^ 2) by (apply Z.pow_le_mono_r; lia).
    change (2 ^ 2) with 4 in Hle. unfold x in *. lia.
  - assert (H8 : 2 ^ BITCNT_BITS = 8 * 2 ^ (BITCNT_BITS - 3)).
    { change 8 with (2 ^ 3). rewrite <- Z.pow_add_r by lia. f_equal. lia. }
    rewrite Heq in Hdm. clear Heq Hb.
    set (q := x / 2 ^ BITCNT_BITS) in *. rewrite H8 in Hdm.
    replace (8 * 2 ^ (BITCNT_BITS - 3) * q) with (8 * (2 ^ (BITCNT_BITS - 3) * q)) in Hdm
      by ring.
    set (m := 2 ^ (BITCNT_BITS - 3) * q) in *. unfold x in Hdm. lia.
Qed.

Lemma pte_loads_app evs loads :
  pte_loads (evs ++ map EvPteLoad loads) = pte_loads evs ++ loads.
Proof.
  induction evs as [| e evs IH]; simpl.
  - induction loads as [| x loads IH]; simpl; [reflexivity | rewrite IH; reflexivity].
  - destruct e; simpl; rewrite IH; reflexivity.
Qed.

Lemma pt_run_events `{rvvm_build} fmt iters pagetable bit_off vaddr access w :
  events (snd (pt_run fmt iters pagetable bit_off vaddr access w))
  = events w ++ map EvPteLoad (fst (pt_path fmt (hart w) iters pagetable bit_off vaddr)).
Proof.
  unfold pt_run.
  destruct (pt_path fmt (hart w) iters pagetable bit_off vaddr) as [loads o].
  destruct o as [ptr pte bo |]; [destruct (leaf_ok fmt access pte bo) |]; reflexivity.
Qed.

Lemma pt_path_first_load `{rvvm_build} fmt vm iters pagetable bit_off vaddr ptr :
  riscv_phys_translate vm (pte_address fmt pagetable bit_off vaddr) = Some ptr ->
  exists rest,
    fst (pt_path fmt vm (S iters) pagetable bit_off vaddr)
    = pte_address fmt pagetable bit_off vaddr :: rest.
Proof.
  intros Hptr. simpl. rewrite Hptr.
  repeat match goal with
         | |- context [if ?c then _ else _] => destruct c
         | |- context [let (_, _) := ?p in _] => destruct p
         end; simpl; eexists; reflexivity.
Qed.

(** With a byte-wide [bitcnt_t], the first entry a granted check lets the
    walker load is selected by the shift [sv_levels * 9 - 9]. *)
Lemma rv64_first_load `{rvvm_build} sv_levels vaddr access w ptr :
  8 <= BITCNT_BITS <= 12 -> 3 <= sv_levels <= 5 ->
  vaddr = wrap XLEN (sign_extend vaddr (rv64_bit_off sv_levels + SV64_VPN_BITS)) ->
  riscv_phys_translate (hart w)
    (pte_address rv64_format (root_page_table (hart w)) (sv_levels * 9 - 9) vaddr)
  = Some ptr ->
  exists rest,
    pte_loads (events (snd (riscv_mmu_translate_rv64 vaddr access sv_levels w)))
    = pte_loads (events w)
      ++ pte_address rv64_format (root_page_table (hart w)) (sv_levels * 9 - 9) vaddr
         :: rest.
Proof.
  intros Hw HL Hcanon Hptr. rewrite riscv_mmu_translate_rv64_run.
  apply Z.eqb_eq in Hcanon. rewrite Hcanon.
  rewrite rv64_bit_off_narrow by assumption.
  destruct (Z.to_nat sv_levels) as [| iters] eqn:Hit; [lia |].
  rewrite pt_run_events, pte_loads_app.
  destruct (pt_path_first_load rv64_format (hart w) iters _ _ _ _ Hptr) as [rest Hrest].
  rewrite Hrest. exists rest. reflexivity.
Qed.

(** C1 (the code departs from the claim).  The initial shift is computed
    with [PAGE_SIZE] where the Sv32 walker has [PAGE_SHIFT]: with a
    byte-wide [bitcnt_t] it is 18, 27 and 36 for Sv39, Sv48 and Sv57, never
    [L * 9 + 12 - 9].  In Sv39, for the address 0x40000 the first entry is
    loaded from index 1 of the root table, where a shift of 30 selects
    index 0; the address 0x40000000 is refused before any load. *)
Theorem rv64_first_load_uses_page_size :
  @rv64_bit_off rv64_build SV39_LEVELS = 18
  /\ @rv64_bit_off rv64_build SV48_LEVELS = 27
  /\ @rv64_bit_off rv64_build SV57_LEVELS = 36
  /\ SV39_LEVELS * SV64_VPN_BITS + PAGE_SHIFT - SV64_VPN_BITS = 30
  /\ pte_loads (events (snd (@riscv_mmu_translate_rv64 rv64_build 0x40000 MMU_READ
                                SV39_LEVELS sv39_world)))
     = [0x80000000 + 1 * 8]
  /\ 0x80000000 + Z.land (Z.shiftr 0x40000 30) 0x1FF * 8 = 0x80000000
  /\ @riscv_mmu_translate_rv64 rv64_build 0x40000000 MMU_READ SV39_LEVELS sv39_world
     = (None, sv39_world).
Proof.
  repeat split; vm_compute; reflexivity.
Qed.

(** ** Walking through concrete tables *)

Section PathSteps.
Context `{rvvm_build}.

Lemma pt_path_pointer fmt vm iters pagetable bit_off vaddr ptr pte :
  riscv_phys_translate vm (pte_address fmt pagetable bit_off vaddr) = Some ptr ->
  read_le (ram_data (mem vm)) ptr (pf_pte_bytes fmt) = pte ->
  Z.land pte MMU_VALID_PTE <> 0 -> Z.land pte MMU_LEAF_PTE = 0 -> Z.land pte MMU_WRITE = 0 ->
  pt_path fmt vm (S iters) pagetable bit_off vaddr
  = let (loads, o) := pt_path fmt vm iters (pf_next fmt pte)
                              (wrap BITCNT_BITS (bit_off - pf_vpn_bits fmt)) vaddr in
    (pte_address fmt pagetable bit_off vaddr :: loads, o).
Proof.
  intros Hptr Hread Hv Hl Hw. simpl.
  rewrite Hptr, Hread.
  apply Z.eqb_neq in Hv. rewrite Hv, Hl, Hw. reflexivity.
Qed.

Lemma pt_path_leaf_here fmt vm iters pagetable bit_off vaddr ptr pte :
  riscv_phys_translate vm (pte_address fmt pagetable bit_off vaddr) = Some ptr ->
  read_le (ram_data (mem vm)) ptr (pf_pte_bytes fmt) = pte ->
  Z.land pte MMU_VALID_PTE <> 0 -> Z.land pte MMU_LEAF_PTE <> 0 ->
  pt_path fmt vm (S iters) pagetable bit_off vaddr
  = ([pte_address fmt pagetable bit_off vaddr], PtLeaf ptr pte bit_off).
Proof.
  intros Hptr Hread Hv Hl. simpl.
  rewrite Hptr, Hread.
  apply Z.eqb_neq in Hv. apply Z.eqb_neq in Hl. rewrite Hv, Hl. reflexivity.
Qed.

End PathSteps.

Lemma phys_word32_inv vm pa v :
  phys_word32 vm pa = Some v ->
  exists ptr, riscv_phys_translate vm pa = Some ptr /\ read_le (ram_data (mem vm)) ptr 4 = v.
Proof.
  unfold phys_word32. destruct (riscv_phys_translate vm pa) as [ptr |]; [| discriminate].
  intros Hv. injection Hv as <-. exists ptr. split; reflexivity.
Qed.

(** C4 as stated fails: the entry 0x00080401 carries PPN 0x201, so the walk
    continues at 0x00201000, not at 0x80200000; with the RAM at 0x80000000
    that address is outside the RAM and the translation is refused. *)
Lemma sv32_scenario_as_stated_fails :
  sv32_scenario_setup 0x80200000 sv32_spec_world
  /\ ~ @sv32_scenario_outcome rv32_build 0x80200000 sv32_spec_world.
Proof.
  split.
  - repeat split; vm_compute; reflexivity.
  - intros (w' & Hrun & _). vm_compute in Hrun. discriminate.
Qed.

(** C4 (amended).  With the second-level table where the entry 0x00080401
    points, at physical address 0x00201000, the store translation of
    0x00403ABC yields 0x00801ABC and the leaf entry 0x0020044F becomes
    0x002004CF; on the 32-bit and on the 64-bit build. *)
Theorem sv32_scenario_holds `{rvvm_build} w :
  XLEN = 32 \/ XLEN = 64 -> BITCNT_BITS = 8 ->
  sv32_scenario_setup 0x00201000 w ->
  sv32_scenario_outcome 0x00201000 w.
Proof.
  intros Hx Hb (Hroot & Hpte1 & Hpte2).
  apply phys_word32_inv in Hpte1 as (p1 & Hp1 & Hr1).
  apply phys_word32_inv in Hpte2 as (p2 & Hp2 & Hr2).
  unfold sv32_scenario_outcome.
  rewrite riscv_mmu_translate_sv32_run, Hroot. unfold pt_run.
  assert (Ha1 : pte_address sv32_format 0x80100000
                            (wrap BITCNT_BITS (SV32_VPN_BITS + PAGE_SHIFT)) 0x00403ABC
                = 0x80100000 + 1 * 4).
  { unfold pte_address. rewrite Hb. destruct Hx as [-> | ->]; reflexivity. }
  assert (Ha2 : pte_address sv32_format (pf_next sv32_format 0x00080401)
                  (wrap BITCNT_BITS (wrap BITCNT_BITS (SV32_VPN_BITS + PAGE_SHIFT)
                                     - pf_vpn_bits sv32_format)) 0x00403ABC
                = 0x00201000 + 3 * 4).
  { unfold pte_address. simpl pf_next. rewrite Hb. destruct Hx as [-> | ->]; reflexivity. }
  change (Z.to_nat SV32_LEVELS) with 2%nat.
  rewrite (pt_path_pointer sv32_format (hart w) 1 _ _ _ p1 0x00080401);
    [| rewrite Ha1; exact Hp1 | exact Hr1 | discriminate | reflexivity | reflexivity].
  rewrite (pt_path_leaf_here sv32_format (hart w) 0 _ _ _ p2 0x0020044F);
    [| rewrite Ha2; exact Hp2 | exact Hr2 | discriminate | discriminate].
  assert (Hok : leaf_ok sv32_format MMU_WRITE 0x0020044F
                  (wrap BITCNT_BITS (wrap BITCNT_BITS (SV32_VPN_BITS + PAGE_SHIFT)
                                     - pf_vpn_bits sv32_format)) = true).
  { unfold leaf_ok, leaf_aligned. rewrite Hb. destruct Hx as [-> | ->]; reflexivity. }
  assert (Hpa : leaf_paddr sv32_format 0x00403ABC 0x0020044F
                  (wrap BITCNT_BITS (wrap BITCNT_BITS (SV32_VPN_BITS + PAGE_SHIFT)
                                     - pf_vpn_bits sv32_format)) = 0x00801ABC).
  { unfold leaf_paddr. rewrite Hb. destruct Hx as [-> | ->]; reflexivity. }
  rewrite Hok, Hpa.
  change (pf_cas_always sv32_format || negb (0x0020044F =? pte_with_flags MMU_WRITE 0x0020044F))
    with true.
  cbv iota. eexists. split; [reflexivity |].
  unfold phys_word32. simpl hart.
  change (riscv_phys_translate (set_ram_data ?d (hart w)) ?pa)
    with (riscv_phys_translate (hart w) pa).
  rewrite Hp2. simpl ram_data. rewrite read_write_le. reflexivity.
Qed.

Lemma sv32_scenario_holds_witness :
  @sv32_scenario_outcome rv32_build 0x00201000 sv32_code_world.
Proof.
  apply (@sv32_scenario_holds rv32_build).
  - left; reflexivity.
  - reflexivity.
  - repeat split; vm_compute; reflexivity.
Defined.

(** ** Effective privilege and access *)

Lemma land_bit_eqb x n :
  0 <= n -> (Z.land x (Z.shiftl 1 n) =? 0) = negb (Z.testbit x n).
Proof.
  intros Hn. rewrite Z.shiftl_1_l.
  destruct (Z.testbit x n) eqn:Hbit; simpl.
  - apply Z.eqb_neq. intros Hz.
    assert (Hb : Z.testbit (Z.land x (2 ^ n)) n = true).
    { rewrite Z.land_spec, Hbit, Z.pow2_bits_true by exact Hn. reflexivity. }
    rewrite Hz, Z.bits_0 in Hb. discriminate.
  - apply Z.eqb_eq. apply Z.bits_inj'. intros i Hi.
    rewrite Z.land_spec, Z.bits_0, Z.pow2_bits_eqb by exact Hn.
    destruct (Z.eqb_spec n i) as [<- | Hne].
    + rewrite Hbit. reflexivity.
    + apply andb_false_r.
Qed.

Lemma land_access_bit pte k :
  0 <= k -> (Z.land pte (2 ^ k) =? 0) = negb (Z.testbit pte k).
Proof. intros Hk. rewrite <- Z.shiftl_1_l. apply land_bit_eqb. exact Hk. Qed.

Lemma status_mpp_cut vm : wrap 8 (CSR_STATUS_MPP (csr_status vm)) = status_mpp vm.
Proof.
  unfold CSR_STATUS_MPP, bit_cut, bit_mask, status_mpp.
  rewrite Z.shiftr_div_pow2 by lia.
  change (Z.shiftl 1 2 - 1) with (Z.ones 2). rewrite Z.land_ones by lia.
  change (2 ^ 2) with 4. apply wrap_small.
  pose proof (Z.mod_pos_bound (csr_status vm / 2 ^ 11) 4 ltac:(lia)).
  change (2 ^ 8) with 256. lia.
Qed.

Section Resolve.
Context `{rvvm_build}.

(** [riscv_mmu_translate] decides on the effective privilege and walks with
    the effective access. *)
Lemma riscv_mmu_translate_resolve vaddr access w :
  riscv_mmu_translate vaddr access w
  = if effective_priv (hart w) access <=? PRIVILEGE_SUPERVISOR
    then translate_by_mode vaddr (effective_access (hart w) access) w
    else (Some vaddr, w).
Proof.
  unfold riscv_mmu_translate, bind, get_hart, effective_priv, effective_access,
    status_mprv, status_mxr.
  unfold CSR_STATUS_MPRV_MASK, CSR_STATUS_MXR_MASK, CSR_STATUS_MPRV_BIT, CSR_STATUS_MXR_BIT.
  rewrite !land_bit_eqb by lia. rewrite !negb_involutive, status_mpp_cut.
  destruct (_ <=? PRIVILEGE_SUPERVISOR); reflexivity.
Qed.

Lemma translate_by_mode_run vaddr access w :
  translate_by_mode vaddr access w
  = if mmu_mode (hart w) =? CSR_SATP_MODE_PHYS then (Some vaddr, w)
    else if mmu_mode (hart w) =? CSR_SATP_MODE_SV32 then
      pt_run sv32_format (Z.to_nat SV32_LEVELS) (root_page_table (hart w))
             (wrap BITCNT_BITS (SV32_VPN_BITS + PAGE_SHIFT)) vaddr access w
    else
      match rv64_levels (mmu_mode (hart w)) with
      | Some sv_levels =>
        if vaddr =? wrap XLEN (sign_extend vaddr (rv64_bit_off sv_levels + SV64_VPN_BITS))
        then pt_run rv64_format (Z.to_nat sv_levels) (root_page_table (hart w))
                    (rv64_bit_off sv_levels) vaddr access w
        else (None, w)
      | None => (None, mk_world (hart w) (events w ++ [EvError]))
      end.
Proof.
  unfold translate_by_mode, bind, get_hart, rv64_levels.
  destruct (mmu_mode (hart w) =? CSR_SATP_MODE_PHYS); [reflexivity |].
  destruct (mmu_mode (hart w) =? CSR_SATP_MODE_SV32);
    [apply riscv_mmu_translate_sv32_run |].
  destruct (XLEN =? 64); simpl; [| reflexivity].
  destruct (mmu_mode (hart w) =? CSR_SATP_MODE_SV39);
    [apply riscv_mmu_translate_rv64_run |].
  destruct (mmu_mode (hart w) =? CSR_SATP_MODE_SV48);
    [apply riscv_mmu_translate_rv64_run |].
  destruct (mmu_mode (hart w) =? CSR_SATP_MODE_SV57);
    [apply riscv_mmu_translate_rv64_run |].
  reflexivity.
Qed.

(** A walk succeeds exactly when its path ends at a leaf that grants the
    access and is aligned. *)
Lemma pt_run_success fmt iters pagetable bit_off vaddr access w :
  is_Some (fst (pt_run fmt iters pagetable bit_off vaddr access w))
  <-> exists ptr pte bit_off',
        path_leaf (pt_path fmt (hart w) iters pagetable bit_off vaddr)
        = Some (ptr, pte, bit_off')
        /\ leaf_ok fmt access pte bit_off' = true.
Proof.
  unfold pt_run, path_leaf.
  destruct (pt_path fmt (hart w) iters pagetable bit_off vaddr) as [loads o]. simpl.
  destruct o as [ptr pte bo |].
  - destruct (leaf_ok fmt access pte bo) eqn:Hok; simpl.
    + split; [| intros _; eexists; reflexivity].
      intros _. exists ptr, pte, bo. split; [reflexivity | exact Hok].
    + split.
      * intros [x Hx]. discriminate.
      * intros (p & e & b & Heq & Hok'). injection Heq as <- <- <-. congruence.
  - simpl. split.
    + intros [x Hx]. discriminate.
    + intros (p & e & b & Heq & _). discriminate.
Qed.

Lemma translate_by_mode_success vaddr access w :
  mmu_mode (hart w) <> CSR_SATP_MODE_PHYS ->
  is_Some (fst (translate_by_mode vaddr access w))
  <-> exists ptr pte bit_off,
        page_leaf (hart w) vaddr = Some (ptr, pte, bit_off)
        /\ leaf_ok (page_format (hart w)) access pte bit_off = true.
Proof.
  intros Hmode. rewrite translate_by_mode_run. unfold page_leaf, page_format.
  apply Z.eqb_neq in Hmode. rewrite Hmode.
  destruct (mmu_mode (hart w) =? CSR_SATP_MODE_SV32); [apply pt_run_success |].
  destruct (rv64_levels (mmu_mode (hart w))) as [sv_levels |].
  - destruct (vaddr =? _); [apply pt_run_success |].
    split.
    + intros [y Hy]. discriminate.
    + intros (p & e & b & Heq & _). discriminate.
  - split.
    + intros [y Hy]. discriminate.
    + intros (p & e & b & Heq & _). discriminate.
Qed.

(** C6.  With [status.MPRV] set, an access other than a fetch is translated
    at the privilege [status.MPP] (bits 11-12 of [status]): it is walked when
    that is S or U, and passes untranslated otherwise.  With [status.MXR]
    set, a load is walked with the execute permission in place of the read
    permission.  Hence a load from a mapped, aligned page with X=1 and R=0
    that is subject to translation succeeds exactly when [status.MXR] is
    set. *)
Theorem riscv_mmu_translate_mprv_mxr w vaddr :
  (forall access,
      status_mprv (hart w) = true -> access <> MMU_EXEC ->
      riscv_mmu_translate vaddr access w
      = if (csr_status (hart w) / 2 ^ 11) mod 4 <=? PRIVILEGE_SUPERVISOR
        then translate_by_mode vaddr (effective_access (hart w) access) w
        else (Some vaddr, w))
  /\ (status_mxr (hart w) = true ->
      effective_priv (hart w) MMU_READ <= PRIVILEGE_SUPERVISOR ->
      riscv_mmu_translate vaddr MMU_READ w = translate_by_mode vaddr MMU_EXEC w)
  /\ (forall ptr pte bit_off,
         effective_priv (hart w) MMU_READ <= PRIVILEGE_SUPERVISOR ->
         page_leaf (hart w) vaddr = Some (ptr, pte, bit_off) ->
         Z.testbit pte 3 = true -> Z.testbit pte 1 = false ->
         leaf_aligned (page_format (hart w)) pte bit_off = true ->
         (is_Some (fst (riscv_mmu_translate vaddr MMU_READ w))
          <-> status_mxr (hart w) = true)).
Proof.
  split; [| split].
  - intros access Hmprv Hacc. rewrite riscv_mmu_translate_resolve.
    unfold effective_priv. rewrite Hmprv.
    apply Z.eqb_neq in Hacc. rewrite Hacc. reflexivity.
  - intros Hmxr Hpriv. rewrite riscv_mmu_translate_resolve.
    apply Z.leb_le in Hpriv. rewrite Hpriv.
    unfold effective_access. rewrite Hmxr. reflexivity.
  - intros ptr pte bit_off Hpriv Hleaf HX HR Hal.
    rewrite riscv_mmu_translate_resolve.
    apply Z.leb_le in Hpriv. rewrite Hpriv.
    assert (Hmode : mmu_mode (hart w) <> CSR_SATP_MODE_PHYS).
    { intros Heq. unfold page_leaf in Hleaf. rewrite Heq in Hleaf. discriminate. }
    rewrite (translate_by_mode_success _ _ _ Hmode).
    assert (Hexec : leaf_ok (page_format (hart w)) MMU_EXEC pte bit_off = true).
    { unfold leaf_ok. rewrite Hal. change MMU_EXEC with (2 ^ 3).
      rewrite land_access_bit, HX by lia. reflexivity. }
    assert (Hread : leaf_ok (page_format (hart w)) MMU_READ pte bit_off = false).
    { unfold leaf_ok. change MMU_READ with (2 ^ 1).
      rewrite land_access_bit, HR by lia. reflexivity. }
    unfold effective_access. destruct (status_mxr (hart w)); simpl.
    + split; [reflexivity |]. intros _.
      exists ptr, pte, bit_off. split; assumption.
    + split; [| discriminate].
      intros (p & e & b & Heq & Hok). rewrite Hleaf in Heq.
      injection Heq as <- <- <-. congruence.
Qed.

End Resolve.

Lemma riscv_mmu_translate_mprv_mxr_witness :
  is_Some (fst (@riscv_mmu_translate rv32_build 0x1000 MMU_READ
                  (xonly_world (Z.shiftl 1 19))))
  <-> status_mxr (hart (xonly_world (Z.shiftl 1 19))) = true.
Proof.
  apply (proj2 (proj2 (@riscv_mmu_translate_mprv_mxr rv32_build
                          (xonly_world (Z.shiftl 1 19)) 0x1000))
           0x400000 0x20000009 22).
  - vm_compute. discriminate.
  - vm_compute. reflexivity.
  - reflexivity.
  - reflexivity.
  - vm_compute. reflexivity.
Defined.

(** ** The dispatcher *)

Lemma traps_app evs1 evs2 : traps (evs1 ++ evs2) = traps evs1 ++ traps evs2.
Proof.
  induction evs1 as [| e evs1 IH]; [reflexivity |].
  destruct e; simpl; rewrite IH; reflexivity.
Qed.

Lemma traps_pte_loads loads : traps (map EvPteLoad loads) = [].
Proof. induction loads as [| pa loads IH]; [reflexivity | exact IH]. Qed.

Lemma same_but_ram_refl vm : same_but_ram vm vm.
Proof. repeat split. Qed.

Lemma same_but_ram_phys vm vm' pa :
  same_but_ram vm vm' -> riscv_phys_translate vm' pa = riscv_phys_translate vm pa.
Proof.
  intros (_ & _ & _ & _ & _ & Hb & Hs). unfold riscv_phys_translate.
  rewrite Hb, Hs. reflexivity.
Qed.

Section Dispatcher.
Context `{rvvm_build}.

(** What a translation does to the world: it raises no trap; refused, it
    leaves the hart as it was; granted, it changes at most the flags of one
    leaf entry. *)
Lemma riscv_mmu_translate_effect vaddr access w r w' :
  riscv_mmu_translate vaddr access w = (r, w') ->
  same_but_ram (hart w) (hart w')
  /\ traps (events w') = traps (events w)
  /\ match r with
     | None => hart w' = hart w
     | Some pa =>
       hart w' = hart w
       \/ exists ptr n,
            leaf_at (ram_data (mem (hart w))) ptr n
            /\ pte_ad_update (effective_access (hart w) access)
                             (ram_data (mem (hart w))) (ram_data (mem (hart w'))) ptr n
     end.
Proof.
  rewrite riscv_mmu_translate_resolve.
  assert (Hbare : forall v, (Some v, w) = (r, w') ->
            same_but_ram (hart w) (hart w') /\ traps (events w') = traps (events w)
            /\ match r with
               | None => hart w' = hart w
               | Some pa =>
                 hart w' = hart w
                 \/ exists ptr n,
                      leaf_at (ram_data (mem (hart w))) ptr n
                      /\ pte_ad_update (effective_access (hart w) access)
                           (ram_data (mem (hart w))) (ram_data (mem (hart w'))) ptr n
               end).
  { intros v Heq. injection Heq as <- <-.
    split; [apply same_but_ram_refl |]. split; [reflexivity | left; reflexivity]. }
  assert (Hnone : forall evs, (@None Z, mk_world (hart w) (events w ++ evs)) = (r, w') ->
            traps evs = [] ->
            same_but_ram (hart w) (hart w') /\ traps (events w') = traps (events w)
            /\ match r with
               | None => hart w' = hart w
               | Some pa =>
                 hart w' = hart w
                 \/ exists ptr n,
                      leaf_at (ram_data (mem (hart w))) ptr n
                      /\ pte_ad_update (effective_access (hart w) access)
                           (ram_data (mem (hart w))) (ram_data (mem (hart w'))) ptr n
               end).
  { intros evs Heq Hevs. injection Heq as <- <-. simpl.
    split; [apply same_but_ram_refl |]. split; [| reflexivity].
    rewrite traps_app, Hevs. apply app_nil_r. }
  assert (Hwalk : forall fmt iters pagetable bit_off,
            (1 <= pf_pte_bytes fmt)%nat ->
            pt_run fmt iters pagetable bit_off vaddr
                   (effective_access (hart w) access) w = (r, w') ->
            same_but_ram (hart w) (hart w') /\ traps (events w') = traps (events w)
            /\ match r with
               | None => hart w' = hart w
               | Some pa =>
                 hart w' = hart w
                 \/ exists ptr n,
                      leaf_at (ram_data (mem (hart w))) ptr n
                      /\ pte_ad_update (effective_access (hart w) access)
                           (ram_data (mem (hart w))) (ram_data (mem (hart w'))) ptr n
               end).
  { intros fmt iters pagetable bit_off Hn Hrun.
    destruct (pt_run_effect _ _ _ _ _ _ _ _ _ Hn Hrun) as (Hsame & [loads Hev] & Hr).
    split; [exact Hsame |]. split.
    - rewrite Hev, traps_app, traps_pte_loads. apply app_nil_r.
    - destruct r as [pa |]; [| exact Hr].
      right. destruct Hr as (pte_pa & ptr & _ & Hleaf & Hupd).
      exists ptr, (pf_pte_bytes fmt).
      split; assumption. }
  destruct (effective_priv (hart w) access <=? PRIVILEGE_SUPERVISOR); [| apply Hbare].
  rewrite translate_by_mode_run.
  destruct (mmu_mode (hart w) =? CSR_SATP_MODE_PHYS); [apply Hbare |].
  destruct (mmu_mode (hart w) =? CSR_SATP_MODE_SV32); [apply Hwalk; simpl; lia |].
  destruct (rv64_levels (mmu_mode (hart w))) as [sv_levels |].
  - destruct (vaddr =? _); [apply Hwalk; simpl; lia |].
    intros Heq. apply (Hnone []); [| reflexivity].
    rewrite app_nil_r, world_eta. exact Heq.
  - intros Heq. apply (Hnone [EvError]); [exact Heq | reflexivity].
Qed.

(** The two switches yield a cause and raise no trap themselves. *)
Lemma access_fault_cause_traps access w :
  traps (events (snd (access_fault_cause access w))) = traps (events w).
Proof.
  unfold access_fault_cause.
  repeat (destruct (access =? _); [reflexivity |]).
  unfold bind, rvvm_error, emit, ret. simpl. rewrite traps_app. apply app_nil_r.
Qed.

Lemma access_fault_cause_hart access w :
  hart (snd (access_fault_cause access w)) = hart w.
Proof.
  unfold access_fault_cause.
  repeat (destruct (access =? _); [reflexivity |]). reflexivity.
Qed.

Lemma page_fault_cause_traps access w :
  traps (events (snd (page_fault_cause access w))) = traps (events w).
Proof.
  unfold page_fault_cause.
  repeat (destruct (access =? _); [reflexivity |]).
  unfold bind, rvvm_error, emit, ret. simpl. rewrite traps_app. apply app_nil_r.
Qed.

Lemma page_fault_cause_hart access w :
  hart (snd (page_fault_cause access w)) = hart w.
Proof.
  unfold page_fault_cause.
  repeat (destruct (access =? _); [reflexivity |]). reflexivity.
Qed.

Lemma riscv_mmu_op_fuel_in_page fuel addr buf dest size access w :
  riscv_block_in_page addr size = true ->
  riscv_mmu_op_fuel (S fuel) addr buf dest size access w
  = mmu_op_in_page addr buf dest size access w.
Proof.
  intros Hin. simpl. rewrite Hin. simpl. unfold mmu_op_in_page, bind at 1.
  destruct (riscv_mmu_translate addr access w) as [[paddr |] w1].
  - unfold bind at 1. unfold get_hart at 1.
    destruct (riscv_phys_translate (hart w1) paddr) as [ptr |].
    + unfold bind at 1.
      destruct (riscv_tlb_put addr paddr access w1) as [[] w2]. simpl.
      destruct (access =? MMU_WRITE); reflexivity.
    + unfold riscv_mmio_op, bind at 1. unfold ret at 1. unfold bind at 1.
      destruct (access_fault_cause access w1) as [cause w2]. reflexivity.
  - unfold bind at 1.
    destruct (page_fault_cause access w1) as [cause w2]. reflexivity.
Qed.

Lemma riscv_mmu_op_fuel_split fuel addr buf dest size access w :
  riscv_block_in_page addr size = false ->
  riscv_mmu_op_fuel (S fuel) addr buf dest size access w
  = let (r1, w1) := riscv_mmu_op_fuel fuel addr buf dest
                                      (PAGE_SIZE - Z.land addr PAGE_MASK) access w in
    match r1 with
    | Some (true, buf1) =>
      riscv_mmu_op_fuel fuel (wrap XLEN (addr + (PAGE_SIZE - Z.land addr PAGE_MASK))) buf1
                        (dest + (PAGE_SIZE - Z.land addr PAGE_MASK))
                        (size - (PAGE_SIZE - Z.land addr PAGE_MASK)) access w1
    | Some (false, buf1) => (Some (false, buf1), w1)
    | None => (None, w1)
    end.
Proof.
  intros Hcross. simpl. rewrite Hcross. simpl. unfold bind at 1.
  destruct (riscv_mmu_op_fuel fuel addr buf dest _ access w) as [[[[] b1] |] w1];
    reflexivity.
Qed.

End Dispatcher.

Section DispatcherClaims.
Context `{rvvm_build}.

Lemma riscv_tlb_put_frame vaddr paddr op w :
  let w' := snd (riscv_tlb_put vaddr paddr op w) in
  mem (hart w') = mem (hart w) /\ traps (events w') = traps (events w).
Proof.
  unfold riscv_tlb_put, bind, get_hart. cbv zeta.
  destruct (riscv_phys_translate (hart w) _) as [ptr |]; [| split; reflexivity].
  destruct (tlb_put_tags _ _ op) as [entry complained].
  destruct complained; simpl; split; try reflexivity.
  rewrite traps_app. apply app_nil_r.
Qed.

Lemma page_offset_range addr : 0 <= Z.land addr PAGE_MASK < PAGE_SIZE.
Proof.
  unfold PAGE_MASK, PAGE_SIZE. change 0xFFF with (Z.ones 12).
  rewrite Z.land_ones by lia. apply Z.mod_pos_bound. lia.
Qed.

Lemma first_part_in_page addr :
  riscv_block_in_page addr (PAGE_SIZE - Z.land addr PAGE_MASK) = true.
Proof. unfold riscv_block_in_page. apply Z.leb_le. lia. Qed.

Lemma length_buf_bytes buf dest n : length (buf_bytes buf dest n) = Z.to_nat n.
Proof. unfold buf_bytes. rewrite length_map, length_seq. reflexivity. Qed.

Lemma map_seq_nth {A} (f : nat -> A) (l : list A) (dflt : A) (s : nat) :
  (forall i, (i < length l)%nat -> f (s + i)%nat = nth i l dflt) ->
  map f (seq s (length l)) = l.
Proof.
  revert s. induction l as [| x l IH]; intros s Hf; [reflexivity |].
  simpl. f_equal.
  - specialize (Hf 0%nat ltac:(simpl; lia)). simpl in Hf. rewrite <- Hf. f_equal. lia.
  - apply IH. intros i Hi.
    specialize (Hf (S i) ltac:(simpl; lia)). simpl in Hf. rewrite <- Hf. f_equal. lia.
Qed.

Lemma ram_bytes_memcpy d ptr src :
  ram_bytes (memcpy_to_ram d ptr src) ptr (Z.of_nat (length src)) = map (wrap 8) src.
Proof.
  unfold ram_bytes. rewrite Nat2Z.id.
  rewrite <- (length_map (wrap 8) src) at 1.
  apply (map_seq_nth _ _ (wrap 8 0)).
  intros i Hi. rewrite length_map in Hi. simpl.
  rewrite (map_nth (wrap 8)). apply memcpy_to_ram_byte. exact Hi.
Qed.

(** A granted store within one page. *)
Lemma mmu_op_in_page_store addr buf dest size w buf1 w1 :
  mmu_op_in_page addr buf dest size MMU_WRITE w = (Some (true, buf1), w1) ->
  exists paddr ptr w0,
    riscv_mmu_translate addr MMU_WRITE w = (Some paddr, w0)
    /\ riscv_phys_translate (hart w) paddr = Some ptr
    /\ buf1 = buf
    /\ traps (events w1) = traps (events w)
    /\ ram_data (mem (hart w1))
       = memcpy_to_ram (ram_data (mem (hart w0))) ptr (buf_bytes buf dest size).
Proof.
  unfold mmu_op_in_page.
  destruct (riscv_mmu_translate addr MMU_WRITE w) as [[paddr |] w0] eqn:Htr.
  - destruct (riscv_mmu_translate_effect _ _ _ _ _ Htr) as (Hsame & Htraps & _).
    destruct (riscv_phys_translate (hart w0) paddr) as [ptr |] eqn:Hptr.
    + change (MMU_WRITE =? MMU_WRITE) with true. cbv iota.
      intros Heq. injection Heq as <- <-.
      destruct (riscv_tlb_put_frame addr paddr MMU_WRITE w0) as [Hmem Hev].
      cbv zeta in Hmem, Hev.
      exists paddr, ptr, w0. split; [reflexivity |].
      split; [rewrite <- (same_but_ram_phys _ _ paddr Hsame); exact Hptr |].
      split; [reflexivity |]. split.
      * simpl. rewrite Hev. exact Htraps.
      * simpl. rewrite Hmem. reflexivity.
    + destruct (access_fault_cause MMU_WRITE w0). discriminate.
  - destruct (page_fault_cause MMU_WRITE w0). discriminate.
Qed.

(** C3 (amended).  A store that crosses one page boundary, whose first page
    is granted and whose second page is refused by the translation, returns
    false; the bytes of the first page are in the RAM; one trap is raised,
    the store page fault, and its [tval] is the start of the second
    sub-range, [addr + part_size]. *)
Theorem riscv_mmu_op_split_store_fault addr buf dest size w buf1 w1 :
  riscv_block_in_page addr size = false ->
  riscv_block_in_page (wrap XLEN (addr + (PAGE_SIZE - Z.land addr PAGE_MASK)))
                      (size - (PAGE_SIZE - Z.land addr PAGE_MASK)) = true ->
  riscv_mmu_op addr buf dest (PAGE_SIZE - Z.land addr PAGE_MASK) MMU_WRITE w
  = (Some (true, buf1), w1) ->
  fst (riscv_mmu_translate (wrap XLEN (addr + (PAGE_SIZE - Z.land addr PAGE_MASK)))
                           MMU_WRITE w1) = None ->
  exists w2,
    riscv_mmu_op addr buf dest size MMU_WRITE w = (Some (false, buf), w2)
    /\ hart w2 = hart w1
    /\ traps (events w2)
       = traps (events w)
         ++ [(TRAP_STORE_PAGEFAULT, wrap XLEN (addr + (PAGE_SIZE - Z.land addr PAGE_MASK)))]
    /\ exists paddr ptr,
         fst (riscv_mmu_translate addr MMU_WRITE w) = Some paddr
         /\ riscv_phys_translate (hart w) paddr = Some ptr
         /\ ram_bytes (ram_data (mem (hart w2))) ptr (PAGE_SIZE - Z.land addr PAGE_MASK)
            = map (wrap 8) (buf_bytes buf dest (PAGE_SIZE - Z.land addr PAGE_MASK)).
Proof.
  set (part_size := PAGE_SIZE - Z.land addr PAGE_MASK).
  intros Hcross Hsecond Hfirst Hfault.
  pose proof (page_offset_range addr) as Hoff.
  assert (Hsize : part_size < size).
  { unfold riscv_block_in_page in Hcross. apply Z.leb_gt in Hcross.
    unfold part_size. lia. }
  assert (Hpart : 1 <= part_size) by (unfold part_size; lia).
  unfold riscv_mmu_op in Hfirst.
  rewrite riscv_mmu_op_fuel_in_page in Hfirst by apply first_part_in_page.
  destruct (mmu_op_in_page_store _ _ _ _ _ _ _ Hfirst)
    as (paddr & ptr & w0 & Htr & Hptr & -> & Htraps & Hram).
  destruct (riscv_mmu_translate (wrap XLEN (addr + part_size)) MMU_WRITE w1)
    as [r2 w1'] eqn:Htr2.
  simpl in Hfault. subst r2.
  destruct (riscv_mmu_translate_effect _ _ _ _ _ Htr2) as (_ & Htraps2 & Hhart2).
  exists (mk_world (hart w1') (events w1' ++ [EvTrap TRAP_STORE_PAGEFAULT
                                                (wrap XLEN (addr + part_size))])).
  split; [| split; [exact Hhart2 | split]].
  - unfold riscv_mmu_op.
    destruct (Z.to_nat size) as [| k] eqn:Hk; [lia |].
    rewrite riscv_mmu_op_fuel_split by exact Hcross. fold part_size.
    pose proof (riscv_mmu_op_fuel_in_page k addr buf dest part_size MMU_WRITE w
                  (first_part_in_page addr)) as Hone.
    rewrite Hone, Hfirst.
    rewrite (riscv_mmu_op_fuel_in_page k _ _ _ _ _ _ Hsecond).
    unfold mmu_op_in_page. rewrite Htr2. reflexivity.
  - simpl. rewrite traps_app, Htraps2, Htraps. reflexivity.
  - exists paddr, ptr. rewrite Htr. split; [reflexivity |]. split; [exact Hptr |].
    simpl hart. rewrite Hhart2, Hram.
    pose proof (ram_bytes_memcpy (ram_data (mem (hart w0))) ptr
                  (buf_bytes buf dest part_size)) as Hback.
    rewrite length_buf_bytes, Z2Nat.id in Hback by lia. exact Hback.
Qed.

(** C10.  An operation within one page that returns false raised one trap,
    with the address it was given, and left the caller's buffer and the TLB
    as they were.  When the translation was refused the hart is unchanged;
    when it was granted and the physical address is backed by nothing, the
    RAM differs at most in the A and D bits of one leaf entry. *)
Theorem riscv_mmu_op_trap_frame addr buf dest size access w buf' w' :
  riscv_block_in_page addr size = true ->
  riscv_mmu_op addr buf dest size access w = (Some (false, buf'), w') ->
  buf' = buf
  /\ tlb (hart w') = tlb (hart w)
  /\ (exists cause, traps (events w') = traps (events w) ++ [(cause, addr)])
  /\ ((fst (riscv_mmu_translate addr access w) = None /\ hart w' = hart w)
      \/ (exists paddr,
             fst (riscv_mmu_translate addr access w) = Some paddr
             /\ riscv_phys_translate (hart w) paddr = None
             /\ same_but_ram (hart w) (hart w')
             /\ (hart w' = hart w
                 \/ exists ptr n,
                      leaf_at (ram_data (mem (hart w))) ptr n
                      /\ ad_bits_only (ram_data (mem (hart w)))
                                      (ram_data (mem (hart w'))) ptr n))).
Proof.
  intros Hin. unfold riscv_mmu_op. rewrite riscv_mmu_op_fuel_in_page by exact Hin.
  unfold mmu_op_in_page.
  destruct (riscv_mmu_translate addr access w) as [[paddr |] w1] eqn:Htr;
    destruct (riscv_mmu_translate_effect _ _ _ _ _ Htr) as (Hsame & Htraps & Hr).
  - destruct (riscv_phys_translate (hart w1) paddr) as [ptr |] eqn:Hptr.
    { destruct (access =? MMU_WRITE); discriminate. }
    pose proof (access_fault_cause_traps access w1) as Hct.
    pose proof (access_fault_cause_hart access w1) as Hch.
    destruct (access_fault_cause access w1) as [cause w2]. simpl in Hct, Hch.
    intros Heq. injection Heq as <- <-. simpl.
    split; [reflexivity |]. split.
    { rewrite Hch. apply Hsame. }
    split.
    { exists cause. rewrite traps_app, Hct, Htraps. reflexivity. }
    right. exists paddr. split; [reflexivity |]. split.
    { rewrite <- (same_but_ram_phys _ _ paddr Hsame). exact Hptr. }
    rewrite Hch. split; [exact Hsame |].
    destruct Hr as [Heq | (p & n & Hleaf & Hout & Hbits & _)]; [left; exact Heq |].
    right. exists p, n. split; [exact Hleaf |]. split; assumption.
  - pose proof (page_fault_cause_traps access w1) as Hct.
    pose proof (page_fault_cause_hart access w1) as Hch.
    destruct (page_fault_cause access w1) as [cause w2]. simpl in Hct, Hch.
    intros Heq. injection Heq as <- <-. simpl.
    split; [reflexivity |]. split.
    { rewrite Hch. apply Hsame. }
    split.
    { exists cause. rewrite traps_app, Hct, Htraps. reflexivity. }
    left. split; [reflexivity |]. rewrite Hch. exact Hr.
Qed.

(** [riscv_mmu_op] always returns: the rounds it is given cover the
    recursion. *)
Lemma riscv_mmu_op_fuel_returns fuel addr buf dest size access w :
  (Z.to_nat size < fuel)%nat ->
  fst (riscv_mmu_op_fuel fuel addr buf dest size access w) <> None.
Proof.
  revert addr buf dest size w.
  induction fuel as [| fuel IH]; intros addr buf dest size w Hfuel; [lia |].
  destruct (riscv_block_in_page addr size) eqn:Hin.
  - rewrite riscv_mmu_op_fuel_in_page by exact Hin. unfold mmu_op_in_page.
    destruct (riscv_mmu_translate addr access w) as [[paddr |] w1].
    + destruct (riscv_phys_translate (hart w1) paddr).
      * destruct (access =? MMU_WRITE); discriminate.
      * destruct (access_fault_cause access w1). discriminate.
    + destruct (page_fault_cause access w1). discriminate.
  - pose proof (page_offset_range addr) as Hoff.
    assert (Hsize : PAGE_SIZE - Z.land addr PAGE_MASK < size).
    { unfold riscv_block_in_page in Hin. apply Z.leb_gt in Hin. lia. }
    destruct fuel as [| fuel]; [lia |].
    rewrite riscv_mmu_op_fuel_split by exact Hin.
    pose proof (IH addr buf dest (PAGE_SIZE - Z.land addr PAGE_MASK) w ltac:(lia)) as Hone.
    destruct (riscv_mmu_op_fuel (S fuel) addr buf dest
                (PAGE_SIZE - Z.land addr PAGE_MASK) access w) as [[[[] b1] |] w1];
      [| discriminate | exact Hone].
    apply IH. lia.
Qed.

Lemma riscv_mmu_op_returns addr buf dest size access w :
  fst (riscv_mmu_op addr buf dest size access w) <> None.
Proof. unfold riscv_mmu_op. apply riscv_mmu_op_fuel_returns. lia. Qed.

End DispatcherClaims.

(** ** Concrete machines *)

Lemma walk_updates_only_ad_witness :
  same_but_ram (hart sv32_code_world)
    (hart (snd (@riscv_mmu_translate_sv32 rv32_build 0x00403ABC MMU_WRITE sv32_code_world)))
  /\ exists pte_pa ptr n,
       let d := ram_data (mem (hart sv32_code_world)) in
       let d' := ram_data (mem (hart (snd (@riscv_mmu_translate_sv32 rv32_build 0x00403ABC
                                             MMU_WRITE sv32_code_world)))) in
       (n = 4%nat \/ n = 8%nat)
       /\ riscv_phys_translate (hart sv32_code_world) pte_pa = Some ptr
       /\ leaf_at d ptr n
       /\ (forall off, ~ (ptr <= off < ptr + Z.of_nat n) -> ram_byte d' off = ram_byte d off)
       /\ (forall i, i <> 6 -> i <> 7 ->
                     Z.testbit (read_le d' ptr n) i = Z.testbit (read_le d ptr n) i)
       /\ Z.testbit (read_le d' ptr n) 6 = true
       /\ (MMU_WRITE = MMU_WRITE -> Z.testbit (read_le d' ptr n) 7 = true)
       /\ (MMU_WRITE = MMU_READ \/ MMU_WRITE = MMU_EXEC ->
           Z.testbit (read_le d' ptr n) 7 = Z.testbit (read_le d ptr n) 7).
Proof.
  apply (@walk_updates_only_ad rv32_build sv32_code_world 0x00403ABC MMU_WRITE 0x00801ABC).
  - right; left; reflexivity.
  - left. vm_compute. reflexivity.
Defined.

(** C3 as stated fails: the trap of the refused second half carries the
    address of the second sub-range, 0x00400000, not the address 0x003FFFFC
    that was passed in. *)
Lemma split_store_tval_is_second_page :
  riscv_block_in_page split_addr 8 = false
  /\ fst (@riscv_mmu_op rv32_build split_addr split_buf 0 4 MMU_WRITE split_world)
     = Some (true, split_buf)
  /\ fst (@riscv_mmu_translate rv32_build 0x00400000 MMU_WRITE split_world_1) = None
  /\ ~ split_store_tval_claim.
Proof.
  split; [reflexivity |]. split; [vm_compute; reflexivity |].
  split; [vm_compute; reflexivity |].
  intros (buf & w' & Hrun & Htval).
  assert (Hev : traps (events (snd (@riscv_mmu_op rv32_build 0x003FFFFC
                                      [1; 2; 3; 4; 5; 6; 7; 8] 0 8 MMU_WRITE split_world)))
                = [(TRAP_STORE_PAGEFAULT, 0x00400000)]) by (vm_compute; reflexivity).
  rewrite Hrun in Hev. simpl in Hev. rewrite Htval in Hev. discriminate.
Qed.

Lemma riscv_mmu_op_split_store_fault_witness :
  exists w2,
    @riscv_mmu_op rv32_build split_addr split_buf 0 8 MMU_WRITE split_world
    = (Some (false, split_buf), w2)
    /\ hart w2 = hart split_world_1
    /\ traps (events w2)
       = traps (events split_world)
         ++ [(TRAP_STORE_PAGEFAULT,
              wrap (@XLEN rv32_build) (split_addr + (PAGE_SIZE - Z.land split_addr PAGE_MASK)))]
    /\ exists paddr ptr,
         fst (@riscv_mmu_translate rv32_build split_addr MMU_WRITE split_world) = Some paddr
         /\ riscv_phys_translate (hart split_world) paddr = Some ptr
         /\ ram_bytes (ram_data (mem (hart w2))) ptr (PAGE_SIZE - Z.land split_addr PAGE_MASK)
            = map (wrap 8) (buf_bytes split_buf 0 (PAGE_SIZE - Z.land split_addr PAGE_MASK)).
Proof.
  apply (@riscv_mmu_op_split_store_fault rv32_build split_addr split_buf 0 8 split_world
           split_buf split_world_1).
  - reflexivity.
  - reflexivity.
  - vm_compute. reflexivity.
  - vm_compute. reflexivity.
Defined.

Lemma riscv_mmu_op_trap_frame_witness :
  [0; 0; 0; 0] = [0; 0; 0; 0]
  /\ tlb (hart (snd (@riscv_mmu_op rv32_build 0x00400000 [0; 0; 0; 0] 0 4 MMU_READ split_world)))
     = tlb (hart split_world)
  /\ (exists cause,
        traps (events (snd (@riscv_mmu_op rv32_build 0x00400000 [0; 0; 0; 0] 0 4 MMU_READ
                              split_world)))
        = traps (events split_world) ++ [(cause, 0x00400000)])
  /\ ((fst (@riscv_mmu_translate rv32_build 0x00400000 MMU_READ split_world) = None
       /\ hart (snd (@riscv_mmu_op rv32_build 0x00400000 [0; 0; 0; 0] 0 4 MMU_READ split_world))
          = hart split_world)
      \/ (exists paddr,
             fst (@riscv_mmu_translate rv32_build 0x00400000 MMU_READ split_world) = Some paddr
             /\ riscv_phys_translate (hart split_world) paddr = None
             /\ same_but_ram (hart split_world)
                  (hart (snd (@riscv_mmu_op rv32_build 0x00400000 [0; 0; 0; 0] 0 4 MMU_READ
                                split_world)))
             /\ (hart (snd (@riscv_mmu_op rv32_build 0x00400000 [0; 0; 0; 0] 0 4 MMU_READ
                             split_world))
                 = hart split_world
                 \/ exists ptr n,
                      leaf_at (ram_data (mem (hart split_world))) ptr n
                      /\ ad_bits_only (ram_data (mem (hart split_world)))
                           (ram_data (mem (hart (snd (@riscv_mmu_op rv32_build 0x00400000
                                                        [0; 0; 0; 0] 0 4 MMU_READ
                                                        split_world)))))
                           ptr n))).
Proof.
  apply (@riscv_mmu_op_trap_frame rv32_build 0x00400000 [0; 0; 0; 0] 0 4 MMU_READ split_world).
  - reflexivity.
  - vm_compute. reflexivity.
Defined.

(** ** MMIO size normalisation *)

Lemma land_aligned_mask w offset m :
  0 <= w -> Z.land (Z.land offset (wrap w (Z.lnot m))) m = 0.
Proof.
  intros Hw. apply Z.bits_inj'. intros i Hi.
  rewrite !Z.land_spec, Z.bits_0. unfold wrap.
  destruct (Z.ltb_spec i w) as [Hlo | Hhi].
  - rewrite Z.mod_pow2_bits_low, Z.lnot_spec by lia.
    destruct (Z.testbit m i); simpl.
    + rewrite andb_false_r. reflexivity.
    + apply andb_false_r.
  - rewrite Z.mod_pow2_bits_high by lia. rewrite andb_false_r. reflexivity.
Qed.

(** Whatever the device, the size and the offset: when the request is
    smaller than [min_op_size] or misaligned, the device is asked once, for
    [min_op_size] bytes at the aligned offset; the size the loop computes
    plays no part. *)
Lemma riscv_mmio_read_unaligned_small `{rvvm_build} {D} fuel (mmio : rvvm_mmio_dev_t D)
    (data : D) (dest : list mbyte) (size offset : Z) :
  0 <= XLEN ->
  min_op_size mmio <= max_op_size mmio ->
  size < min_op_size mmio \/ Z.land offset (wrap XLEN (min_op_size mmio - 1)) <> 0 ->
  grow_size 9 (min_op_size mmio)
            (size + wrap 8 (offset - Z.land offset
                                       (wrap XLEN (Z.lnot (wrap XLEN (min_op_size mmio - 1))))))
  <> None ->
  riscv_mmio_read_unaligned (S (S fuel)) mmio data dest size offset
  = let aligned_offset :=
        Z.land offset (wrap XLEN (Z.lnot (wrap XLEN (min_op_size mmio - 1)))) in
    let (bytes, data') := mmio_read mmio data (min_op_size mmio) aligned_offset in
    Some (overwrite (slice (overwrite (map Byte bytes) (replicate 16 Undef))
                           (wrap 8 (offset - aligned_offset)) size) dest,
          data', [mk_mmio_call (min_op_size mmio) aligned_offset]).
Proof.
  intros Hx Hmm Hsmall Hloop. cbv zeta.
  set (aligned := Z.land offset (wrap XLEN (Z.lnot (wrap XLEN (min_op_size mmio - 1))))) in *.
  assert (Hle : (min_op_size mmio <=? max_op_size mmio) = true) by (apply Z.leb_le; exact Hmm).
  assert (Hgt : (max_op_size mmio <? min_op_size mmio) = false) by (apply Z.ltb_ge; exact Hmm).
  assert (Hbr : (size <? min_op_size mmio)
                || negb (Z.land offset (wrap XLEN (min_op_size mmio - 1)) =? 0) = true).
  { destruct Hsmall as [Hs | Hs].
    - apply Z.ltb_lt in Hs. rewrite Hs. reflexivity.
    - apply Z.eqb_neq in Hs. rewrite Hs. apply orb_true_r. }
  assert (Hal : (min_op_size mmio <? min_op_size mmio)
                || negb (Z.land aligned (wrap XLEN (min_op_size mmio - 1)) =? 0) = false).
  { rewrite Z.ltb_irrefl. unfold aligned. rewrite land_aligned_mask by exact Hx. reflexivity. }
  change (riscv_mmio_read_unaligned (S (S fuel)) mmio data dest size offset)
    with (if negb (min_op_size mmio <=? max_op_size mmio) then None
          else if (size <? min_op_size mmio)
                  || negb (Z.land offset (wrap XLEN (min_op_size mmio - 1)) =? 0)
          then
            match grow_size 9 (min_op_size mmio) (size + wrap 8 (offset - aligned)) with
            | None => None
            | Some new_size =>
              match riscv_mmio_read_unaligned (S fuel) mmio data (replicate 16 Undef)
                                              (min_op_size mmio) aligned with
              | None => None
              | Some (tmp, data, calls) =>
                Some (overwrite (slice tmp (wrap 8 (offset - aligned)) size) dest, data, calls)
              end
            end
          else if max_op_size mmio <? size then
            match riscv_mmio_read_unaligned (S fuel) mmio data dest (Z.shiftr size 1) offset with
            | None => None
            | Some (dest, data, calls1) =>
              match riscv_mmio_read_unaligned (S fuel) mmio data
                      (drop (Z.to_nat (Z.shiftr size 1)) dest) (Z.shiftr size 1)
                      (wrap XLEN (offset + Z.shiftr size 1)) with
              | None => None
              | Some (dest2, data, calls2) =>
                Some (take (Z.to_nat (Z.shiftr size 1)) dest ++ dest2, data, calls1 ++ calls2)
              end
            end
          else
            let (bytes, data) := mmio_read mmio data size offset in
            Some (overwrite (map Byte bytes) dest, data, [mk_mmio_call size offset])).
  rewrite Hle, Hbr. simpl negb. cbv iota.
  destruct (grow_size 9 (min_op_size mmio) (size + wrap 8 (offset - aligned)));
    [| contradiction].
  simpl riscv_mmio_read_unaligned. fold aligned. rewrite Hle, Hal, Hgt. simpl negb. cbv iota.
  destruct (mmio_read mmio data (min_op_size mmio) aligned) as [bytes data']. reflexivity.
Qed.

(** C9 (the code departs from the claim).  A 4-byte read at offset 2 of a
    device with a 4-byte window needs the enclosing 8 bytes; the loop does
    compute 8, but the recursive call is made with [min_op_size]: one
    callback of 4 bytes at offset 0 is all the device sees, and the last two
    bytes copied to the destination are bytes of the automatic array that
    were never written.  This holds whatever the device returns. *)
Theorem riscv_mmio_read_unaligned_reads_min_size
    `{rvvm_build} {D} (rd : D -> Z -> Z -> list Z * D) (data : D) :
  XLEN = 32 \/ XLEN = 64 ->
  length (fst (rd data 4 0)) = 4%nat ->
  grow_size 9 4 (4 + 2) = Some 8
  /\ exists b2 b3,
       riscv_mmio_read_unaligned 2 (mk_mmio_dev 4 4 rd) data (replicate 4 Undef) 4 2
       = Some ([Byte b2; Byte b3; Undef; Undef], snd (rd data 4 0), [mk_mmio_call 4 0]).
Proof.
  intros Hx Hlen. split; [reflexivity |].
  destruct (rd data 4 0) as [bytes data'] eqn:Hrd. simpl in Hlen.
  destruct bytes as [| b0 [| b1 [| b2 [| b3 [| b4 bytes]]]]]; try discriminate.
  exists b2, b3.
  destruct Hx as [Hx | Hx]; simpl; rewrite Hx; simpl.
  - change (Z.land 2 (wrap 32 (Z.lnot (wrap 32 (4 - 1))))) with 0.
    rewrite Hrd. reflexivity.
  - change (Z.land 2 (wrap 64 (Z.lnot (wrap 64 (4 - 1))))) with 0.
    rewrite Hrd. reflexivity.
Qed.

Lemma riscv_mmio_read_unaligned_reads_min_size_witness :
  grow_size 9 4 (4 + 2) = Some 8
  /\ exists b2 b3,
       @riscv_mmio_read_unaligned rv32_build unit 2 (mk_mmio_dev 4 4 (mmio_read word_dev)) tt
                                  (replicate 4 Undef) 4 2
       = Some ([Byte b2; Byte b3; Undef; Undef], snd (mmio_read word_dev tt 4 0),
               [mk_mmio_call 4 0]).
Proof.
  apply (@riscv_mmio_read_unaligned_reads_min_size rv32_build unit (mmio_read word_dev) tt).
  - left; reflexivity.
  - reflexivity.
Defined.

(** ** Scenarios of the spec, run on the model *)

(** S1: a bare one-byte load yields the byte of the RAM. *)
Example bare_read :
  fst (@riscv_mmu_op rv32_build 0x80000100 [0] 0 1 MMU_READ bare_world)
  = Some (true, [0xAB]).
Proof. vm_compute. reflexivity. Qed.

(** S6: the execute-only page is readable with [status.MXR] only. *)
Example xonly_read_without_mxr :
  fst (@riscv_mmu_translate rv32_build 0x1000 MMU_READ (xonly_world 0)) = None.
Proof. vm_compute. reflexivity. Qed.

Example xonly_read_with_mxr :
  fst (@riscv_mmu_translate rv32_build 0x1000 MMU_READ (xonly_world (Z.shiftl 1 19)))
  = Some 0x80001000.
Proof. vm_compute. reflexivity. Qed.

(** S5: in M-mode with [status.MPRV] set and [status.MPP] = S, a load is
    walked; the unmapped address is refused, where a fetch passes
    untranslated. *)
Example mprv_load_is_walked :
  fst (@riscv_mmu_translate rv32_build 0x00400000 MMU_READ
         (mk_world (mk_hart PRIVILEGE_MACHINE (Z.lor (Z.shiftl 1 17) (Z.shiftl 1 11))
                            CSR_SATP_MODE_SV32 0x80400000 []
                            (mk_ram 0x80000000 0x401000 (write_le ∅ 0x400000 4 0x2000000F)))
                   [])) = None
  /\ fst (@riscv_mmu_translate rv32_build 0x00400000 MMU_EXEC
            (mk_world (mk_hart PRIVILEGE_MACHINE (Z.lor (Z.shiftl 1 17) (Z.shiftl 1 11))
                               CSR_SATP_MODE_SV32 0x80400000 []
                               (mk_ram 0x80000000 0x401000
                                       (write_le ∅ 0x400000 4 0x2000000F)))
                      [])) = Some 0x00400000.
Proof. split; vm_compute; reflexivity. Qed.

(** Property 8: a one-byte read at offset 2 of a device with a 4-byte
    window is one callback of 4 bytes at offset 0, and yields byte 2. *)
Example mmio_one_byte_read :
  @riscv_mmio_read_unaligned rv32_build unit 2 word_dev tt [Undef] 1 2
  = Some ([Byte 0xA2], tt, [mk_mmio_call 4 0]).
Proof. vm_compute. reflexivity. Qed.

(** * Further properties of the unit *)

(** ** TLB: single-page flush, eviction, pointers *)

Lemma pred_slot_differs n v : 2 <= n -> (v - 1) mod n <> v mod n.
Proof.
  intros Hn Heq.
  assert (H1 : (v - (v - 1)) mod n = 0).
  { rewrite Zminus_mod, Heq, Z.sub_diag. apply Z.mod_0_l. lia. }
  replace (v - (v - 1)) with 1 in H1 by lia.
  rewrite Z.mod_small in H1 by lia. discriminate.
Qed.

Lemma land_page_pnmask `{rvvm_build} v :
  12 <= XLEN -> 0 <= v < 2 ^ XLEN -> Z.land v PAGE_PNMASK = v - Z.land v PAGE_MASK.
Proof.
  intros Hx Hv. unfold PAGE_PNMASK, PAGE_MASK, wrap.
  assert (Hhi : Z.land v (Z.lnot 0xFFF mod 2 ^ XLEN) = Z.shiftl (Z.shiftr v 12) 12).
  { apply Z.bits_inj'. intros i Hi.
    rewrite Z.land_spec, Z.shiftl_spec by exact Hi.
    change 0xFFF with (Z.ones 12).
    destruct (Z.ltb_spec i 12) as [H12 | H12].
    - rewrite (Z.testbit_neg_r _ (i - 12)) by lia.
      rewrite Z.mod_pow2_bits_low, Z.lnot_spec, Z.ones_spec_low by lia.
      apply andb_false_r.
    - rewrite Z.shiftr_spec by lia. replace (i - 12 + 12) with i by lia.
      destruct (Z.ltb_spec i XLEN) as [Hlo | Hup].
      + rewrite Z.mod_pow2_bits_low, Z.lnot_spec, Z.ones_spec_high by lia.
        apply andb_true_r.
      + rewrite Z.mod_pow2_bits_high by lia.
        rewrite <- (Z.mod_small v (2 ^ XLEN)) by exact Hv.
        rewrite Z.mod_pow2_bits_high by lia. reflexivity. }
  rewrite Hhi, Z.shiftl_mul_pow2, Z.shiftr_div_pow2 by lia.
  change 0xFFF with (Z.ones 12). rewrite Z.land_ones by lia.
  pose proof (Z.div_mod v (2 ^ 12)) as Hdm. lia.
Qed.

Section TlbMore.
Context `{rvvm_build}.

Lemma tlb_at_store_ne vm i j e :
  Z.to_nat i <> Z.to_nat j -> tlb_at (tlb_store i e vm) j = tlb_at vm j.
Proof.
  intros Hne. unfold tlb_at, tlb_store, set_tlb. simpl.
  rewrite list_lookup_insert_ne by exact Hne. reflexivity.
Qed.

Lemma tlb_store_length vm i e : length (tlb (tlb_store i e vm)) = length (tlb vm).
Proof. unfold tlb_store, set_tlb. simpl. apply length_insert. Qed.

Lemma tlb_slot_nat_ne x y :
  0 <= TLB_BITS -> Z.land x TLB_MASK <> Z.land y TLB_MASK ->
  Z.to_nat (Z.land x TLB_MASK) <> Z.to_nat (Z.land y TLB_MASK).
Proof.
  intros Hb Hne Heq. apply Hne. rewrite !land_tlb_mask in * by exact Hb.
  assert (Hs : 0 < TLB_SIZE) by (unfold TLB_SIZE; apply Z.pow_pos_nonneg; lia).
  pose proof (Z.mod_pos_bound x TLB_SIZE Hs).
  pose proof (Z.mod_pos_bound y TLB_SIZE Hs).
  apply Z2Nat.inj; lia.
Qed.

(** A lookup misses when no tag of the slot is the VPN. *)
Lemma riscv_tlb_lookup_miss vm vaddr op :
  tlb_r (tlb_at vm (tlb_slot vaddr)) <> Z.shiftr vaddr PAGE_SHIFT ->
  tlb_w (tlb_at vm (tlb_slot vaddr)) <> Z.shiftr vaddr PAGE_SHIFT ->
  tlb_e (tlb_at vm (tlb_slot vaddr)) <> Z.shiftr vaddr PAGE_SHIFT ->
  riscv_tlb_lookup vm vaddr op = None.
Proof.
  intros Hr Hw He. unfold riscv_tlb_lookup. fold (tlb_slot vaddr).
  apply Z.eqb_neq in Hr, Hw, He.
  repeat (destruct (op =? _)); rewrite ?Hr, ?Hw, ?He; reflexivity.
Qed.

(** The tag [vpn - 1] is not the VPN of any address of the same slot, once
    the TLB has at least two slots. *)
Lemma neighbour_tag_misses vaddr vpn :
  1 <= TLB_BITS -> 12 < XLEN -> 0 <= vaddr < 2 ^ XLEN -> 0 <= vpn < 2 ^ XLEN ->
  Z.land (Z.shiftr vaddr PAGE_SHIFT) TLB_MASK = Z.land vpn TLB_MASK ->
  wrap XLEN (vpn - 1) <> Z.shiftr vaddr PAGE_SHIFT.
Proof.
  intros Hb Hx Hv Hvpn Hslot Heq.
  assert (Hx' : 12 <= XLEN) by lia.
  pose proof (vpn_range XLEN vaddr Hx' Hv) as Hr.
  assert (Hpos : 0 < 2 ^ (XLEN - 12)) by (apply Z.pow_pos_nonneg; lia).
  assert (Hpow : 2 * 2 ^ (XLEN - 12) <= 2 ^ XLEN).
  { replace (2 * 2 ^ (XLEN - 12)) with (2 ^ (1 + (XLEN - 12))).
    - apply Z.pow_le_mono_r; lia.
    - rewrite Z.pow_add_r by lia. reflexivity. }
  destruct (Z.eq_dec vpn 0) as [-> | Hnz].
  - unfold wrap in Heq. replace (0 - 1) with (2 ^ XLEN - 1 + (-1) * 2 ^ XLEN) in Heq by lia.
    rewrite Z.mod_add, Z.mod_small in Heq by lia. lia.
  - rewrite wrap_small in Heq by lia.
    rewrite <- Heq in Hslot. rewrite !land_tlb_mask in Hslot by lia.
    assert (H2 : 2 <= TLB_SIZE).
    { unfold TLB_SIZE. change 2 with (2 ^ 1) at 1. apply Z.pow_le_mono_r; lia. }
    exact (pred_slot_differs TLB_SIZE vpn H2 Hslot).
Qed.

(** The entry [riscv_tlb_flush_page] leaves in the slot of [addr]. *)
Lemma riscv_tlb_flush_page_tlb vm addr :
  0 <= TLB_BITS -> length (tlb vm) = Z.to_nat TLB_SIZE ->
  riscv_tlb_flush_page vm addr
  = tlb_store (tlb_slot addr)
      (mk_tlb_entry (wrap XLEN (Z.shiftr addr PAGE_SHIFT - 1))
                    (wrap XLEN (Z.shiftr addr PAGE_SHIFT - 1))
                    (wrap XLEN (Z.shiftr addr PAGE_SHIFT - 1))
                    (tlb_ptr (tlb_at vm (tlb_slot addr)))) vm.
Proof.
  intros Hb Hlen. unfold riscv_tlb_flush_page. fold (tlb_slot addr).
  assert (Hin : forall vm', length (tlb vm') = Z.to_nat TLB_SIZE ->
                            (Z.to_nat (tlb_slot addr) < length (tlb vm'))%nat).
  { intros vm' Hl. rewrite Hl. apply tlb_slot_range. exact Hb. }
  rewrite !tlb_at_store_eq
    by (apply Hin; rewrite ?tlb_store_length; exact Hlen).
  rewrite !tlb_store_store. reflexivity.
Qed.

(** X1.  [riscv_tlb_flush_page] empties the slot of the page: afterwards a
    lookup misses for every access class, for the flushed page and for any
    other page that shares its slot (the TLB having at least two slots). *)
Theorem riscv_tlb_flush_page_slot_misses vm addr vaddr op :
  1 <= TLB_BITS -> 12 < XLEN ->
  0 <= addr < 2 ^ XLEN -> 0 <= vaddr < 2 ^ XLEN ->
  length (tlb vm) = Z.to_nat TLB_SIZE ->
  tlb_slot vaddr = tlb_slot addr ->
  riscv_tlb_lookup (riscv_tlb_flush_page vm addr) vaddr op = None.
Proof.
  intros Hb Hx Ha Hv Hlen Hslot.
  assert (Hx' : 12 <= XLEN) by lia.
  pose proof (vpn_range XLEN addr Hx' Ha) as Hvpn.
  assert (Hle : 2 ^ (XLEN - 12) <= 2 ^ XLEN) by (apply Z.pow_le_mono_r; lia).
  assert (Htag : wrap XLEN (Z.shiftr addr PAGE_SHIFT - 1) <> Z.shiftr vaddr PAGE_SHIFT).
  { apply neighbour_tag_misses; try assumption; lia. }
  rewrite riscv_tlb_flush_page_tlb by (try assumption; lia).
  apply riscv_tlb_lookup_miss; rewrite Hslot, tlb_at_store_eq
    by (rewrite Hlen; apply tlb_slot_range; lia); exact Htag.
Qed.

(** X2.  [riscv_tlb_flush_page] is local: a lookup of an address cached in
    another slot gives what it gave before. *)
Theorem riscv_tlb_flush_page_other_slot vm addr vaddr op :
  0 <= TLB_BITS -> length (tlb vm) = Z.to_nat TLB_SIZE ->
  tlb_slot vaddr <> tlb_slot addr ->
  riscv_tlb_lookup (riscv_tlb_flush_page vm addr) vaddr op = riscv_tlb_lookup vm vaddr op.
Proof.
  intros Hb Hlen Hslot. rewrite riscv_tlb_flush_page_tlb by assumption.
  unfold riscv_tlb_lookup. fold (tlb_slot vaddr).
  rewrite tlb_at_store_ne; [reflexivity |].
  intros Heq. apply (tlb_slot_nat_ne _ _ Hb) in Heq; [exact Heq |].
  intros Hs. apply Hslot. symmetry. exact Hs.
Qed.

(** The tags [riscv_tlb_put] leaves are the VPN or its predecessor. *)
Lemma tlb_put_tags_range entry vpn op :
  let e := fst (tlb_put_tags entry vpn op) in
  (tlb_r e = vpn \/ tlb_r e = wrap XLEN (vpn - 1))
  /\ (tlb_w e = vpn \/ tlb_w e = wrap XLEN (vpn - 1))
  /\ (tlb_e e = vpn \/ tlb_e e = wrap XLEN (vpn - 1)).
Proof.
  unfold tlb_put_tags.
  destruct (op =? MMU_READ); [| destruct (op =? MMU_WRITE); [| destruct (op =? MMU_EXEC)]];
    simpl;
    repeat match goal with
           | |- context [?a =? vpn] => destruct (Z.eqb_spec a vpn)
           end; auto.
Qed.

(** X3.  [riscv_tlb_put] evicts: once a page is put into a slot, a lookup
    of any other page that shares the slot misses for every access class,
    whatever the slot held before and whatever [op] is. *)
Theorem riscv_tlb_put_evicts_slot_mates w vaddr paddr op vaddr' op' :
  1 <= TLB_BITS -> 12 < XLEN ->
  0 <= vaddr < 2 ^ XLEN -> 0 <= vaddr' < 2 ^ XLEN ->
  length (tlb (hart w)) = Z.to_nat TLB_SIZE ->
  is_Some (riscv_phys_translate (hart w) (Z.land paddr PAGE_PNMASK)) ->
  tlb_slot vaddr' = tlb_slot vaddr ->
  Z.shiftr vaddr' PAGE_SHIFT <> Z.shiftr vaddr PAGE_SHIFT ->
  riscv_tlb_lookup (hart (snd (riscv_tlb_put vaddr paddr op w))) vaddr' op' = None.
Proof.
  intros Hb Hx Hv Hv' Hlen [ptr Hptr] Hslot Hvpn.
  assert (Hx' : 12 <= XLEN) by lia.
  pose proof (vpn_range XLEN vaddr Hx' Hv) as Hr.
  assert (Hle : 2 ^ (XLEN - 12) <= 2 ^ XLEN) by (apply Z.pow_le_mono_r; lia).
  assert (Htag : wrap XLEN (Z.shiftr vaddr PAGE_SHIFT - 1) <> Z.shiftr vaddr' PAGE_SHIFT).
  { apply neighbour_tag_misses; try assumption; lia. }
  rewrite (riscv_tlb_put_hart _ _ _ _ _ Hptr). cbv zeta. fold (tlb_slot vaddr).
  destruct (tlb_put_tags_range (tlb_at (hart w) (tlb_slot vaddr))
              (Z.shiftr vaddr PAGE_SHIFT) op) as (Hr' & Hw' & He').
  cbv zeta in Hr', Hw', He'.
  apply riscv_tlb_lookup_miss; rewrite Hslot, tlb_at_store_eq
    by (rewrite Hlen; apply tlb_slot_range; lia); simpl;
    [destruct Hr' as [-> | ->] | destruct Hw' as [-> | ->] | destruct He' as [-> | ->]];
    try exact Htag; intros Heq; apply Hvpn; symmetry; exact Heq.
Qed.

(** X4.  An [op] that is none of the three access classes makes
    [riscv_tlb_put] complain once and drop the page from the slot: no
    lookup of the address hits afterwards. *)
Theorem riscv_tlb_put_unknown_op w vaddr paddr op op' :
  0 <= TLB_BITS -> 0 < XLEN -> 0 <= vaddr < 2 ^ XLEN ->
  length (tlb (hart w)) = Z.to_nat TLB_SIZE ->
  is_Some (riscv_phys_translate (hart w) (Z.land paddr PAGE_PNMASK)) ->
  ~ is_access op ->
  events (snd (riscv_tlb_put vaddr paddr op w)) = events w ++ [EvError]
  /\ riscv_tlb_lookup (hart (snd (riscv_tlb_put vaddr paddr op w))) vaddr op' = None.
Proof.
  intros Hb Hx Hv Hlen [ptr Hptr] Hop.
  assert (Htags : tlb_put_tags (tlb_at (hart w) (tlb_slot vaddr))
                               (Z.shiftr vaddr PAGE_SHIFT) op
                  = (mk_tlb_entry (wrap XLEN (Z.shiftr vaddr PAGE_SHIFT - 1))
                                  (wrap XLEN (Z.shiftr vaddr PAGE_SHIFT - 1))
                                  (wrap XLEN (Z.shiftr vaddr PAGE_SHIFT - 1))
                                  (tlb_ptr (tlb_at (hart w) (tlb_slot vaddr))), true)).
  { unfold tlb_put_tags, is_access in *.
    destruct (Z.eqb_spec op MMU_READ); [exfalso; auto |].
    destruct (Z.eqb_spec op MMU_WRITE); [exfalso; auto |].
    destruct (Z.eqb_spec op MMU_EXEC); [exfalso; auto |]. reflexivity. }
  split.
  - unfold riscv_tlb_put, bind, get_hart. cbv zeta. rewrite Hptr.
    fold (tlb_slot vaddr). rewrite Htags. reflexivity.
  - rewrite (riscv_tlb_put_hart _ _ _ _ _ Hptr). cbv zeta. fold (tlb_slot vaddr).
    rewrite Htags.
    assert (Hvpn : 0 <= Z.shiftr vaddr PAGE_SHIFT < 2 ^ XLEN).
    { unfold PAGE_SHIFT. rewrite Z.shiftr_div_pow2 by lia. split.
      - apply Z.div_pos; lia.
      - apply Z.div_lt_upper_bound; [lia |].
        assert (0 < 2 ^ XLEN) by (apply Z.pow_pos_nonneg; lia). nia. }
    pose proof (wrap_pred_ne XLEN _ Hx Hvpn) as Hne.
    apply riscv_tlb_lookup_miss; rewrite tlb_at_store_eq
      by (rewrite Hlen; apply tlb_slot_range; lia); exact Hne.
Qed.

(** X5.  [riscv_tlb_put] touches one slot and nothing else: the RAM is as
    before, and a lookup of an address cached in another slot gives what it
    gave before; when the page of [paddr] is not backed by RAM the world is
    left as it was. *)
Theorem riscv_tlb_put_local w vaddr paddr op :
  0 <= TLB_BITS ->
  mem (hart (snd (riscv_tlb_put vaddr paddr op w))) = mem (hart w)
  /\ (forall vaddr' op',
         tlb_slot vaddr' <> tlb_slot vaddr ->
         riscv_tlb_lookup (hart (snd (riscv_tlb_put vaddr paddr op w))) vaddr' op'
         = riscv_tlb_lookup (hart w) vaddr' op')
  /\ (riscv_phys_translate (hart w) (Z.land paddr PAGE_PNMASK) = None ->
      riscv_tlb_put vaddr paddr op w = (tt, w)).
Proof.
  intros Hb.
  destruct (riscv_phys_translate (hart w) (Z.land paddr PAGE_PNMASK)) as [ptr |] eqn:Hptr.
  - rewrite (riscv_tlb_put_hart _ _ _ _ _ Hptr). cbv zeta. fold (tlb_slot vaddr).
    split; [reflexivity |]. split; [| discriminate].
    intros vaddr' op' Hslot. unfold riscv_tlb_lookup. fold (tlb_slot vaddr').
    rewrite tlb_at_store_ne; [reflexivity |].
    intros Heq. apply (tlb_slot_nat_ne _ _ Hb) in Heq; [exact Heq |].
    intros Hs. apply Hslot. symmetry. exact Hs.
  - assert (Hrun : riscv_tlb_put vaddr paddr op w = (tt, w)).
    { unfold riscv_tlb_put, bind, get_hart. cbv zeta. rewrite Hptr. reflexivity. }
    rewrite Hrun. split; [reflexivity |]. split; [reflexivity |]. intros _. reflexivity.
Qed.

(** X6.  A hit after [riscv_tlb_put] reconstructs the host pointer: for
    every address of the page that was put, the lookup for the class that
    was put yields the host pointer of the page of [paddr] plus the page
    offset of the address. *)
Theorem riscv_tlb_put_hit_pointer w vaddr paddr op vaddr' ptr :
  0 <= TLB_BITS -> 12 <= XLEN ->
  0 <= vaddr < 2 ^ XLEN -> 0 <= vaddr' < 2 ^ XLEN ->
  length (tlb (hart w)) = Z.to_nat TLB_SIZE ->
  is_access op ->
  riscv_phys_translate (hart w) (Z.land paddr PAGE_PNMASK) = Some ptr ->
  Z.shiftr vaddr' PAGE_SHIFT = Z.shiftr vaddr PAGE_SHIFT ->
  riscv_tlb_lookup (hart (snd (riscv_tlb_put vaddr paddr op w))) vaddr' op
  = Some (ptr + Z.land vaddr' PAGE_MASK).
Proof.
  intros Hb Hx Hv Hv' Hlen Hop Hptr Hvpn.
  rewrite (riscv_tlb_put_hart _ _ _ _ _ Hptr). cbv zeta.
  unfold riscv_tlb_lookup. rewrite Hvpn.
  rewrite tlb_at_store_eq by (rewrite Hlen; apply tlb_slot_range; exact Hb).
  assert (Hbase : Z.land vaddr PAGE_PNMASK = vaddr' - Z.land vaddr' PAGE_MASK).
  { rewrite (land_page_pnmask vaddr Hx Hv).
    unfold PAGE_MASK. change 0xFFF with (Z.ones 12). rewrite !Z.land_ones by lia.
    unfold PAGE_SHIFT in Hvpn. rewrite !Z.shiftr_div_pow2 in Hvpn by lia.
    pose proof (Z.div_mod vaddr (2 ^ 12)). pose proof (Z.div_mod vaddr' (2 ^ 12)). lia. }
  simpl tlb_ptr. rewrite Hbase.
  assert (Hself : (Z.shiftr vaddr PAGE_SHIFT =? Z.shiftr vaddr PAGE_SHIFT) = true)
    by apply Z.eqb_refl.
  destruct Hop as [-> | [-> | ->]]; unfold tlb_put_tags; simpl; rewrite Hself;
    f_equal; lia.
Qed.

End TlbMore.

(** ** RAM: creation and release *)

Lemma land_page_mask_mod x : Z.land x PAGE_MASK = x mod 4096.
Proof.
  unfold PAGE_MASK. change 0xFFF with (Z.ones 12). rewrite Z.land_ones by lia. reflexivity.
Qed.

(** X7.  [riscv_init_ram] succeeds exactly when both bounds are multiples
    of the page size and the allocation succeeded; the RAM it yields spans
    the bounds given and reads 0 at every offset. *)
Theorem riscv_init_ram_result alloc begin size :
  (is_Some (riscv_init_ram alloc begin size)
   <-> begin mod 4096 = 0 /\ size mod 4096 = 0 /\ alloc = true)
  /\ (forall m, riscv_init_ram alloc begin size = Some m ->
                ram_begin m = begin /\ ram_size m = size
                /\ forall off n, read_le (ram_data m) off n = 0).
Proof.
  unfold riscv_init_ram. rewrite !land_page_mask_mod.
  destruct (Z.eqb_spec (begin mod 4096) 0) as [Hb | Hb];
    destruct (Z.eqb_spec (size mod 4096) 0) as [Hs | Hs];
    destruct alloc; simpl; split;
      try (split; [intros [m Hm]; discriminate | intros (H1 & H2 & H3); congruence]);
      try (intros m Hm; discriminate).
  - split; [intros _; auto | intros _; eexists; reflexivity].
  - intros m Hm. injection Hm as <-. simpl. split; [reflexivity |]. split; [reflexivity |].
    intros off n. revert off. induction n as [| n IH]; intros off; [reflexivity |].
    change (read_le ∅ off (S n)) with (ram_byte ∅ off + 256 * read_le ∅ (off + 1) n).
    rewrite IH. reflexivity.
Qed.

(** X8.  A RAM made by [riscv_init_ram] consists of whole pages: when a
    physical address is backed by it, so is every address of its page, at
    the host pointer of the address moved by the difference of the page
    offsets. *)
Theorem riscv_init_ram_whole_pages `{rvvm_build} alloc begin size vm paddr ptr off :
  riscv_init_ram alloc begin size = Some (mem vm) ->
  12 <= XLEN -> 0 <= paddr < 2 ^ XLEN ->
  riscv_phys_translate vm paddr = Some ptr ->
  0 <= off < PAGE_SIZE ->
  riscv_phys_translate vm (Z.land paddr PAGE_PNMASK + off)
  = Some (ptr - Z.land paddr PAGE_MASK + off).
Proof.
  intros Hinit Hx Hp Hptr Hoff.
  unfold riscv_init_ram in Hinit. rewrite !land_page_mask_mod in Hinit.
  destruct (Z.eqb_spec (begin mod 4096) 0) as [Hb | Hb]; [| discriminate].
  destruct (Z.eqb_spec (size mod 4096) 0) as [Hs | Hs]; [| discriminate].
  destruct alloc; [| discriminate]. simpl in Hinit. injection Hinit as Hmem.
  rewrite land_page_pnmask by assumption. rewrite land_page_mask_mod.
  unfold riscv_phys_translate, PAGE_SIZE in *. rewrite <- Hmem in *. simpl in *.
  destruct (Z.leb_spec begin paddr) as [H1 | H1]; [| discriminate].
  destruct (Z.ltb_spec paddr (begin + size)) as [H2 | H2]; [| discriminate].
  simpl in Hptr. injection Hptr as <-.
  assert (Hlo : begin <= paddr - paddr mod 4096 + off).
  { revert Hb H1 Hoff. Z.div_mod_to_equations. lia. }
  assert (Hhi : paddr - paddr mod 4096 + off < begin + size).
  { revert Hb Hs H1 H2 Hoff. Z.div_mod_to_equations. lia. }
  apply Z.leb_le in Hlo. apply Z.ltb_lt in Hhi. rewrite Hlo, Hhi. simpl.
  f_equal. lia.
Qed.

(** ** Walks: what is granted, and at what cost *)

Section WalkMore.
Context `{rvvm_build}.

Lemma pte_loads_error evs : pte_loads (evs ++ [EvError]) = pte_loads evs.
Proof.
  induction evs as [| e evs IH]; [reflexivity |].
  destruct e; simpl; rewrite ?IH; reflexivity.
Qed.

(** A granted walk ends at a leaf that grants the access. *)
Lemma pt_run_granted fmt iters pagetable bit_off vaddr access w pa w' :
  pt_run fmt iters pagetable bit_off vaddr access w = (Some pa, w') ->
  exists loads ptr pte bit_off',
    pt_path fmt (hart w) iters pagetable bit_off vaddr = (loads, PtLeaf ptr pte bit_off')
    /\ leaf_ok fmt access pte bit_off' = true
    /\ pa = leaf_paddr fmt vaddr pte bit_off'.
Proof.
  unfold pt_run.
  destruct (pt_path fmt (hart w) iters pagetable bit_off vaddr) as [loads o].
  destruct o as [ptr pte bo |]; [| discriminate].
  destruct (leaf_ok fmt access pte bo) eqn:Hok; [| discriminate].
  intros Heq. injection Heq as <- _.
  exists loads, ptr, pte, bo. repeat split. exact Hok.
Qed.

Lemma pt_path_length fmt vm iters pagetable bit_off vaddr :
  (length (fst (pt_path fmt vm iters pagetable bit_off vaddr)) <= iters)%nat.
Proof.
  revert pagetable bit_off. induction iters as [| iters IH]; intros pagetable bit_off.
  - simpl. lia.
  - simpl. destruct (riscv_phys_translate vm _); [| simpl; lia].
    destruct (_ =? 0); [simpl; lia |].
    destruct (negb _); [simpl; lia |].
    destruct (_ =? 0); [| simpl; lia].
    specialize (IH (pf_next fmt (read_le (ram_data (mem vm)) z (pf_pte_bytes fmt)))
                   (wrap BITCNT_BITS (bit_off - pf_vpn_bits fmt))).
    destruct (pt_path fmt vm iters _ _ vaddr) as [loads o]. simpl in *. lia.
Qed.

(** The walk of a translation: the table format, the number of levels and
    the initial shift the mode of the hart selects. *)
Lemma translate_by_mode_walk vaddr access w pa w' :
  mmu_mode (hart w) <> CSR_SATP_MODE_PHYS ->
  translate_by_mode vaddr access w = (Some pa, w') ->
  exists iters bit_off,
    pt_run (page_format (hart w)) iters (root_page_table (hart w)) bit_off vaddr access w
    = (Some pa, w').
Proof.
  intros Hmode. rewrite translate_by_mode_run. unfold page_format.
  apply Z.eqb_neq in Hmode. rewrite Hmode.
  destruct (mmu_mode (hart w) =? CSR_SATP_MODE_SV32).
  - intros Hrun. eexists _, _. exact Hrun.
  - destruct (rv64_levels (mmu_mode (hart w))) as [sv_levels |]; [| discriminate].
    destruct (vaddr =? _); [| discriminate].
    intros Hrun. eexists _, _. exact Hrun.
Qed.

(** X9.  The walker grants nothing the leaf does not permit: a translation
    that is subject to paging and succeeds has found, in the RAM, a valid
    leaf entry that has R or X set and carries the permission checked: W
    for a store, X for a fetch, and for a load R, or X when [status.MXR] is
    set. *)
Theorem riscv_mmu_translate_permitted w vaddr access pa w' :
  is_access access ->
  effective_priv (hart w) access <= PRIVILEGE_SUPERVISOR ->
  mmu_mode (hart w) <> CSR_SATP_MODE_PHYS ->
  riscv_mmu_translate vaddr access w = (Some pa, w') ->
  exists pte_pa ptr n,
    riscv_phys_translate (hart w) pte_pa = Some ptr
    /\ (n = 4%nat \/ n = 8%nat)
    /\ let pte := read_le (ram_data (mem (hart w))) ptr n in
       Z.testbit pte 0 = true
       /\ (Z.testbit pte 1 = true \/ Z.testbit pte 3 = true)
       /\ (access = MMU_WRITE -> Z.testbit pte 2 = true)
       /\ (access = MMU_EXEC -> Z.testbit pte 3 = true)
       /\ (access = MMU_READ ->
           if status_mxr (hart w) then Z.testbit pte 3 = true else Z.testbit pte 1 = true).
Proof.
  intros Hacc Hpriv Hmode. rewrite riscv_mmu_translate_resolve.
  apply Z.leb_le in Hpriv. rewrite Hpriv. intros Hrun.
  destruct (translate_by_mode_walk _ _ _ _ _ Hmode Hrun) as (iters & bit_off & Hwalk).
  destruct (pt_run_granted _ _ _ _ _ _ _ _ _ Hwalk)
    as (loads & ptr & pte & bo & Hpath & Hok & _).
  destruct (pt_path_leaf _ _ _ _ _ _ _ _ _ _ Hpath)
    as (Hpte & Hleafat & pte_pa & _ & Hpa).
  exists pte_pa, ptr, (pf_pte_bytes (page_format (hart w))).
  split; [exact Hpa |]. split.
  { unfold page_format. destruct (_ =? _); [left | right]; reflexivity. }
  cbv zeta. rewrite <- Hpte. unfold leaf_at in Hleafat. rewrite <- Hpte in Hleafat.
  destruct Hleafat as [Hvalid Hleaf].
  unfold leaf_ok in Hok. apply andb_true_iff in Hok as [Hgrant _].
  apply negb_true_iff in Hgrant.
  assert (Hbit : forall k, 0 <= k -> Z.land pte (2 ^ k) <> 0 -> Z.testbit pte k = true).
  { intros k Hk Hne. apply Z.eqb_neq in Hne. rewrite land_access_bit in Hne by exact Hk.
    apply negb_false_iff in Hne. exact Hne. }
  split; [apply (Hbit 0); [lia | exact Hvalid] |].
  split.
  { destruct (Z.testbit pte 1) eqn:H1; [left; reflexivity | right].
    destruct (Z.testbit pte 3) eqn:H3; [reflexivity | exfalso].
    apply Hleaf. apply Z.bits_inj'. intros i Hi.
    rewrite Z.land_spec, Z.bits_0. unfold MMU_LEAF_PTE.
    destruct (Z.eq_dec i 1) as [-> | Hn1]; [rewrite H1; reflexivity |].
    destruct (Z.eq_dec i 3) as [-> | Hn3]; [rewrite H3; reflexivity |].
    replace (Z.testbit 10 i) with false; [apply andb_false_r |].
    symmetry. change 10 with (Z.lor (2 ^ 1) (2 ^ 3)).
    rewrite Z.lor_spec, !Z.pow2_bits_eqb by lia.
    apply orb_false_iff. split; apply Z.eqb_neq; lia. }
  unfold effective_access in Hgrant.
  split; [| split].
  - intros ->. change (MMU_WRITE =? MMU_READ) with false in Hgrant.
    rewrite andb_false_r in Hgrant. apply (Hbit 2); [lia |]. apply Z.eqb_neq. exact Hgrant.
  - intros ->. change (MMU_EXEC =? MMU_READ) with false in Hgrant.
    rewrite andb_false_r in Hgrant. apply (Hbit 3); [lia |]. apply Z.eqb_neq. exact Hgrant.
  - intros ->. change (MMU_READ =? MMU_READ) with true in Hgrant.
    rewrite andb_true_r in Hgrant.
    destruct (status_mxr (hart w)).
    + apply (Hbit 3); [lia |]. apply Z.eqb_neq. exact Hgrant.
    + apply (Hbit 1); [lia |]. apply Z.eqb_neq. exact Hgrant.
Qed.

(** X10.  A translation that is refused changes nothing: the hart (RAM with
    its page tables, TLB, registers) is as before, and no trap has been
    raised yet; in particular a leaf without the permission gets no A or D
    bit. *)
Theorem riscv_mmu_translate_refused_unchanged vaddr access w w' :
  riscv_mmu_translate vaddr access w = (None, w') ->
  hart w' = hart w /\ traps (events w') = traps (events w).
Proof.
  intros Hrun.
  destruct (riscv_mmu_translate_effect _ _ _ _ _ Hrun) as (_ & Htraps & Hhart).
  split; assumption.
Qed.

(** X11.  A translation costs a bounded number of loads: what it adds to
    the record of page-table loads is at most 2 entries under Sv32 and at
    most 5 under any mode, and nothing in bare mode. *)
Theorem riscv_mmu_translate_bounded_loads vaddr access w :
  exists loads,
    pte_loads (events (snd (riscv_mmu_translate vaddr access w)))
    = pte_loads (events w) ++ loads
    /\ (length loads <= 5)%nat
    /\ (mmu_mode (hart w) = CSR_SATP_MODE_SV32 -> (length loads <= 2)%nat)
    /\ (mmu_mode (hart w) = CSR_SATP_MODE_PHYS -> loads = []).
Proof.
  rewrite riscv_mmu_translate_resolve.
  assert (Hnil : forall r, exists loads,
             pte_loads (events (snd ((r : option Z), w))) = pte_loads (events w) ++ loads
             /\ (length loads <= 5)%nat
             /\ (mmu_mode (hart w) = CSR_SATP_MODE_SV32 -> (length loads <= 2)%nat)
             /\ (mmu_mode (hart w) = CSR_SATP_MODE_PHYS -> loads = [])).
  { intros r. exists []. simpl. rewrite app_nil_r. repeat split; simpl; lia. }
  destruct (effective_priv (hart w) access <=? PRIVILEGE_SUPERVISOR); [| apply Hnil].
  rewrite translate_by_mode_run.
  destruct (Z.eqb_spec (mmu_mode (hart w)) CSR_SATP_MODE_PHYS) as [Hphys | Hphys];
    [apply Hnil |].
  destruct (Z.eqb_spec (mmu_mode (hart w)) CSR_SATP_MODE_SV32) as [H32 | H32].
  - eexists. rewrite pt_run_events, pte_loads_app. split; [reflexivity |].
    pose proof (pt_path_length sv32_format (hart w) (Z.to_nat SV32_LEVELS)
                  (root_page_table (hart w))
                  (wrap BITCNT_BITS (SV32_VPN_BITS + PAGE_SHIFT)) vaddr) as Hlen.
    change (Z.to_nat SV32_LEVELS) with 2%nat in *.
    split; [lia |]. split; [intros _; exact Hlen | intros Hc; contradiction].
  - destruct (rv64_levels (mmu_mode (hart w))) as [sv_levels |] eqn:Hlv.
    + destruct (vaddr =? _); [| apply Hnil].
      eexists. rewrite pt_run_events, pte_loads_app. split; [reflexivity |].
      pose proof (pt_path_length rv64_format (hart w) (Z.to_nat sv_levels)
                    (root_page_table (hart w)) (rv64_bit_off sv_levels) vaddr) as Hlen.
      assert (Hlv5 : (Z.to_nat sv_levels <= 5)%nat).
      { unfold rv64_levels in Hlv. destruct (negb _); [discriminate |].
        repeat (destruct (_ =? _); [injection Hlv as <-; vm_compute; lia |]).
        discriminate. }
      split; [lia |]. split; intros Hc; contradiction.
    + exists []. simpl.
      rewrite pte_loads_error, app_nil_r. repeat split; simpl; try lia; intros Hc; contradiction.
Qed.

End WalkMore.

(** ** Sv32: the physical address of a granted walk *)

Section Sv32More.
Context `{rvvm_build}.

Lemma pt_path_two_levels fmt vm pagetable bit_off vaddr loads ptr pte bit_off' :
  pt_path fmt vm 2 pagetable bit_off vaddr = (loads, PtLeaf ptr pte bit_off') ->
  bit_off' = bit_off \/ bit_off' = wrap BITCNT_BITS (bit_off - pf_vpn_bits fmt).
Proof.
  simpl.
  destruct (riscv_phys_translate vm _) as [p1 |]; [| discriminate].
  destruct (_ =? 0); [discriminate |].
  destruct (negb _); [intros Heq; injection Heq as _ _ _ <-; left; reflexivity |].
  destruct (_ =? 0); [| discriminate].
  destruct (riscv_phys_translate vm _) as [p2 |]; [| discriminate].
  destruct (_ =? 0); [discriminate |].
  destruct (negb _); [intros Heq; injection Heq as _ _ _ <-; right; reflexivity |].
  destruct (_ =? 0); discriminate.
Qed.

Lemma leaf_paddr_page_offset fmt vaddr pte bit_off :
  12 <= XLEN -> 12 <= bit_off ->
  Z.land (leaf_paddr fmt vaddr pte bit_off) PAGE_MASK = Z.land vaddr PAGE_MASK.
Proof.
  intros Hx Hbo. unfold leaf_paddr, PAGE_MASK, wrap, bit_mask.
  change 0xFFF with (Z.ones 12).
  apply Z.bits_inj'. intros i Hi.
  rewrite !Z.land_spec, Z.lor_spec, !Z.land_spec.
  destruct (Z.ltb_spec i 12) as [H12 | H12].
  - rewrite Z.ones_spec_low by lia. rewrite !andb_true_r.
    rewrite !Z.mod_pow2_bits_low by lia.
    rewrite (Z.shiftl_spec _ bit_off i) by lia.
    rewrite (Z.testbit_neg_r _ (i - bit_off)) by lia.
    rewrite andb_false_r. simpl.
    rewrite Z.shiftl_1_l. replace (2 ^ bit_off - 1) with (Z.ones bit_off)
      by (rewrite Z.ones_equiv; lia).
    rewrite Z.ones_spec_low by lia. apply andb_true_r.
  - rewrite Z.ones_spec_high by lia. rewrite !andb_false_r. reflexivity.
Qed.

(** X12.  An Sv32 translation keeps the page offset: the low 12 bits of the
    physical address are those of the virtual address, for 4 KiB pages and
    for 4 MiB superpages alike. *)
Theorem riscv_mmu_translate_sv32_page_offset w vaddr access pa w' :
  12 <= XLEN -> 5 <= BITCNT_BITS ->
  riscv_mmu_translate_sv32 vaddr access w = (Some pa, w') ->
  Z.land pa PAGE_MASK = Z.land vaddr PAGE_MASK.
Proof.
  intros Hx Hb. rewrite riscv_mmu_translate_sv32_run. intros Hrun.
  destruct (pt_run_granted _ _ _ _ _ _ _ _ _ Hrun)
    as (loads & ptr & pte & bo & Hpath & _ & ->).
  change (Z.to_nat SV32_LEVELS) with 2%nat in Hpath.
  apply pt_path_two_levels in Hpath.
  assert (H32 : 2 ^ 5 <= 2 ^ BITCNT_BITS) by (apply Z.pow_le_mono_r; lia).
  change (2 ^ 5) with 32 in H32.
  assert (H22 : wrap BITCNT_BITS (SV32_VPN_BITS + PAGE_SHIFT) = 22).
  { apply wrap_small. unfold SV32_VPN_BITS, PAGE_SHIFT. lia. }
  rewrite H22 in Hpath.
  assert (H12 : wrap BITCNT_BITS (22 - pf_vpn_bits sv32_format) = 12).
  { apply wrap_small. simpl. unfold SV32_VPN_BITS. lia. }
  rewrite H12 in Hpath.
  apply leaf_paddr_page_offset; [exact Hx |]. destruct Hpath as [-> | ->]; lia.
Qed.

End Sv32More.

(** ** The resolver: what is not translated, and unknown modes *)

Section TranslateMore.
Context `{rvvm_build}.

(** X13.  In M-mode a fetch is never translated, whatever [status] and the
    paging mode are, and neither is a load or store while [status.MPRV] is
    clear: the physical address is the virtual address and the world is
    untouched. *)
Theorem riscv_mmu_translate_machine_mode w vaddr access :
  PRIVILEGE_SUPERVISOR < priv_mode (hart w) ->
  access = MMU_EXEC \/ status_mprv (hart w) = false ->
  riscv_mmu_translate vaddr access w = (Some vaddr, w).
Proof.
  intros Hpriv Hcase. rewrite riscv_mmu_translate_resolve.
  assert (Heff : effective_priv (hart w) access = priv_mode (hart w)).
  { unfold effective_priv. destruct Hcase as [-> | ->]; [| reflexivity].
    change (MMU_EXEC =? MMU_EXEC) with true. rewrite andb_false_r. reflexivity. }
  rewrite Heff. apply Z.leb_gt in Hpriv. rewrite Hpriv. reflexivity.
Qed.

(** X14.  A paging mode the build has no walker for is refused with one
    complaint and nothing else: any mode other than bare, Sv32, Sv39, Sv48
    and Sv57, and on a 32-bit build the three RV64 modes as well. *)
Theorem riscv_mmu_translate_unknown_mode w vaddr access :
  effective_priv (hart w) access <= PRIVILEGE_SUPERVISOR ->
  mmu_mode (hart w) <> CSR_SATP_MODE_PHYS ->
  mmu_mode (hart w) <> CSR_SATP_MODE_SV32 ->
  XLEN <> 64
  \/ (mmu_mode (hart w) <> CSR_SATP_MODE_SV39 /\ mmu_mode (hart w) <> CSR_SATP_MODE_SV48
      /\ mmu_mode (hart w) <> CSR_SATP_MODE_SV57) ->
  riscv_mmu_translate vaddr access w = (None, mk_world (hart w) (events w ++ [EvError])).
Proof.
  intros Hpriv Hphys H32 Hmode. rewrite riscv_mmu_translate_resolve.
  apply Z.leb_le in Hpriv. rewrite Hpriv. rewrite translate_by_mode_run.
  apply Z.eqb_neq in Hphys, H32. rewrite Hphys, H32.
  assert (Hlv : rv64_levels (mmu_mode (hart w)) = None).
  { unfold rv64_levels. destruct Hmode as [Hx | (H39 & H48 & H57)].
    - apply Z.eqb_neq in Hx. rewrite Hx. reflexivity.
    - apply Z.eqb_neq in H39, H48, H57. rewrite H39, H48, H57.
      destruct (negb _); reflexivity. }
  rewrite Hlv. reflexivity.
Qed.

End TranslateMore.

(** ** Sv32: superpages and repeated walks *)

Section Sv32Again.
Context `{rvvm_build}.

(** The two masks of the alignment test have no bit in common. *)
Lemma leaf_aligned_always fmt pte bit_off :
  0 <= XLEN -> 0 <= bit_off -> leaf_aligned fmt pte bit_off = true.
Proof.
  intros Hx Hb. unfold leaf_aligned. apply Z.eqb_eq.
  apply Z.bits_inj'. intros i Hi.
  rewrite !Z.land_spec, Z.bits_0. unfold wrap, bit_mask.
  destruct (Z.ltb_spec i XLEN) as [Hlo | Hhi].
  - rewrite (Z.mod_pow2_bits_low (Z.shiftl 1 bit_off - 1)) by lia.
    rewrite (Z.mod_pow2_bits_low (Z.shiftl _ bit_off)) by lia.
    destruct (Z.ltb_spec i bit_off) as [Hib | Hib].
    + rewrite (Z.shiftl_spec _ bit_off i) by lia.
      rewrite (Z.testbit_neg_r _ (i - bit_off)) by lia.
      rewrite !andb_false_r. reflexivity.
    + rewrite Z.shiftl_1_l.
      replace (2 ^ bit_off - 1) with (Z.ones bit_off) by (rewrite Z.ones_equiv; lia).
      rewrite Z.ones_spec_high by lia. rewrite andb_false_r. reflexivity.
  - rewrite (Z.mod_pow2_bits_high (Z.shiftl 1 bit_off - 1)) by lia.
    rewrite andb_false_r. reflexivity.
Qed.

Lemma sv32_first_shift : 5 <= BITCNT_BITS -> wrap BITCNT_BITS (SV32_VPN_BITS + PAGE_SHIFT) = 22.
Proof.
  intros Hb. assert (H32 : 2 ^ 5 <= 2 ^ BITCNT_BITS) by (apply Z.pow_le_mono_r; lia).
  change (2 ^ 5) with 32 in H32.
  apply wrap_small. unfold SV32_VPN_BITS, PAGE_SHIFT. lia.
Qed.

Lemma sv32_second_shift :
  5 <= BITCNT_BITS -> wrap BITCNT_BITS (22 - pf_vpn_bits sv32_format) = 12.
Proof.
  intros Hb. assert (H32 : 2 ^ 5 <= 2 ^ BITCNT_BITS) by (apply Z.pow_le_mono_r; lia).
  change (2 ^ 5) with 32 in H32.
  apply wrap_small. simpl. unfold SV32_VPN_BITS. lia.
Qed.

(** X25.  The test for a misaligned superpage never refuses: [vmask] and
    [pmask] share no bit, so [pte_shift & (vmask & pmask)] is 0 for every
    entry.  A valid leaf in the root table that carries the permission is
    accepted as a 4 MiB page whatever its PPN[0] bits are, and those bits
    are dropped from the physical address. *)
Theorem riscv_mmu_translate_sv32_superpage_unchecked w vaddr access ptr :
  0 <= XLEN -> 5 <= BITCNT_BITS ->
  riscv_phys_translate (hart w)
    (wrap XLEN (root_page_table (hart w)
                + wrap XLEN (Z.shiftl (Z.land (Z.shiftr vaddr 22) SV32_VPN_MASK) 2)))
  = Some ptr ->
  Z.land (read_le (ram_data (mem (hart w))) ptr 4) MMU_VALID_PTE <> 0 ->
  Z.land (read_le (ram_data (mem (hart w))) ptr 4) MMU_LEAF_PTE <> 0 ->
  Z.land (read_le (ram_data (mem (hart w))) ptr 4) access <> 0 ->
  fst (riscv_mmu_translate_sv32 vaddr access w)
  = Some (Z.lor (Z.land (wrap XLEN (Z.shiftl (read_le (ram_data (mem (hart w))) ptr 4) 2))
                        (wrap XLEN (Z.shiftl (bit_mask (SV32_PHYS_BITS - 22)) 22)))
                (Z.land vaddr (wrap XLEN (bit_mask 22)))).
Proof.
  intros Hx Hb Hptr Hv Hl Ha.
  rewrite riscv_mmu_translate_sv32_run, (sv32_first_shift Hb).
  change (Z.to_nat SV32_LEVELS) with 2%nat. unfold pt_run.
  rewrite (pt_path_leaf_here sv32_format (hart w) 1 (root_page_table (hart w)) 22 vaddr ptr
             _ Hptr eq_refl Hv Hl).
  unfold leaf_ok. rewrite leaf_aligned_always by lia.
  apply Z.eqb_neq in Ha. simpl pf_pte_bytes. rewrite Ha. reflexivity.
Qed.

Lemma pte_with_flags_idem access pte :
  pte_with_flags access (pte_with_flags access pte) = pte_with_flags access pte.
Proof.
  apply Z.bits_inj'. intros i _. rewrite !pte_with_flags_bits.
  destruct (Z.testbit pte i), (i =? 6), (i =? 7), (Z.testbit access 2); reflexivity.
Qed.

Lemma pte_with_flags_land access pte m :
  Z.land pte m <> 0 -> Z.land (pte_with_flags access pte) m <> 0.
Proof.
  intros Hne Hz. apply Hne. apply Z.bits_inj'. intros i _.
  assert (Hbit : Z.testbit (Z.land (pte_with_flags access pte) m) i = false)
    by (rewrite Hz; apply Z.bits_0).
  rewrite Z.land_spec, pte_with_flags_bits in Hbit.
  rewrite Z.land_spec, Z.bits_0.
  destruct (Z.testbit pte i); [exact Hbit | reflexivity].
Qed.

Lemma read_le_flagged access d ptr n :
  (1 <= n)%nat ->
  read_le (write_le d ptr n (pte_with_flags access (read_le d ptr n))) ptr n
  = pte_with_flags access (read_le d ptr n).
Proof.
  intros Hn. rewrite read_write_le.
  replace (256 ^ Z.of_nat n) with (2 ^ (8 * Z.of_nat n))
    by (rewrite Z.pow_mul_r by lia; reflexivity).
  apply Z.bits_inj'. intros i Hi.
  destruct (Z.ltb_spec i (8 * Z.of_nat n)) as [Hlo | Hhi].
  - apply Z.mod_pow2_bits_low. lia.
  - rewrite Z.mod_pow2_bits_high by lia.
    rewrite pte_with_flags_bits, read_le_high_bits by exact Hhi.
    replace (i =? 6) with false by (symmetry; apply Z.eqb_neq; lia).
    replace (i =? 7) with false by (symmetry; apply Z.eqb_neq; lia).
    reflexivity.
Qed.

Lemma leaf_paddr_flags fmt vaddr access pte bit_off :
  0 <= XLEN -> 10 <= bit_off ->
  leaf_paddr fmt vaddr (pte_with_flags access pte) bit_off = leaf_paddr fmt vaddr pte bit_off.
Proof.
  intros Hx Hb. unfold leaf_paddr. f_equal.
  apply Z.bits_inj'. intros i Hi. rewrite !Z.land_spec. unfold wrap.
  destruct (Z.ltb_spec i XLEN) as [Hlo | Hhi].
  - rewrite !Z.mod_pow2_bits_low by lia.
    destruct (Z.ltb_spec i bit_off) as [Hib | Hib].
    + rewrite (Z.shiftl_spec _ bit_off i) by lia.
      rewrite (Z.testbit_neg_r _ (i - bit_off)) by lia.
      rewrite !andb_false_r. reflexivity.
    + rewrite !(Z.shiftl_spec _ 2 i) by lia. rewrite pte_with_flags_bits.
      replace (i - 2 =? 6) with false by (symmetry; apply Z.eqb_neq; lia).
      replace (i - 2 =? 7) with false by (symmetry; apply Z.eqb_neq; lia).
      rewrite !orb_false_r. reflexivity.
  - rewrite !Z.mod_pow2_bits_high by lia. reflexivity.
Qed.

Lemma wrap_mod4 a : 2 <= XLEN -> wrap XLEN a mod 4 = a mod 4.
Proof.
  intros Hx. unfold wrap. apply Z.mod_mod_divide.
  exists (2 ^ (XLEN - 2)). change 4 with (2 ^ 2).
  rewrite <- Z.pow_add_r by lia. f_equal. lia.
Qed.

Lemma pte_address_sv32_aligned pagetable bit_off vaddr :
  2 <= XLEN -> pagetable mod 4 = 0 ->
  pte_address sv32_format pagetable bit_off vaddr mod 4 = 0.
Proof.
  intros Hx Hpt. unfold pte_address. simpl pf_pte_log.
  rewrite wrap_mod4 by exact Hx.
  rewrite Z.add_mod, Hpt, wrap_mod4 by lia.
  rewrite Z.shiftl_mul_pow2 by lia. change (2 ^ 2) with 4.
  rewrite Z.mod_mul by lia. reflexivity.
Qed.

Lemma sv32_next_aligned pte : 2 <= XLEN -> pf_next sv32_format pte mod 4 = 0.
Proof.
  intros Hx. simpl. rewrite wrap_mod4 by exact Hx.
  unfold PAGE_SHIFT. rewrite Z.shiftl_mul_pow2 by lia.
  change (2 ^ 12) with (1024 * 4). rewrite Z.mul_assoc. apply Z.mod_mul. lia.
Qed.

Lemma riscv_phys_translate_offset vm pa ptr :
  riscv_phys_translate vm pa = Some ptr -> ptr = pa - ram_begin (mem vm).
Proof.
  unfold riscv_phys_translate. destruct (_ && _); [| discriminate].
  intros Heq. injection Heq as <-. reflexivity.
Qed.

Lemma pt_path_step fmt vm iters pagetable bit_off vaddr :
  pt_path fmt vm (S iters) pagetable bit_off vaddr
  = match riscv_phys_translate vm (pte_address fmt pagetable bit_off vaddr) with
    | None => ([], PtFault)
    | Some ptr =>
      let pte := read_le (ram_data (mem vm)) ptr (pf_pte_bytes fmt) in
      if Z.land pte MMU_VALID_PTE =? 0 then ([pte_address fmt pagetable bit_off vaddr], PtFault)
      else if negb (Z.land pte MMU_LEAF_PTE =? 0)
      then ([pte_address fmt pagetable bit_off vaddr], PtLeaf ptr pte bit_off)
      else if Z.land pte MMU_WRITE =? 0 then
        let (loads, o) :=
          pt_path fmt vm iters (pf_next fmt pte)
                  (wrap BITCNT_BITS (bit_off - pf_vpn_bits fmt)) vaddr in
        (pte_address fmt pagetable bit_off vaddr :: loads, o)
      else ([pte_address fmt pagetable bit_off vaddr], PtFault)
    end.
Proof. reflexivity. Qed.

(** The path of a walk once its leaf carries the flags: the same entries,
    the same leaf, flagged. *)
Lemma sv32_path_flagged vm pagetable bit_off vaddr access loads ptr pte bit_off' :
  2 <= XLEN -> pagetable mod 4 = 0 ->
  pt_path sv32_format vm 2 pagetable bit_off vaddr = (loads, PtLeaf ptr pte bit_off') ->
  pt_path sv32_format
          (set_ram_data (write_le (ram_data (mem vm)) ptr 4 (pte_with_flags access pte)) vm)
          2 pagetable bit_off vaddr
  = (loads, PtLeaf ptr (pte_with_flags access pte) bit_off').
Proof.
  intros Hx Hpt Hpath.
  pose proof (pte_address_sv32_aligned pagetable bit_off vaddr Hx Hpt) as Ha0.
  rewrite pt_path_step in Hpath.
  destruct (riscv_phys_translate vm (pte_address sv32_format pagetable bit_off vaddr))
    as [p1 |] eqn:Hp1; [| discriminate].
  cbv zeta in Hpath.
  set (pte0 := read_le (ram_data (mem vm)) p1 (pf_pte_bytes sv32_format)) in *.
  destruct (Z.land pte0 MMU_VALID_PTE =? 0) eqn:Hv0; [discriminate |].
  apply Z.eqb_neq in Hv0.
  destruct (Z.land pte0 MMU_LEAF_PTE =? 0) eqn:Hl0; simpl negb in Hpath; cbv iota in Hpath.
  - destruct (Z.land pte0 MMU_WRITE =? 0) eqn:Hw0; [| discriminate].
    apply Z.eqb_eq in Hl0. apply Z.eqb_eq in Hw0.
    set (next := pf_next sv32_format pte0) in *.
    set (b1 := wrap BITCNT_BITS (bit_off - pf_vpn_bits sv32_format)) in *.
    assert (Hnext : next mod 4 = 0) by (apply sv32_next_aligned; exact Hx).
    pose proof (pte_address_sv32_aligned next b1 vaddr Hx Hnext) as Ha1.
    destruct (pt_path sv32_format vm 1 next b1 vaddr) as [loads1 o1] eqn:Hrec.
    injection Hpath as <- ->.
    rewrite pt_path_step in Hrec.
    destruct (riscv_phys_translate vm (pte_address sv32_format next b1 vaddr))
      as [p2 |] eqn:Hp2; [| discriminate].
    cbv zeta in Hrec.
    set (pte1 := read_le (ram_data (mem vm)) p2 (pf_pte_bytes sv32_format)) in *.
    destruct (Z.land pte1 MMU_VALID_PTE =? 0) eqn:Hv1; [discriminate |].
    apply Z.eqb_neq in Hv1.
    destruct (Z.land pte1 MMU_LEAF_PTE =? 0) eqn:Hl1; simpl negb in Hrec; cbv iota in Hrec.
    { destruct (Z.land pte1 MMU_WRITE =? 0); [| discriminate].
      simpl in Hrec. discriminate. }
    apply Z.eqb_neq in Hl1.
    injection Hrec as <- <- <- <-.
    assert (Hne : p1 <> p2).
    { intros Heq. apply Hl1. unfold pte1. rewrite <- Heq. exact Hl0. }
    pose proof (riscv_phys_translate_offset _ _ _ Hp1) as Ho1.
    pose proof (riscv_phys_translate_offset _ _ _ Hp2) as Ho2.
    assert (Hread0 : read_le (write_le (ram_data (mem vm)) p2 4 (pte_with_flags access pte1))
                             p1 4 = pte0).
    { apply read_le_ext. intros o Ho. apply write_le_other.
      set (pa0 := pte_address sv32_format pagetable bit_off vaddr) in *.
      set (pa1 := pte_address sv32_format next b1 vaddr) in *.
      clearbody pa0 pa1.
      assert (H4 : 4 <> 0) by lia.
      pose proof (Z.div_mod pa0 4 H4) as Hd0.
      pose proof (Z.div_mod pa1 4 H4) as Hd1.
      change (Z.of_nat (pf_pte_bytes sv32_format)) with 4 in Ho. change (Z.of_nat 4) with 4. lia. }
    set (vm' := set_ram_data
                  (write_le (ram_data (mem vm)) p2 4 (pte_with_flags access pte1)) vm).
    rewrite (pt_path_pointer sv32_format vm' 1 pagetable bit_off vaddr p1 pte0 Hp1 Hread0
               Hv0 Hl0 Hw0).
    fold next. fold b1.
    rewrite (pt_path_leaf_here sv32_format vm' 0 next b1 vaddr p2
               (pte_with_flags access pte1) Hp2 (read_le_flagged access _ p2 4 ltac:(lia))
               (pte_with_flags_land access pte1 _ Hv1)
               (pte_with_flags_land access pte1 _ Hl1)).
    reflexivity.
  - apply Z.eqb_neq in Hl0. injection Hpath as <- <- <- <-.
    set (vm' := set_ram_data
                  (write_le (ram_data (mem vm)) p1 4 (pte_with_flags access pte0)) vm).
    apply (pt_path_leaf_here sv32_format vm' 1 pagetable bit_off vaddr p1
             (pte_with_flags access pte0) Hp1 (read_le_flagged access _ p1 4 ltac:(lia))
             (pte_with_flags_land access pte0 _ Hv0)
             (pte_with_flags_land access pte0 _ Hl0)).
Qed.

(** X26.  An Sv32 translation is idempotent: once granted, the same
    translation is granted again with the same physical address, and the
    second walk writes nothing, the A and D bits being set already (root
    table aligned to a page, as the unit assumes). *)
Theorem riscv_mmu_translate_sv32_again w vaddr access pa w' :
  12 <= XLEN -> 5 <= BITCNT_BITS ->
  Z.land (root_page_table (hart w)) PAGE_MASK = 0 ->
  riscv_mmu_translate_sv32 vaddr access w = (Some pa, w') ->
  exists w'',
    riscv_mmu_translate_sv32 vaddr access w' = (Some pa, w'') /\ hart w'' = hart w'.
Proof.
  intros Hx Hb Hroot. rewrite !riscv_mmu_translate_sv32_run, (sv32_first_shift Hb).
  change (Z.to_nat SV32_LEVELS) with 2%nat. intros Hrun.
  assert (Hroot4 : root_page_table (hart w) mod 4 = 0).
  { unfold PAGE_MASK in Hroot. change 0xFFF with (Z.ones 12) in Hroot.
    rewrite Z.land_ones in Hroot by lia.
    rewrite <- (Z.mod_mod_divide _ (2 ^ 12) 4) by (exists 1024; reflexivity).
    rewrite Hroot. reflexivity. }
  unfold pt_run in Hrun.
  destruct (pt_path sv32_format (hart w) 2 (root_page_table (hart w)) 22 vaddr)
    as [loads o] eqn:Hpath.
  destruct o as [ptr pte bo |]; [| discriminate].
  destruct (leaf_ok sv32_format access pte bo) eqn:Hok; [| discriminate].
  assert (Hbo : 10 <= bo).
  { destruct (pt_path_two_levels _ _ _ _ _ _ _ _ _ Hpath) as [-> | ->]; [lia |].
    rewrite (sv32_second_shift Hb). lia. }
  simpl pf_cas_always in Hrun. simpl pf_pte_bytes in Hrun. cbv beta iota in Hrun.
  rewrite orb_false_l in Hrun.
  destruct (pte =? pte_with_flags access pte) eqn:Hsame; simpl negb in Hrun;
    cbv iota in Hrun; injection Hrun as <- <-.
  - unfold pt_run. simpl hart. rewrite Hpath, Hok.
    simpl pf_cas_always. rewrite orb_false_l, Hsame. simpl negb. cbv iota.
    eexists. split; reflexivity.
  - unfold pt_run. simpl hart.
    change (root_page_table (set_ram_data _ (hart w))) with (root_page_table (hart w)).
    rewrite (sv32_path_flagged (hart w) _ 22 vaddr access loads ptr pte bo ltac:(lia) Hroot4
               Hpath).
    assert (Hok' : leaf_ok sv32_format access (pte_with_flags access pte) bo = true).
    { unfold leaf_ok in *. rewrite leaf_aligned_always by lia.
      apply andb_true_iff in Hok. destruct Hok as [Hacc _].
      apply negb_true_iff, Z.eqb_neq in Hacc.
      apply (pte_with_flags_land access) in Hacc. apply Z.eqb_neq in Hacc.
      rewrite Hacc. reflexivity. }
    rewrite Hok'. simpl pf_cas_always.
    rewrite orb_false_l, pte_with_flags_idem, Z.eqb_refl. simpl negb. cbv iota.
    rewrite leaf_paddr_flags by lia.
    eexists. split; reflexivity.
Qed.

End Sv32Again.

(** ** MMIO reads: the three branches *)

Section MmioMore.
Context `{rvvm_build} {D : Type}.
Implicit Types (mmio : rvvm_mmio_dev_t D) (data : D) (dest : list mbyte).

Lemma riscv_mmio_read_unaligned_eq fuel mmio data dest size offset :
  riscv_mmio_read_unaligned (S fuel) mmio data dest size offset
  = if negb (min_op_size mmio <=? max_op_size mmio) then None
    else if (size <? min_op_size mmio)
            || negb (Z.land offset (wrap XLEN (min_op_size mmio - 1)) =? 0) then
      match grow_size 9 (min_op_size mmio)
              (size + wrap 8 (offset - Z.land offset
                                (wrap XLEN (Z.lnot (wrap XLEN (min_op_size mmio - 1)))))) with
      | None => None
      | Some new_size =>
        match riscv_mmio_read_unaligned fuel mmio data (replicate 16 Undef)
                (min_op_size mmio)
                (Z.land offset (wrap XLEN (Z.lnot (wrap XLEN (min_op_size mmio - 1))))) with
        | None => None
        | Some (tmp, data, calls) =>
          Some (overwrite
                  (slice tmp (wrap 8 (offset - Z.land offset
                                        (wrap XLEN (Z.lnot (wrap XLEN (min_op_size mmio - 1))))))
                         size) dest, data, calls)
        end
      end
    else if max_op_size mmio <? size then
      match riscv_mmio_read_unaligned fuel mmio data dest (Z.shiftr size 1) offset with
      | None => None
      | Some (dest, data, calls1) =>
        match riscv_mmio_read_unaligned fuel mmio data
                (drop (Z.to_nat (Z.shiftr size 1)) dest) (Z.shiftr size 1)
                (wrap XLEN (offset + Z.shiftr size 1)) with
        | None => None
        | Some (dest2, data, calls2) =>
          Some (take (Z.to_nat (Z.shiftr size 1)) dest ++ dest2, data, calls1 ++ calls2)
        end
      end
    else
      let (bytes, data) := mmio_read mmio data size offset in
      Some (overwrite (map Byte bytes) dest, data, [mk_mmio_call size offset]).
Proof. reflexivity. Qed.

(** A request inside the window of the device is passed on as it is. *)
Lemma riscv_mmio_read_unaligned_direct fuel mmio data dest size offset :
  min_op_size mmio <= size <= max_op_size mmio ->
  Z.land offset (wrap XLEN (min_op_size mmio - 1)) = 0 ->
  riscv_mmio_read_unaligned (S fuel) mmio data dest size offset
  = let (bytes, data') := mmio_read mmio data size offset in
    Some (overwrite (map Byte bytes) dest, data', [mk_mmio_call size offset]).
Proof.
  intros Hwin Hal. rewrite riscv_mmio_read_unaligned_eq.
  assert (H1 : (min_op_size mmio <=? max_op_size mmio) = true) by (apply Z.leb_le; lia).
  assert (H2 : (size <? min_op_size mmio) = false) by (apply Z.ltb_ge; lia).
  assert (H3 : (max_op_size mmio <? size) = false) by (apply Z.ltb_ge; lia).
  rewrite H1, H2, H3, Hal. reflexivity.
Qed.

(** X15.  The inline fast path and the general routine agree: for every
    device and request, [riscv_mmio_read] does what
    [riscv_mmio_read_unaligned] does, also when the window of the device is
    empty and the assertion of the latter fails. *)
Theorem riscv_mmio_read_agrees fuel mmio data dest size offset :
  riscv_mmio_read (S fuel) mmio data dest size offset
  = riscv_mmio_read_unaligned (S fuel) mmio data dest size offset.
Proof.
  unfold riscv_mmio_read.
  destruct (Z.ltb_spec (max_op_size mmio) size) as [Hmax | Hmax]; [reflexivity |].
  destruct (Z.ltb_spec size (min_op_size mmio)) as [Hmin | Hmin]; [reflexivity |].
  destruct (Z.eqb_spec (Z.land offset (wrap XLEN (min_op_size mmio - 1))) 0) as [Hal | Hal];
    [| reflexivity].
  rewrite riscv_mmio_read_unaligned_direct by (try lia; exact Hal). reflexivity.
Qed.

(** X16.  A request above [max_op_size] whose halves fit the window is
    served by two callbacks, for the low half and then for the high half,
    on the device state the first one left; the bytes land side by side.
    For an odd size the halves are rounded down and the last byte of the
    destination is not written. *)
Theorem riscv_mmio_read_unaligned_split fuel mmio data dest size offset
    bytes1 data1 bytes2 data2 :
  let half := Z.shiftr size 1 in
  max_op_size mmio < size ->
  min_op_size mmio <= half <= max_op_size mmio ->
  Z.land offset (wrap XLEN (min_op_size mmio - 1)) = 0 ->
  Z.land (wrap XLEN (offset + half)) (wrap XLEN (min_op_size mmio - 1)) = 0 ->
  mmio_read mmio data half offset = (bytes1, data1) ->
  mmio_read mmio data1 half (wrap XLEN (offset + half)) = (bytes2, data2) ->
  length bytes1 = Z.to_nat half -> length bytes2 = Z.to_nat half ->
  (2 * Z.to_nat half <= length dest)%nat ->
  riscv_mmio_read_unaligned (S (S fuel)) mmio data dest size offset
  = Some (map Byte bytes1 ++ map Byte bytes2 ++ drop (2 * Z.to_nat half) dest, data2,
          [mk_mmio_call half offset; mk_mmio_call half (wrap XLEN (offset + half))]).
Proof.
  intros half Hbig Hwin Hal1 Hal2 Hrd1 Hrd2 Hl1 Hl2 Hdest.
  rewrite riscv_mmio_read_unaligned_eq. fold half.
  assert (H1 : (min_op_size mmio <=? max_op_size mmio) = true) by (apply Z.leb_le; lia).
  assert (H2 : (size <? min_op_size mmio) = false) by (apply Z.ltb_ge; lia).
  assert (H3 : (max_op_size mmio <? size) = true) by (apply Z.ltb_lt; lia).
  rewrite H1, H2, H3, Hal1. simpl negb. cbv iota. simpl orb. cbv iota.
  rewrite riscv_mmio_read_unaligned_direct by (try lia; assumption).
  rewrite Hrd1. cbv beta iota.
  rewrite riscv_mmio_read_unaligned_direct by (try lia; assumption).
  rewrite Hrd2. cbv beta iota. f_equal. f_equal. f_equal.
  assert (HB1 : Z.to_nat half = length (map Byte bytes1)) by (rewrite length_map; lia).
  unfold overwrite. rewrite !length_map, Hl1, Hl2.
  rewrite take_app_length' by exact HB1.
  rewrite drop_app_length' by exact HB1.
  rewrite !drop_drop. f_equal. f_equal. f_equal. lia.
Qed.

Lemma slice_prefix (l rest : list mbyte) (off n : Z) :
  (Z.to_nat off + Z.to_nat n <= length l)%nat ->
  slice (l ++ rest) off n = take (Z.to_nat n) (drop (Z.to_nat off) l).
Proof.
  intros Hlen. unfold slice.
  assert (Hn : length (take (Z.to_nat n) (drop (Z.to_nat off) l)) = Z.to_nat n).
  { rewrite length_take, length_drop. lia. }
  rewrite <- Hn at 1.
  apply (map_seq_nth _ _ Undef). intros i Hi. rewrite Hn in Hi.
  rewrite nth_lookup, lookup_take_lt, lookup_drop by lia.
  rewrite lookup_app_l by lia. reflexivity.
Qed.

Lemma grow_size_exit rounds m t : t <= m -> grow_size rounds m t = Some m.
Proof.
  intros Hle. assert (Hlt : (m <? t) = false) by (apply Z.ltb_ge; exact Hle).
  destruct rounds; simpl; rewrite Hlt; reflexivity.
Qed.

(** X17.  A request that is too small or misaligned, and lies within one
    aligned word of [min_op_size] bytes, is served by one callback for that
    word, and yields the bytes of the word from the offset difference on. *)
Theorem riscv_mmio_read_unaligned_within_word fuel mmio data dest size offset bytes data' :
  let aligned_offset :=
      Z.land offset (wrap XLEN (Z.lnot (wrap XLEN (min_op_size mmio - 1)))) in
  let offset_diff := wrap 8 (offset - aligned_offset) in
  0 <= XLEN -> 0 <= size ->
  min_op_size mmio <= max_op_size mmio -> min_op_size mmio <= 16 ->
  size < min_op_size mmio \/ Z.land offset (wrap XLEN (min_op_size mmio - 1)) <> 0 ->
  size + offset_diff <= min_op_size mmio ->
  mmio_read mmio data (min_op_size mmio) aligned_offset = (bytes, data') ->
  length bytes = Z.to_nat (min_op_size mmio) ->
  riscv_mmio_read_unaligned (S (S fuel)) mmio data dest size offset
  = Some (overwrite (map Byte (take (Z.to_nat size) (drop (Z.to_nat offset_diff) bytes))) dest,
          data', [mk_mmio_call (min_op_size mmio) aligned_offset]).
Proof.
  intros aligned_offset offset_diff Hx Hsize Hmm H16 Hbr Hfit Hrd Hlen.
  assert (Hdiff : 0 <= offset_diff) by (apply (wrap_range 8); lia).
  rewrite riscv_mmio_read_unaligned_small; try assumption.
  - cbv zeta. fold aligned_offset. rewrite Hrd. fold offset_diff.
    unfold overwrite at 2.
    rewrite slice_prefix by (rewrite length_map, Hlen; lia).
    rewrite skipn_map, firstn_map. reflexivity.
  - fold aligned_offset. fold offset_diff. rewrite grow_size_exit by exact Hfit. discriminate.
Qed.

(** The loop on [new_size] never leaves when every doubling of the start
    value, taken modulo 256, is below the target. *)
Lemma grow_size_spins rounds m t :
  (forall j, 0 <= j -> wrap 8 (m * 2 ^ j) < t) ->
  0 <= m < 256 ->
  grow_size rounds m t = None.
Proof.
  revert m. induction rounds as [| rounds IH]; intros m Hall Hm.
  - simpl. specialize (Hall 0 ltac:(lia)). rewrite Z.mul_1_r, wrap_small in Hall by (simpl; lia).
    apply Z.ltb_lt in Hall. rewrite Hall. reflexivity.
  - simpl. pose proof (Hall 0 ltac:(lia)) as H0.
    rewrite Z.mul_1_r, wrap_small in H0 by (simpl; lia).
    apply Z.ltb_lt in H0. rewrite H0. apply IH.
    + intros j Hj. specialize (Hall (j + 1) ltac:(lia)).
      rewrite Z.shiftl_mul_pow2 by lia. unfold wrap in *.
      rewrite Z.mul_mod_idemp_l by lia.
      replace (m * 2 ^ 1 * 2 ^ j) with (m * 2 ^ (j + 1)); [exact Hall |].
      rewrite Z.pow_add_r by lia. ring.
    + apply (wrap_range 8). lia.
Qed.

(** X18.  The loop that doubles [new_size] works on [uint8_t]: for a device
    whose [min_op_size] is a power of two, a small or misaligned request
    with [size + offset_diff] above 128 makes it wrap to 0 and spin; the
    loop has no exit however many rounds it runs, and the read yields no
    result. *)
Theorem riscv_mmio_read_unaligned_spins mmio data dest size offset k :
  let offset_diff :=
      wrap 8 (offset - Z.land offset (wrap XLEN (Z.lnot (wrap XLEN (min_op_size mmio - 1))))) in
  0 <= k <= 7 -> min_op_size mmio = 2 ^ k ->
  size < min_op_size mmio \/ Z.land offset (wrap XLEN (min_op_size mmio - 1)) <> 0 ->
  128 < size + offset_diff ->
  (forall rounds, grow_size rounds (min_op_size mmio) (size + offset_diff) = None)
  /\ (forall fuel, riscv_mmio_read_unaligned fuel mmio data dest size offset = None).
Proof.
  intros offset_diff Hk Hmin Hbr Hbig.
  assert (Hloop : forall rounds,
             grow_size rounds (min_op_size mmio) (size + offset_diff) = None).
  { intros rounds. apply grow_size_spins.
    - intros j Hj. rewrite Hmin, <- Z.pow_add_r by lia. unfold wrap.
      destruct (Z_le_dec (k + j) 7) as [Hle | Hgt].
      + assert (H128 : 2 ^ (k + j) <= 2 ^ 7) by (apply Z.pow_le_mono_r; lia).
        assert (Hp : 0 < 2 ^ (k + j)) by (apply Z.pow_pos_nonneg; lia).
        change (2 ^ 7) with 128 in H128. change (2 ^ 8) with 256.
        rewrite Z.mod_small by lia. lia.
      + replace (k + j) with (k + j - 8 + 8) by lia.
        rewrite Z.pow_add_r by lia. rewrite Z.mod_mul by (simpl; lia). lia.
    - rewrite Hmin. assert (H128 : 2 ^ k <= 2 ^ 7) by (apply Z.pow_le_mono_r; lia).
      assert (Hp : 0 < 2 ^ k) by (apply Z.pow_pos_nonneg; lia).
      change (2 ^ 7) with 128 in H128. lia. }
  split; [exact Hloop |].
  intros [| fuel]; [reflexivity |].
  rewrite riscv_mmio_read_unaligned_eq.
  destruct (negb _); [reflexivity |].
  assert (Hc : (size <? min_op_size mmio)
               || negb (Z.land offset (wrap XLEN (min_op_size mmio - 1)) =? 0) = true).
  { destruct Hbr as [Hs | Hs].
    - apply Z.ltb_lt in Hs. rewrite Hs. reflexivity.
    - apply Z.eqb_neq in Hs. rewrite Hs. apply orb_true_r. }
  rewrite Hc. fold offset_diff. rewrite Hloop. reflexivity.
Qed.

End MmioMore.

(** ** The dispatcher: causes, caching, round trips, recursion *)

Section OpMore.
Context `{rvvm_build}.

Lemma access_fault_cause_value access w :
  is_access access ->
  fst (access_fault_cause access w)
  = (if access =? MMU_WRITE then 7 else if access =? MMU_READ then 5 else 1)
  /\ snd (access_fault_cause access w) = w.
Proof. intros [-> | [-> | ->]]; split; reflexivity. Qed.

Lemma page_fault_cause_value access w :
  is_access access ->
  fst (page_fault_cause access w)
  = (if access =? MMU_WRITE then 15 else if access =? MMU_READ then 13 else 12)
  /\ snd (page_fault_cause access w) = w.
Proof. intros [-> | [-> | ->]]; split; reflexivity. Qed.

(** X19.  The outcome of an operation within one page is decided by the
    translation and the RAM window: refused translation, page fault (15
    store, 13 load, 12 fetch); granted but backed by no RAM, access fault (7
    store, 5 load, 1 fetch), since no device is ever consulted; backed by
    RAM, success without a trap.  The trap value is the address given. *)
Theorem riscv_mmu_op_outcome addr buf dest size access w :
  riscv_block_in_page addr size = true ->
  is_access access ->
  exists ok buf' w',
    riscv_mmu_op addr buf dest size access w = (Some (ok, buf'), w')
    /\ match fst (riscv_mmu_translate addr access w) with
       | None =>
         ok = false
         /\ traps (events w')
            = traps (events w)
              ++ [(if access =? MMU_WRITE then 15 else if access =? MMU_READ then 13 else 12,
                   addr)]
       | Some paddr =>
         match riscv_phys_translate (hart w) paddr with
         | None =>
           ok = false
           /\ traps (events w')
              = traps (events w)
                ++ [(if access =? MMU_WRITE then 7 else if access =? MMU_READ then 5 else 1,
                     addr)]
         | Some _ => ok = true /\ traps (events w') = traps (events w)
         end
       end.
Proof.
  intros Hin Hacc. unfold riscv_mmu_op. rewrite riscv_mmu_op_fuel_in_page by exact Hin.
  unfold mmu_op_in_page.
  destruct (riscv_mmu_translate addr access w) as [[paddr |] w1] eqn:Htr;
    destruct (riscv_mmu_translate_effect _ _ _ _ _ Htr) as (Hsame & Htraps & _); cbn [fst].
  - rewrite <- (same_but_ram_phys _ _ paddr Hsame).
    destruct (riscv_phys_translate (hart w1) paddr) as [ptr |].
    + destruct (riscv_tlb_put_frame addr paddr access w1) as [_ Hev]. cbv zeta in Hev.
      destruct (access =? MMU_WRITE); eexists _, _, _; (split; [reflexivity |]);
        (split; [reflexivity |]); simpl; rewrite Hev; exact Htraps.
    + destruct (access_fault_cause_value access w1 Hacc) as [Hc Hw].
      destruct (access_fault_cause access w1) as [cause w2]. simpl in Hc, Hw. subst.
      eexists _, _, _. split; [reflexivity |]. split; [reflexivity |].
      simpl. rewrite traps_app, Htraps. reflexivity.
  - destruct (page_fault_cause_value access w1 Hacc) as [Hc Hw].
    destruct (page_fault_cause access w1) as [cause w2]. simpl in Hc, Hw. subst.
    eexists _, _, _. split; [reflexivity |]. split; [reflexivity |].
    simpl. rewrite traps_app, Htraps. reflexivity.
Qed.

(** X20.  A granted operation on RAM caches its translation: afterwards a
    TLB lookup of the address for the same access class hits, and yields
    the host pointer of the page of the physical address plus the page
    offset of the address. *)
Theorem riscv_mmu_op_caches addr buf dest size access w paddr base :
  0 <= TLB_BITS -> 12 <= XLEN -> 0 <= addr < 2 ^ XLEN ->
  length (tlb (hart w)) = Z.to_nat TLB_SIZE ->
  riscv_block_in_page addr size = true ->
  is_access access ->
  fst (riscv_mmu_translate addr access w) = Some paddr ->
  is_Some (riscv_phys_translate (hart w) paddr) ->
  riscv_phys_translate (hart w) (Z.land paddr PAGE_PNMASK) = Some base ->
  riscv_tlb_lookup (hart (snd (riscv_mmu_op addr buf dest size access w))) addr access
  = Some (base + Z.land addr PAGE_MASK).
Proof.
  intros Hb Hx Ha Hlen Hin Hacc Htr [ptr Hptr] Hbase.
  unfold riscv_mmu_op. rewrite riscv_mmu_op_fuel_in_page by exact Hin.
  unfold mmu_op_in_page.
  destruct (riscv_mmu_translate addr access w) as [r w1] eqn:Hrun.
  simpl in Htr. subst r.
  destruct (riscv_mmu_translate_effect _ _ _ _ _ Hrun) as (Hsame & _ & _).
  rewrite (same_but_ram_phys _ _ paddr Hsame), Hptr.
  assert (Hlen1 : length (tlb (hart w1)) = Z.to_nat TLB_SIZE).
  { destruct Hsame as (_ & _ & _ & _ & Ht & _). rewrite Ht. exact Hlen. }
  assert (Hbase1 : riscv_phys_translate (hart w1) (Z.land paddr PAGE_PNMASK) = Some base).
  { rewrite (same_but_ram_phys _ _ _ Hsame). exact Hbase. }
  assert (Hhit : riscv_tlb_lookup (hart (snd (riscv_tlb_put addr paddr access w1))) addr access
                 = Some (base + Z.land addr PAGE_MASK)).
  { rewrite (riscv_tlb_put_hart _ _ _ _ _ Hbase1). cbv zeta.
    unfold riscv_tlb_lookup.
    rewrite tlb_at_store_eq by (rewrite Hlen1; apply tlb_slot_range; exact Hb).
    simpl tlb_ptr. rewrite (land_page_pnmask addr Hx Ha).
    assert (Hself : (Z.shiftr addr PAGE_SHIFT =? Z.shiftr addr PAGE_SHIFT) = true)
      by apply Z.eqb_refl.
    destruct Hacc as [-> | [-> | ->]]; unfold tlb_put_tags; simpl; rewrite Hself;
      f_equal; lia. }
  destruct (access =? MMU_WRITE); simpl; [| exact Hhit].
  unfold riscv_tlb_lookup, tlb_at in *. simpl. exact Hhit.
Qed.

Lemma riscv_mmu_translate_bare vaddr access w :
  mmu_mode (hart w) = CSR_SATP_MODE_PHYS ->
  riscv_mmu_translate vaddr access w = (Some vaddr, w).
Proof.
  intros Hmode. rewrite riscv_mmu_translate_resolve, translate_by_mode_run, Hmode.
  destruct (_ <=? _); reflexivity.
Qed.

Lemma riscv_tlb_put_mode vaddr paddr op w :
  mmu_mode (hart (snd (riscv_tlb_put vaddr paddr op w))) = mmu_mode (hart w).
Proof.
  unfold riscv_tlb_put, bind, get_hart. cbv zeta.
  destruct (riscv_phys_translate (hart w) _) as [ptr |]; [| reflexivity].
  destruct (tlb_put_tags _ _ op) as [entry complained].
  destruct complained; reflexivity.
Qed.

(** X21.  In bare mode a store followed by a load of the same range within
    one page of RAM returns the bytes that were stored: both operations
    succeed and the loaded bytes are the stored ones, as [uint8_t]. *)
Theorem riscv_mmu_op_bare_store_load addr size buf dest buf2 dest2 w ptr :
  mmu_mode (hart w) = CSR_SATP_MODE_PHYS ->
  riscv_block_in_page addr size = true -> 0 <= size ->
  riscv_phys_translate (hart w) addr = Some ptr ->
  exists w1 w2,
    riscv_mmu_op addr buf dest size MMU_WRITE w = (Some (true, buf), w1)
    /\ riscv_mmu_op addr buf2 dest2 size MMU_READ w1
       = (Some (true, buf_store buf2 dest2 (map (wrap 8) (buf_bytes buf dest size))), w2).
Proof.
  intros Hmode Hin Hsize Hptr. unfold riscv_mmu_op.
  rewrite !riscv_mmu_op_fuel_in_page by exact Hin.
  unfold mmu_op_in_page at 1. rewrite (riscv_mmu_translate_bare _ _ _ Hmode), Hptr.
  change (MMU_WRITE =? MMU_WRITE) with true. cbv iota.
  destruct (riscv_tlb_put_frame addr addr MMU_WRITE w) as [Hmem _]. cbv zeta in Hmem.
  set (w0 := snd (riscv_tlb_put addr addr MMU_WRITE w)) in *.
  assert (Hmode0 : mmu_mode (hart w0) = CSR_SATP_MODE_PHYS).
  { unfold w0. rewrite riscv_tlb_put_mode. exact Hmode. }
  eexists _, _. split; [reflexivity |].
  rewrite riscv_mmu_op_fuel_in_page by exact Hin.
  unfold mmu_op_in_page.
  rewrite riscv_mmu_translate_bare by exact Hmode0.
  assert (Hptr1 : riscv_phys_translate
                    (hart (mk_world
                             (set_ram_data
                                (memcpy_to_ram (ram_data (mem (hart w0))) ptr
                                               (buf_bytes buf dest size)) (hart w0))
                             (events w0))) addr = Some ptr).
  { unfold riscv_phys_translate in *. simpl. rewrite Hmem. exact Hptr. }
  rewrite Hptr1. change (MMU_READ =? MMU_WRITE) with false. cbv iota.
  destruct (riscv_tlb_put_frame addr addr MMU_READ
              (mk_world
                 (set_ram_data
                    (memcpy_to_ram (ram_data (mem (hart w0))) ptr (buf_bytes buf dest size))
                    (hart w0)) (events w0))) as [Hmem2 _].
  cbv zeta in Hmem2. rewrite Hmem2. simpl ram_data.
  pose proof (ram_bytes_memcpy (ram_data (mem (hart w0))) ptr (buf_bytes buf dest size))
    as Hback.
  rewrite length_buf_bytes, Z2Nat.id in Hback by lia. rewrite Hback. reflexivity.
Qed.

(** The trap record of an operation within one page. *)
Lemma mmu_op_in_page_traps addr buf dest size access w ok buf' w' :
  mmu_op_in_page addr buf dest size access w = (Some (ok, buf'), w') ->
  if ok then traps (events w') = traps (events w)
  else exists cause, traps (events w') = traps (events w) ++ [(cause, addr)].
Proof.
  unfold mmu_op_in_page.
  destruct (riscv_mmu_translate addr access w) as [[paddr |] w1] eqn:Htr;
    destruct (riscv_mmu_translate_effect _ _ _ _ _ Htr) as (_ & Htraps & _).
  - destruct (riscv_phys_translate (hart w1) paddr) as [ptr |].
    + destruct (riscv_tlb_put_frame addr paddr access w1) as [_ Hev]. cbv zeta in Hev.
      destruct (access =? MMU_WRITE); intros Heq; injection Heq as <- _ <-; simpl;
        rewrite Hev; exact Htraps.
    + pose proof (access_fault_cause_traps access w1) as Hct.
      destruct (access_fault_cause access w1) as [cause w2]. simpl in Hct.
      intros Heq. injection Heq as <- _ <-. exists cause. simpl.
      rewrite traps_app, Hct, Htraps. reflexivity.
  - pose proof (page_fault_cause_traps access w1) as Hct.
    destruct (page_fault_cause access w1) as [cause w2]. simpl in Hct.
    intros Heq. injection Heq as <- _ <-. exists cause. simpl.
    rewrite traps_app, Hct, Htraps. reflexivity.
Qed.

(** X22.  Whatever the size, [riscv_mmu_op] returns, and it raises a trap
    exactly when it returns false, and then exactly one: the halves of a
    split are chained so that a fault is not followed by a second one. *)
Theorem riscv_mmu_op_one_trap addr buf dest size access w :
  exists ok buf' w',
    riscv_mmu_op addr buf dest size access w = (Some (ok, buf'), w')
    /\ if ok then traps (events w') = traps (events w)
       else exists cause tval, traps (events w') = traps (events w) ++ [(cause, tval)].
Proof.
  unfold riscv_mmu_op.
  assert (Hgen : forall fuel addr buf dest size w,
             (Z.to_nat size < fuel)%nat ->
             exists ok buf' w',
               riscv_mmu_op_fuel fuel addr buf dest size access w = (Some (ok, buf'), w')
               /\ if ok then traps (events w') = traps (events w)
                  else exists cause tval,
                      traps (events w') = traps (events w) ++ [(cause, tval)]).
  { clear. intros fuel. induction fuel as [| fuel IH]; intros addr buf dest size w Hfuel;
      [lia |].
    destruct (riscv_block_in_page addr size) eqn:Hin.
    - rewrite riscv_mmu_op_fuel_in_page by exact Hin.
      destruct (mmu_op_in_page addr buf dest size access w) as [[[ok buf'] |] w'] eqn:Hrun.
      + exists ok, buf', w'. split; [reflexivity |].
        pose proof (mmu_op_in_page_traps _ _ _ _ _ _ _ _ _ Hrun) as Htr.
        destruct ok; [exact Htr |]. destruct Htr as [cause Htr]. eauto.
      + exfalso. unfold mmu_op_in_page in Hrun.
        destruct (riscv_mmu_translate addr access w) as [[paddr |] w1].
        * destruct (riscv_phys_translate (hart w1) paddr).
          -- destruct (access =? MMU_WRITE); discriminate.
          -- destruct (access_fault_cause access w1). discriminate.
        * destruct (page_fault_cause access w1). discriminate.
    - pose proof (page_offset_range addr) as Hoff.
      assert (Hsize : PAGE_SIZE - Z.land addr PAGE_MASK < size).
      { unfold riscv_block_in_page in Hin. apply Z.leb_gt in Hin. lia. }
      rewrite riscv_mmu_op_fuel_split by exact Hin.
      destruct (IH addr buf dest (PAGE_SIZE - Z.land addr PAGE_MASK) w ltac:(lia))
        as (ok1 & b1 & w1 & Hrun1 & Htr1).
      rewrite Hrun1. destruct ok1.
      + destruct (IH (wrap XLEN (addr + (PAGE_SIZE - Z.land addr PAGE_MASK))) b1
                     (dest + (PAGE_SIZE - Z.land addr PAGE_MASK))
                     (size - (PAGE_SIZE - Z.land addr PAGE_MASK)) w1 ltac:(lia))
          as (ok2 & b2 & w2 & Hrun2 & Htr2).
        exists ok2, b2, w2. split; [exact Hrun2 |]. rewrite <- Htr1. exact Htr2.
      + exists false, b1, w1. split; [reflexivity | exact Htr1]. }
  apply Hgen. lia.
Qed.

(** X23.  After [riscv_free_ram] no address is backed by RAM, and every
    operation of the dispatcher, in any mode and of any size, is refused
    with the caller's buffer untouched. *)
Theorem riscv_mmu_op_after_free m addr buf dest size access w :
  mem (hart w) = riscv_free_ram m ->
  (forall paddr, riscv_phys_translate (hart w) paddr = None)
  /\ fst (riscv_mmu_op addr buf dest size access w) = Some (false, buf).
Proof.
  intros Hfree.
  assert (Hnone : forall vm, same_but_ram (hart w) vm ->
                             forall paddr, riscv_phys_translate vm paddr = None).
  { intros vm (_ & _ & _ & _ & _ & Hb & Hs) paddr. unfold riscv_phys_translate.
    rewrite Hb, Hs, Hfree. simpl.
    destruct (Z.leb_spec 0 paddr); destruct (Z.ltb_spec paddr (0 + 0)); try reflexivity; lia. }
  split; [apply Hnone, same_but_ram_refl |].
  assert (Hpage : forall addr buf dest size,
             fst (mmu_op_in_page addr buf dest size access w) = Some (false, buf)).
  { clear addr buf dest size. intros addr buf dest size. unfold mmu_op_in_page.
    destruct (riscv_mmu_translate addr access w) as [[paddr |] w1] eqn:Htr.
    - destruct (riscv_mmu_translate_effect _ _ _ _ _ Htr) as (Hsame & _ & _).
      rewrite (Hnone _ Hsame). destruct (access_fault_cause access w1). reflexivity.
    - destruct (page_fault_cause access w1). reflexivity. }
  unfold riscv_mmu_op.
  destruct (riscv_block_in_page addr size) eqn:Hin.
  - rewrite riscv_mmu_op_fuel_in_page by exact Hin. apply Hpage.
  - pose proof (page_offset_range addr) as Hoff.
    assert (Hsize : PAGE_SIZE - Z.land addr PAGE_MASK < size).
    { unfold riscv_block_in_page in Hin. apply Z.leb_gt in Hin. lia. }
    rewrite riscv_mmu_op_fuel_split by exact Hin.
    destruct (Z.to_nat size) as [| k] eqn:Hk; [lia |].
    rewrite riscv_mmu_op_fuel_in_page by apply first_part_in_page.
    specialize (Hpage addr buf dest (PAGE_SIZE - Z.land addr PAGE_MASK)).
    destruct (mmu_op_in_page addr buf dest _ access w) as [r1 w1].
    simpl in Hpage. subst r1. reflexivity.
Qed.

(** Fuel beyond the size of the operation changes nothing. *)
Lemma riscv_mmu_op_fuel_enough access f1 :
  forall f2 addr buf dest size w,
    (Z.to_nat size < f1)%nat -> (Z.to_nat size < f2)%nat ->
    riscv_mmu_op_fuel f1 addr buf dest size access w
    = riscv_mmu_op_fuel f2 addr buf dest size access w.
Proof.
  induction f1 as [| f1 IH]; intros f2 addr buf dest size w H1 H2; [lia |].
  destruct f2 as [| f2]; [lia |].
  destruct (riscv_block_in_page addr size) eqn:Hin.
  - rewrite !riscv_mmu_op_fuel_in_page by exact Hin. reflexivity.
  - pose proof (page_offset_range addr) as Hoff.
    assert (Hsize : PAGE_SIZE - Z.land addr PAGE_MASK < size).
    { unfold riscv_block_in_page in Hin. apply Z.leb_gt in Hin. lia. }
    rewrite !riscv_mmu_op_fuel_split by exact Hin.
    rewrite (IH f2 addr buf dest (PAGE_SIZE - Z.land addr PAGE_MASK) w) by lia.
    destruct (riscv_mmu_op_fuel f2 addr buf dest _ access w) as [[[[] b1] |] w1];
      try reflexivity.
    apply IH; lia.
Qed.

(** X24.  An operation that crosses a page boundary is the operation on the
    part up to the boundary followed, when that part succeeds, by the
    operation on the remainder, at the address and buffer position advanced
    by the size of the first part; when the first part fails, the remainder
    is not attempted. *)
Theorem riscv_mmu_op_crossing addr buf dest size access w :
  riscv_block_in_page addr size = false ->
  riscv_mmu_op addr buf dest size access w
  = let part_size := PAGE_SIZE - Z.land addr PAGE_MASK in
    let (r1, w1) := riscv_mmu_op addr buf dest part_size access w in
    match r1 with
    | Some (true, buf1) =>
      riscv_mmu_op (wrap XLEN (addr + part_size)) buf1 (dest + part_size)
                   (size - part_size) access w1
    | _ => (r1, w1)
    end.
Proof.
  intros Hin. cbv zeta.
  pose proof (page_offset_range addr) as Hoff.
  assert (Hsize : PAGE_SIZE - Z.land addr PAGE_MASK < size).
  { unfold riscv_block_in_page in Hin. apply Z.leb_gt in Hin. lia. }
  unfold riscv_mmu_op at 1. rewrite riscv_mmu_op_fuel_split by exact Hin.
  unfold riscv_mmu_op.
  rewrite (riscv_mmu_op_fuel_enough access (Z.to_nat size)
             (S (Z.to_nat (PAGE_SIZE - Z.land addr PAGE_MASK)))) by lia.
  destruct (riscv_mmu_op_fuel _ addr buf dest _ access w) as [[[[] b1] |] w1];
    try reflexivity.
  apply riscv_mmu_op_fuel_enough; lia.
Qed.

(** X28.  In bare mode an operation within one page of RAM writes nothing
    but its target: a load or fetch leaves the RAM as it was, and a store
    changes no byte outside the [size] bytes at the host pointer of the
    address; the bounds of the RAM are never touched. *)
Theorem riscv_mmu_op_bare_frame addr buf dest size access w ptr :
  mmu_mode (hart w) = CSR_SATP_MODE_PHYS ->
  riscv_block_in_page addr size = true ->
  riscv_phys_translate (hart w) addr = Some ptr ->
  (access <> MMU_WRITE ->
   mem (hart (snd (riscv_mmu_op addr buf dest size access w))) = mem (hart w))
  /\ (forall off,
         ~ (ptr <= off < ptr + size) ->
         ram_byte (ram_data (mem (hart (snd (riscv_mmu_op addr buf dest size access w))))) off
         = ram_byte (ram_data (mem (hart w))) off)
  /\ ram_begin (mem (hart (snd (riscv_mmu_op addr buf dest size access w))))
     = ram_begin (mem (hart w))
  /\ ram_size (mem (hart (snd (riscv_mmu_op addr buf dest size access w))))
     = ram_size (mem (hart w)).
Proof.
  intros Hmode Hin Hptr. unfold riscv_mmu_op.
  rewrite riscv_mmu_op_fuel_in_page by exact Hin.
  unfold mmu_op_in_page. rewrite (riscv_mmu_translate_bare _ _ _ Hmode), Hptr.
  destruct (riscv_tlb_put_frame addr addr access w) as [Hmem _]. cbv zeta in Hmem.
  destruct (access =? MMU_WRITE) eqn:Hw; simpl snd.
  - apply Z.eqb_eq in Hw. split; [intros Hne; contradiction |].
    simpl. rewrite Hmem. split; [| split; reflexivity].
    intros off Hoff. apply memcpy_to_ram_other. rewrite length_buf_bytes. lia.
  - rewrite Hmem. repeat split.
Qed.

End OpMore.

(** ** The TLB is a cache only *)

Section TlbIsCache.
Context `{rvvm_build}.

Lemma tlb_related_eta w w' :
  tlb_related w w' -> w' = mk_world (set_tlb (tlb (hart w')) (hart w)) (events w).
Proof.
  destruct w as [vm evs], w' as [vm' evs']. destruct vm, vm'.
  intros [(Hp & Hs & Hm & Hr & Hmem) Hev]. simpl in *. subst. reflexivity.
Qed.

Lemma tlb_related_set_tlb w t : tlb_related w (mk_world (set_tlb t (hart w)) (events w)).
Proof. repeat split. Qed.

Lemma pt_path_set_tlb fmt t vm iters :
  forall pagetable bit_off vaddr,
    pt_path fmt (set_tlb t vm) iters pagetable bit_off vaddr
    = pt_path fmt vm iters pagetable bit_off vaddr.
Proof.
  induction iters as [| iters IH]; intros pagetable bit_off vaddr; [reflexivity |].
  simpl.
  change (riscv_phys_translate (set_tlb t vm)) with (riscv_phys_translate vm).
  destruct (riscv_phys_translate vm _) as [ptr |]; [| reflexivity].
  simpl mem. rewrite IH. reflexivity.
Qed.

Lemma pt_run_set_tlb fmt iters pagetable bit_off vaddr access t w :
  pt_run fmt iters pagetable bit_off vaddr access (mk_world (set_tlb t (hart w)) (events w))
  = let (r, w') := pt_run fmt iters pagetable bit_off vaddr access w in
    (r, mk_world (set_tlb t (hart w')) (events w')).
Proof.
  unfold pt_run. simpl hart. simpl events. rewrite pt_path_set_tlb.
  destruct (pt_path fmt (hart w) iters pagetable bit_off vaddr) as [loads o].
  destruct o as [ptr pte bo |]; [| reflexivity].
  destruct (leaf_ok fmt access pte bo); [| reflexivity].
  destruct (pf_cas_always fmt || negb (pte =? pte_with_flags access pte)); reflexivity.
Qed.

(** A translation reads and writes nothing of the TLB. *)
Lemma riscv_mmu_translate_set_tlb vaddr access t w :
  riscv_mmu_translate vaddr access (mk_world (set_tlb t (hart w)) (events w))
  = let (r, w') := riscv_mmu_translate vaddr access w in
    (r, mk_world (set_tlb t (hart w')) (events w')).
Proof.
  rewrite !riscv_mmu_translate_resolve. simpl hart.
  change (effective_priv (set_tlb t (hart w)) access) with (effective_priv (hart w) access).
  change (effective_access (set_tlb t (hart w)) access)
    with (effective_access (hart w) access).
  destruct (_ <=? PRIVILEGE_SUPERVISOR); [| reflexivity].
  rewrite !translate_by_mode_run. simpl hart.
  change (mmu_mode (set_tlb t (hart w))) with (mmu_mode (hart w)).
  change (root_page_table (set_tlb t (hart w))) with (root_page_table (hart w)).
  destruct (_ =? CSR_SATP_MODE_PHYS); [reflexivity |].
  destruct (_ =? CSR_SATP_MODE_SV32); [apply pt_run_set_tlb |].
  destruct (rv64_levels _) as [sv_levels |]; [| reflexivity].
  destruct (vaddr =? _); [apply pt_run_set_tlb | reflexivity].
Qed.

Lemma tlb_put_tags_complaint e e' vpn op :
  snd (tlb_put_tags e vpn op) = snd (tlb_put_tags e' vpn op).
Proof.
  unfold tlb_put_tags.
  destruct (op =? MMU_READ), (op =? MMU_WRITE), (op =? MMU_EXEC); reflexivity.
Qed.

Lemma riscv_tlb_put_related vaddr paddr op w w' :
  tlb_related w w' ->
  tlb_related (snd (riscv_tlb_put vaddr paddr op w)) (snd (riscv_tlb_put vaddr paddr op w')).
Proof.
  intros Hrel. pose proof Hrel as [(Hp & Hs & Hm & Hr & Hmem) Hev].
  unfold riscv_tlb_put, bind, get_hart. cbv zeta.
  unfold riscv_phys_translate. rewrite Hmem.
  destruct (_ && _); [| exact Hrel].
  pose proof (tlb_put_tags_complaint
                (tlb_at (hart w) (Z.land (Z.shiftr vaddr PAGE_SHIFT) TLB_MASK))
                (tlb_at (hart w') (Z.land (Z.shiftr vaddr PAGE_SHIFT) TLB_MASK))
                (Z.shiftr vaddr PAGE_SHIFT) op) as Hc.
  destruct (tlb_put_tags (tlb_at (hart w) _) _ op) as [e1 c1].
  destruct (tlb_put_tags (tlb_at (hart w') _) _ op) as [e2 c2].
  simpl in Hc. subst c2.
  destruct c1; simpl; repeat split; simpl; try assumption.
  rewrite Hev. reflexivity.
Qed.

Lemma mmu_op_in_page_related addr buf dest size access w w' :
  tlb_related w w' ->
  fst (mmu_op_in_page addr buf dest size access w')
  = fst (mmu_op_in_page addr buf dest size access w)
  /\ tlb_related (snd (mmu_op_in_page addr buf dest size access w))
                 (snd (mmu_op_in_page addr buf dest size access w')).
Proof.
  intros Hrel. rewrite (tlb_related_eta _ _ Hrel).
  generalize (tlb (hart w')). intros t. clear w' Hrel.
  unfold mmu_op_in_page. rewrite riscv_mmu_translate_set_tlb.
  destruct (riscv_mmu_translate addr access w) as [[paddr |] w1].
  - change (riscv_phys_translate (hart (mk_world (set_tlb t (hart w1)) (events w1))))
      with (riscv_phys_translate (hart w1)).
    destruct (riscv_phys_translate (hart w1) paddr) as [ptr |].
    + pose proof (riscv_tlb_put_related addr paddr access _ _ (tlb_related_set_tlb w1 t))
        as [(Hp & Hs & Hm & Hr & Hmem) Hev].
      destruct (access =? MMU_WRITE); simpl fst; simpl snd.
      * split; [reflexivity |]. repeat split; simpl; try assumption.
        rewrite Hmem. reflexivity.
      * rewrite Hmem. split; [reflexivity |]. repeat split; assumption.
    + unfold access_fault_cause.
      destruct (access =? MMU_WRITE); [repeat split |].
      destruct (access =? MMU_READ); [repeat split |].
      destruct (access =? MMU_EXEC); repeat split.
  - unfold page_fault_cause.
    destruct (access =? MMU_WRITE); [repeat split |].
    destruct (access =? MMU_READ); [repeat split |].
    destruct (access =? MMU_EXEC); repeat split.
Qed.

Lemma riscv_mmu_op_fuel_related access fuel :
  forall addr buf dest size w w',
    tlb_related w w' ->
    fst (riscv_mmu_op_fuel fuel addr buf dest size access w')
    = fst (riscv_mmu_op_fuel fuel addr buf dest size access w)
    /\ tlb_related (snd (riscv_mmu_op_fuel fuel addr buf dest size access w))
                   (snd (riscv_mmu_op_fuel fuel addr buf dest size access w')).
Proof.
  induction fuel as [| fuel IH]; intros addr buf dest size w w' Hrel.
  - split; [reflexivity | exact Hrel].
  - destruct (riscv_block_in_page addr size) eqn:Hin.
    + rewrite !riscv_mmu_op_fuel_in_page by exact Hin.
      apply mmu_op_in_page_related. exact Hrel.
    + rewrite !riscv_mmu_op_fuel_split by exact Hin.
      destruct (IH addr buf dest (PAGE_SIZE - Z.land addr PAGE_MASK) w w' Hrel)
        as [Hfst Hsnd].
      destruct (riscv_mmu_op_fuel fuel addr buf dest _ access w) as [r1 w1].
      destruct (riscv_mmu_op_fuel fuel addr buf dest _ access w') as [r1' w1'].
      simpl in Hfst, Hsnd. subst r1'.
      destruct r1 as [[[] b1] |].
      * apply IH. exact Hsnd.
      * split; [reflexivity | exact Hsnd].
      * split; [reflexivity | exact Hsnd].
Qed.

(** X27.  The dispatcher never reads the TLB: whatever table the hart
    holds, [riscv_mmu_op] returns the same flag and buffer, leaves the same
    RAM and registers and raises the same events; it only writes entries
    for the inline fast path of its callers. *)
Theorem riscv_mmu_op_ignores_tlb addr buf dest size access w t :
  fst (riscv_mmu_op addr buf dest size access (mk_world (set_tlb t (hart w)) (events w)))
  = fst (riscv_mmu_op addr buf dest size access w)
  /\ tlb_related (snd (riscv_mmu_op addr buf dest size access w))
       (snd (riscv_mmu_op addr buf dest size access
               (mk_world (set_tlb t (hart w)) (events w)))).
Proof.
  unfold riscv_mmu_op. apply riscv_mmu_op_fuel_related. apply tlb_related_set_tlb.
Qed.

End TlbIsCache.

(** ** Concrete machines for the further properties *)

Lemma riscv_tlb_flush_page_slot_misses_witness :
  @riscv_tlb_lookup rv64_build
    (@riscv_tlb_flush_page rv64_build (hart tlb_store_cached_world) 0) 0x10 MMU_WRITE = None.
Proof.
  apply (@riscv_tlb_flush_page_slot_misses rv64_build (hart tlb_store_cached_world) 0 0x10
           MMU_WRITE).
  - simpl; lia.
  - simpl; lia.
  - simpl; lia.
  - simpl; lia.
  - vm_compute; reflexivity.
  - reflexivity.
Defined.

Lemma riscv_tlb_flush_page_other_slot_witness :
  @riscv_tlb_lookup rv64_build
    (@riscv_tlb_flush_page rv64_build (hart tlb_store_cached_world) 0x1000) 0x10 MMU_WRITE
  = @riscv_tlb_lookup rv64_build (hart tlb_store_cached_world) 0x10 MMU_WRITE.
Proof.
  apply (@riscv_tlb_flush_page_other_slot rv64_build (hart tlb_store_cached_world) 0x1000 0x10
           MMU_WRITE).
  - simpl; lia.
  - vm_compute; reflexivity.
  - vm_compute; lia.
Defined.

Lemma riscv_tlb_put_evicts_slot_mates_witness :
  @riscv_tlb_lookup rv64_build
    (hart (snd (@riscv_tlb_put rv64_build 0x100000 0x80000000 MMU_READ tlb_store_cached_world)))
    0x10 MMU_WRITE = None.
Proof.
  apply (@riscv_tlb_put_evicts_slot_mates rv64_build tlb_store_cached_world 0x100000 0x80000000
           MMU_READ 0x10 MMU_WRITE).
  - simpl; lia.
  - simpl; lia.
  - simpl; lia.
  - simpl; lia.
  - vm_compute; reflexivity.
  - vm_compute. eexists. reflexivity.
  - reflexivity.
  - vm_compute; lia.
Defined.

Lemma riscv_tlb_put_unknown_op_witness :
  events (snd (@riscv_tlb_put rv64_build 0 0x80000000 0 flushed_world))
  = events flushed_world ++ [EvError]
  /\ @riscv_tlb_lookup rv64_build
       (hart (snd (@riscv_tlb_put rv64_build 0 0x80000000 0 flushed_world))) 0 MMU_READ = None.
Proof.
  apply (@riscv_tlb_put_unknown_op rv64_build flushed_world 0 0x80000000 0 MMU_READ).
  - simpl; lia.
  - simpl; lia.
  - simpl; lia.
  - vm_compute; reflexivity.
  - vm_compute. eexists. reflexivity.
  - unfold is_access. vm_compute. lia.
Defined.

Lemma riscv_tlb_put_local_witness :
  mem (hart (snd (@riscv_tlb_put rv64_build 0x1000 0x80000000 MMU_READ tlb_store_cached_world)))
  = mem (hart tlb_store_cached_world)
  /\ (forall vaddr' op',
         @tlb_slot rv64_build vaddr' <> @tlb_slot rv64_build 0x1000 ->
         @riscv_tlb_lookup rv64_build
           (hart (snd (@riscv_tlb_put rv64_build 0x1000 0x80000000 MMU_READ
                         tlb_store_cached_world))) vaddr' op'
         = @riscv_tlb_lookup rv64_build (hart tlb_store_cached_world) vaddr' op')
  /\ (@riscv_phys_translate (hart tlb_store_cached_world)
        (Z.land 0x80000000 (@PAGE_PNMASK rv64_build)) = None ->
      @riscv_tlb_put rv64_build 0x1000 0x80000000 MMU_READ tlb_store_cached_world
      = (tt, tlb_store_cached_world)).
Proof.
  apply (@riscv_tlb_put_local rv64_build tlb_store_cached_world 0x1000 0x80000000 MMU_READ).
  simpl; lia.
Defined.

Lemma riscv_tlb_put_hit_pointer_witness :
  @riscv_tlb_lookup rv64_build
    (hart (snd (@riscv_tlb_put rv64_build 0x2000 0x80000123 MMU_EXEC flushed_world)))
    0x2ABC MMU_EXEC
  = Some (0 + Z.land 0x2ABC PAGE_MASK).
Proof.
  apply (@riscv_tlb_put_hit_pointer rv64_build flushed_world 0x2000 0x80000123 MMU_EXEC 0x2ABC 0).
  - simpl; lia.
  - simpl; lia.
  - simpl; lia.
  - simpl; lia.
  - vm_compute; reflexivity.
  - right; right; reflexivity.
  - vm_compute; reflexivity.
  - reflexivity.
Defined.

Lemma riscv_init_ram_whole_pages_witness :
  riscv_phys_translate two_page_hart (Z.land 0x80001234 (@PAGE_PNMASK rv64_build) + 0x10)
  = Some (0x1234 - Z.land 0x80001234 PAGE_MASK + 0x10).
Proof.
  apply (@riscv_init_ram_whole_pages rv64_build true 0x80000000 0x2000 two_page_hart
           0x80001234 0x1234 0x10).
  - reflexivity.
  - simpl; lia.
  - simpl; lia.
  - reflexivity.
  - unfold PAGE_SIZE; lia.
Defined.

Lemma riscv_mmu_translate_permitted_witness :
  exists pte_pa ptr n,
    riscv_phys_translate (hart (xonly_world (Z.shiftl 1 19))) pte_pa = Some ptr
    /\ (n = 4%nat \/ n = 8%nat)
    /\ let pte := read_le (ram_data (mem (hart (xonly_world (Z.shiftl 1 19))))) ptr n in
       Z.testbit pte 0 = true
       /\ (Z.testbit pte 1 = true \/ Z.testbit pte 3 = true)
       /\ (MMU_READ = MMU_WRITE -> Z.testbit pte 2 = true)
       /\ (MMU_READ = MMU_EXEC -> Z.testbit pte 3 = true)
       /\ (MMU_READ = MMU_READ ->
           if status_mxr (hart (xonly_world (Z.shiftl 1 19)))
           then Z.testbit pte 3 = true else Z.testbit pte 1 = true).
Proof.
  apply (@riscv_mmu_translate_permitted rv32_build (xonly_world (Z.shiftl 1 19)) 0x1000 MMU_READ
           0x80001000
           (snd (@riscv_mmu_translate rv32_build 0x1000 MMU_READ (xonly_world (Z.shiftl 1 19))))).
  - left; reflexivity.
  - vm_compute; discriminate.
  - vm_compute; lia.
  - vm_compute; reflexivity.
Defined.

Lemma riscv_mmu_translate_refused_unchanged_witness :
  hart (snd (@riscv_mmu_translate rv32_build 0x1000 MMU_READ (xonly_world 0)))
  = hart (xonly_world 0)
  /\ traps (events (snd (@riscv_mmu_translate rv32_build 0x1000 MMU_READ (xonly_world 0))))
     = traps (events (xonly_world 0)).
Proof.
  apply (@riscv_mmu_translate_refused_unchanged rv32_build 0x1000 MMU_READ (xonly_world 0)).
  vm_compute; reflexivity.
Defined.

Lemma riscv_mmu_translate_sv32_page_offset_witness :
  Z.land 0x00801ABC PAGE_MASK = Z.land 0x00403ABC PAGE_MASK.
Proof.
  apply (@riscv_mmu_translate_sv32_page_offset rv32_build sv32_code_world 0x00403ABC MMU_WRITE
           0x00801ABC
           (snd (@riscv_mmu_translate_sv32 rv32_build 0x00403ABC MMU_WRITE sv32_code_world))).
  - simpl; lia.
  - simpl; lia.
  - vm_compute; reflexivity.
Defined.

Lemma riscv_mmu_translate_machine_mode_witness :
  @riscv_mmu_translate rv32_build 0x1000 MMU_EXEC machine_world = (Some 0x1000, machine_world).
Proof.
  apply (@riscv_mmu_translate_machine_mode rv32_build machine_world 0x1000 MMU_EXEC).
  - vm_compute; reflexivity.
  - left; reflexivity.
Defined.

Lemma riscv_mmu_translate_unknown_mode_witness :
  @riscv_mmu_translate rv32_build 0x1000 MMU_READ sv39_world
  = (None, mk_world (hart sv39_world) (events sv39_world ++ [EvError])).
Proof.
  apply (@riscv_mmu_translate_unknown_mode rv32_build sv39_world 0x1000 MMU_READ).
  - vm_compute; discriminate.
  - vm_compute; lia.
  - vm_compute; lia.
  - left. simpl; lia.
Defined.

Lemma riscv_mmio_read_unaligned_split_witness :
  @riscv_mmio_read_unaligned rv32_build unit 2 word_dev tt (replicate 8 Undef) 8 0
  = Some (map Byte [0xA0; 0xA1; 0xA2; 0xA3] ++ map Byte [0xA4; 0xA5; 0xA6; 0xA7]
            ++ drop (2 * Z.to_nat (Z.shiftr 8 1)) (replicate 8 Undef),
          tt,
          [mk_mmio_call (Z.shiftr 8 1) 0;
           mk_mmio_call (Z.shiftr 8 1) (wrap (@XLEN rv32_build) (0 + Z.shiftr 8 1))]).
Proof.
  apply (@riscv_mmio_read_unaligned_split rv32_build unit 0 word_dev tt (replicate 8 Undef) 8 0
           [0xA0; 0xA1; 0xA2; 0xA3] tt [0xA4; 0xA5; 0xA6; 0xA7] tt).
  - unfold word_dev; simpl; lia.
  - change (Z.shiftr 8 1) with 4. unfold word_dev; simpl; lia.
  - reflexivity.
  - reflexivity.
  - reflexivity.
  - reflexivity.
  - reflexivity.
  - reflexivity.
  - unfold word_dev; simpl; lia.
Defined.

Lemma riscv_mmio_read_unaligned_within_word_witness :
  @riscv_mmio_read_unaligned rv32_build unit 2 word_dev tt [Undef] 1 2
  = Some (overwrite
            (map Byte
               (take (Z.to_nat 1)
                  (drop (Z.to_nat
                           (wrap 8 (2 - Z.land 2 (wrap (@XLEN rv32_build)
                                                    (Z.lnot (wrap (@XLEN rv32_build)
                                                               (min_op_size word_dev - 1)))))))
                        [0xA0; 0xA1; 0xA2; 0xA3])))
            [Undef],
          tt,
          [mk_mmio_call (min_op_size word_dev)
             (Z.land 2 (wrap (@XLEN rv32_build)
                          (Z.lnot (wrap (@XLEN rv32_build) (min_op_size word_dev - 1)))))]).
Proof.
  apply (@riscv_mmio_read_unaligned_within_word rv32_build unit 0 word_dev tt [Undef] 1 2
           [0xA0; 0xA1; 0xA2; 0xA3] tt).
  - unfold word_dev; simpl; lia.
  - lia.
  - unfold word_dev; simpl; lia.
  - unfold word_dev; simpl; lia.
  - left. unfold word_dev; simpl; lia.
  - vm_compute; discriminate.
  - reflexivity.
  - reflexivity.
Defined.

Lemma riscv_mmio_read_unaligned_spins_witness :
  (forall rounds,
      grow_size rounds (min_op_size word_dev)
        (200 + wrap 8 (1 - Z.land 1 (wrap (@XLEN rv32_build)
                                        (Z.lnot (wrap (@XLEN rv32_build)
                                                   (min_op_size word_dev - 1))))))
      = None)
  /\ (forall fuel,
         @riscv_mmio_read_unaligned rv32_build unit fuel word_dev tt (replicate 200 Undef) 200 1
         = None).
Proof.
  apply (@riscv_mmio_read_unaligned_spins rv32_build unit word_dev tt (replicate 200 Undef)
           200 1 2).
  - lia.
  - reflexivity.
  - right. vm_compute; lia.
  - vm_compute; reflexivity.
Defined.

Lemma riscv_mmu_op_outcome_witness :
  exists ok buf' w',
    @riscv_mmu_op rv32_build 0x00400000 [0; 0; 0; 0] 0 4 MMU_READ split_world
    = (Some (ok, buf'), w')
    /\ match fst (@riscv_mmu_translate rv32_build 0x00400000 MMU_READ split_world) with
       | None =>
         ok = false
         /\ traps (events w')
            = traps (events split_world)
              ++ [(if MMU_READ =? MMU_WRITE then 15 else if MMU_READ =? MMU_READ then 13 else 12,
                   0x00400000)]
       | Some paddr =>
         match riscv_phys_translate (hart split_world) paddr with
         | None =>
           ok = false
           /\ traps (events w')
              = traps (events split_world)
                ++ [(if MMU_READ =? MMU_WRITE then 7 else if MMU_READ =? MMU_READ then 5 else 1,
                     0x00400000)]
         | Some _ => ok = true /\ traps (events w') = traps (events split_world)
         end
       end.
Proof.
  apply (@riscv_mmu_op_outcome rv32_build 0x00400000 [0; 0; 0; 0] 0 4 MMU_READ split_world).
  - reflexivity.
  - left; reflexivity.
Defined.

Lemma riscv_mmu_op_caches_witness :
  @riscv_tlb_lookup rv32_build
    (hart (snd (@riscv_mmu_op rv32_build 0x80000100 [0] 0 1 MMU_READ bare_world)))
    0x80000100 MMU_READ
  = Some (0 + Z.land 0x80000100 PAGE_MASK).
Proof.
  apply (@riscv_mmu_op_caches rv32_build 0x80000100 [0] 0 1 MMU_READ bare_world 0x80000100 0).
  - simpl; lia.
  - simpl; lia.
  - simpl; lia.
  - vm_compute; reflexivity.
  - reflexivity.
  - left; reflexivity.
  - vm_compute; reflexivity.
  - vm_compute. eexists. reflexivity.
  - vm_compute; reflexivity.
Defined.

Lemma riscv_mmu_op_bare_store_load_witness :
  exists w1 w2,
    @riscv_mmu_op rv32_build 0x80000200 [0x11; 0x22] 0 2 MMU_WRITE bare_world
    = (Some (true, [0x11; 0x22]), w1)
    /\ @riscv_mmu_op rv32_build 0x80000200 [0; 0] 0 2 MMU_READ w1
       = (Some (true, buf_store [0; 0] 0 (map (wrap 8) (buf_bytes [0x11; 0x22] 0 2))), w2).
Proof.
  apply (@riscv_mmu_op_bare_store_load rv32_build 0x80000200 2 [0x11; 0x22] 0 [0; 0] 0
           bare_world 0x200).
  - reflexivity.
  - reflexivity.
  - lia.
  - vm_compute; reflexivity.
Defined.

Lemma riscv_mmu_op_after_free_witness :
  (forall paddr, riscv_phys_translate (hart freed_world) paddr = None)
  /\ fst (@riscv_mmu_op rv32_build 0x80000100 [0; 0] 0 2 MMU_READ freed_world)
     = Some (false, [0; 0]).
Proof.
  apply (@riscv_mmu_op_after_free rv32_build (mk_ram 0x80000000 0x1000 ∅) 0x80000100 [0; 0] 0 2
           MMU_READ freed_world).
  reflexivity.
Defined.

Lemma riscv_mmu_op_crossing_witness :
  @riscv_mmu_op rv32_build split_addr split_buf 0 8 MMU_WRITE split_world
  = let part_size := PAGE_SIZE - Z.land split_addr PAGE_MASK in
    let (r1, w1) := @riscv_mmu_op rv32_build split_addr split_buf 0 part_size MMU_WRITE
                      split_world in
    match r1 with
    | Some (true, buf1) =>
      @riscv_mmu_op rv32_build (wrap (@XLEN rv32_build) (split_addr + part_size)) buf1
                    (0 + part_size) (8 - part_size) MMU_WRITE w1
    | _ => (r1, w1)
    end.
Proof.
  apply (@riscv_mmu_op_crossing rv32_build split_addr split_buf 0 8 MMU_WRITE split_world).
  reflexivity.
Defined.

Lemma riscv_mmu_translate_sv32_superpage_unchecked_witness :
  fst (@riscv_mmu_translate_sv32 rv32_build 0x1000 MMU_READ misaligned_world)
  = Some (Z.lor (Z.land (wrap (@XLEN rv32_build)
                           (Z.shiftl (read_le (ram_data (mem (hart misaligned_world)))
                                              0x400000 4) 2))
                        (wrap (@XLEN rv32_build) (Z.shiftl (bit_mask (SV32_PHYS_BITS - 22)) 22)))
                (Z.land 0x1000 (wrap (@XLEN rv32_build) (bit_mask 22)))).
Proof.
  apply (@riscv_mmu_translate_sv32_superpage_unchecked rv32_build misaligned_world 0x1000
           MMU_READ 0x400000).
  - simpl; lia.
  - simpl; lia.
  - vm_compute; reflexivity.
  - vm_compute; lia.
  - vm_compute; lia.
  - vm_compute; lia.
Defined.

(** The entry 0x2000040F has PPN[0] = 1, and the walk accepts it. *)
Example misaligned_superpage_accepted :
  Z.testbit 0x2000040F 10 = true
  /\ fst (@riscv_mmu_translate_sv32 rv32_build 0x1000 MMU_READ misaligned_world)
     = Some 0x80001000.
Proof. split; vm_compute; reflexivity. Qed.

Lemma riscv_mmu_translate_sv32_again_witness :
  exists w'',
    @riscv_mmu_translate_sv32 rv32_build 0x00403ABC MMU_WRITE
      (snd (@riscv_mmu_translate_sv32 rv32_build 0x00403ABC MMU_WRITE sv32_code_world))
    = (Some 0x00801ABC, w'')
    /\ hart w''
       = hart (snd (@riscv_mmu_translate_sv32 rv32_build 0x00403ABC MMU_WRITE sv32_code_world)).
Proof.
  apply (@riscv_mmu_translate_sv32_again rv32_build sv32_code_world 0x00403ABC MMU_WRITE
           0x00801ABC).
  - simpl; lia.
  - simpl; lia.
  - reflexivity.
  - vm_compute; reflexivity.
Defined.

Lemma riscv_mmu_op_bare_frame_witness :
  (MMU_WRITE <> MMU_WRITE ->
   mem (hart (snd (@riscv_mmu_op rv32_build 0x80000200 [0x11; 0x22] 0 2 MMU_WRITE bare_world)))
   = mem (hart bare_world))
  /\ (forall off,
         ~ (0x200 <= off < 0x200 + 2) ->
         ram_byte (ram_data (mem (hart (snd (@riscv_mmu_op rv32_build 0x80000200 [0x11; 0x22]
                                               0 2 MMU_WRITE bare_world))))) off
         = ram_byte (ram_data (mem (hart bare_world))) off)
  /\ ram_begin (mem (hart (snd (@riscv_mmu_op rv32_build 0x80000200 [0x11; 0x22] 0 2 MMU_WRITE
                                  bare_world))))
     = ram_begin (mem (hart bare_world))
  /\ ram_size (mem (hart (snd (@riscv_mmu_op rv32_build 0x80000200 [0x11; 0x22] 0 2 MMU_WRITE
                                 bare_world))))
     = ram_size (mem (hart bare_world)).
Proof.
  apply (@riscv_mmu_op_bare_frame rv32_build 0x80000200 [0x11; 0x22] 0 2 MMU_WRITE bare_world
           0x200).
  - reflexivity.
  - reflexivity.
  - vm_compute; reflexivity.
Defined.
